(** * Fleet modernity pipeline: a shallow embedding and its properties

    The development follows the batch scripts of the repository:

    - [Classifier]    the family patterns [PAT] and [tag_family] of
                      scripts/py/build_features.py, and the legacy
                      [NEWGEN_PATTERNS] / [detect_new_gen] of
                      scripts/py/air1_generate_features.py;
    - [Air1]          the per-airline aggregates and the V0 indices of
                      scripts/py/air1_generate_features.py;
    - [BuildFeatures] scripts/py/build_features.py;
    - [Scorer]        scripts/py/air9_compute_scores.py;
    - [CountryMap]    scripts/py/air13_build_country_mapping.py;
    - [Region]        scripts/py/air14_region_summary.py;
    - [FleetBucket]   scripts/air19_create_fleet_bucket.py.

    [Num], [Frame], [Text], [Regex] and [Unicode] hold what the scripts
    take from Python, pandas and [re]; [Statements] and [Examples] hold
    the vocabulary and the inputs of the properties, which come last.

    Frames.  A table is the list of its rows and a script is a function of
    its input files; a script that stops on an exception gives [None].

    Numbers.  A numeric pandas cell is a [cell]: NaN, one of the two
    infinities, or a finite value.  Finite values are exact rationals: the
    rounding of binary64 arithmetic and the sign of zero are not modelled.

    Missing values.  A missing cell of a text column is [None].  The
    column methods keep it missing ([astype(str)] and the [.str]
    accessor, as pandas 3 does), [groupby] leaves it out of the keys and
    [nunique] does not count it; Python's [str], called cell by cell,
    spells it "nan".

    Text.  A Python [str] is a [string] of bytes; the case mappings, the
    character classes and the word boundaries are the ASCII ones.  The two
    calls into [unicodedata] are parameters of the definitions that use
    them. *)

From Stdlib Require Import Bool List Arith ZArith QArith Qminmax Lia Lqa.
From Stdlib Require Import Ascii String DecimalString.
From Stdlib Require Import Permutation Sorted.
Import ListNotations.

Set Implicit Arguments.

(* ------------------------------------------------------------------ *)
(** ** Numeric cells *)

Module Num.

Local Open Scope Q_scope.

Inductive cell : Type :=
| NaN
| PInf
| NInf
| Fin (q : Q).

Definition isna (c : cell) : bool :=
  match c with NaN => true | _ => false end.

(** [Series.fillna(v)]. *)
Definition fillna (v : Q) (c : cell) : cell :=
  match c with NaN => Fin v | _ => c end.

Definition Qltb (x y : Q) : bool := negb (Qle_bool y x).

Definition qmax (x y : Q) : Q := if Qle_bool x y then y else x.
Definition qmin (x y : Q) : Q := if Qle_bool x y then x else y.

(** [Series.clip(lo, hi)]: NaN stays NaN, everything else is brought
    into the interval. *)
Definition clip (lo hi : Q) (c : cell) : cell :=
  match c with
  | NaN => NaN
  | PInf => Fin hi
  | NInf => Fin lo
  | Fin q => Fin (qmin (qmax q lo) hi)
  end.

(** What [clip(0, 1)] makes of a finite value. *)
Definition unit_clip (q : Q) : Q := qmin (qmax q 0) 1.

(** [s > q] and [s < q]; a comparison with NaN is false. *)
Definition gt (c : cell) (q : Q) : bool :=
  match c with
  | Fin x => Qltb q x
  | PInf => true
  | _ => false
  end.

Definition lt (c : cell) (q : Q) : bool :=
  match c with
  | Fin x => Qltb x q
  | NInf => true
  | _ => false
  end.

Definition neg (c : cell) : cell :=
  match c with
  | NaN => NaN
  | PInf => NInf
  | NInf => PInf
  | Fin q => Fin (- q)
  end.

(** An infinity with the sign of [q]; zero times infinity is NaN. *)
Definition inf_signed (q : Q) (pos : cell) : cell :=
  match q ?= 0 with
  | Eq => NaN
  | Gt => pos
  | Lt => neg pos
  end.

Definition add (a b : cell) : cell :=
  match a, b with
  | NaN, _ | _, NaN => NaN
  | Fin x, Fin y => Fin (x + y)
  | PInf, NInf | NInf, PInf => NaN
  | PInf, _ | _, PInf => PInf
  | NInf, _ | _, NInf => NInf
  end.

Definition mul (a b : cell) : cell :=
  match a, b with
  | NaN, _ | _, NaN => NaN
  | Fin x, Fin y => Fin (x * y)
  | Fin x, PInf | PInf, Fin x => inf_signed x PInf
  | Fin x, NInf | NInf, Fin x => inf_signed x NInf
  | PInf, PInf | NInf, NInf => PInf
  | PInf, NInf | NInf, PInf => NInf
  end.

(** Division of float columns: [x / 0] is an infinity of the sign of [x],
    [0 / 0] is NaN, nothing raises. *)
Definition div (a b : cell) : cell :=
  match a, b with
  | NaN, _ | _, NaN => NaN
  | Fin x, Fin y =>
      match y ?= 0 with
      | Eq => inf_signed x PInf
      | _ => Fin (x / y)
      end
  | Fin _, (PInf | NInf) => Fin 0
  | (PInf | NInf), (PInf | NInf) => NaN
  | PInf, Fin y => if Qltb y 0 then NInf else PInf
  | NInf, Fin y => if Qltb y 0 then PInf else NInf
  end.

(** [a <= b] and [a == b] on floats; a comparison with NaN is false. *)
Definition fle (a b : cell) : bool :=
  match a, b with
  | NaN, _ | _, NaN => false
  | NInf, _ | _, PInf => true
  | Fin x, Fin y => Qle_bool x y
  | _, _ => false
  end.

Definition feq (a b : cell) : bool :=
  match a, b with
  | Fin x, Fin y => Qeq_bool x y
  | PInf, PInf | NInf, NInf => true
  | _, _ => false
  end.

(** Equality of cells up to the representation of fractions. *)
Definition eqc (a b : cell) : Prop :=
  match a, b with
  | NaN, NaN | PInf, PInf | NInf, NInf => True
  | Fin x, Fin y => x == y
  | _, _ => False
  end.

(** The cell is a finite number of the closed unit interval. *)
Definition in01 (c : cell) : Prop :=
  match c with
  | Fin q => 0 <= q /\ q <= 1
  | _ => False
  end.

End Num.

Infix "=c=" := Num.eqc (at level 70, no associativity).

(* ------------------------------------------------------------------ *)
(** ** Frames

    A table is the list of its rows, in order. *)

Module Frame.

(** [drop_duplicates] / [unique]: the first occurrence of each value, in
    order of appearance. *)
Fixpoint dedup_by {A : Type} (eqb : A -> A -> bool) (seen : list A)
  (l : list A) : list A :=
  match l with
  | [] => []
  | x :: t =>
      if existsb (eqb x) seen then dedup_by eqb seen t
      else x :: dedup_by eqb (x :: seen) t
  end.

(** Sorting ([sort_values], the sorted group keys of [groupby]). *)
Fixpoint insert_by {A : Type} (leb : A -> A -> bool) (x : A) (l : list A)
  : list A :=
  match l with
  | [] => [x]
  | y :: t => if leb x y then x :: l else y :: insert_by leb x t
  end.

Definition sort_by {A : Type} (leb : A -> A -> bool) (l : list A) : list A :=
  fold_right (insert_by leb) [] l.

(** A step of a script either gives a value or raises: [None] is the
    script stopping on an exception. *)
Definition bind {A B : Type} (e : option A) (k : A -> option B)
  : option B :=
  match e with
  | Some x => k x
  | None => None
  end.

(** Every row is computed, or the script has stopped. *)
Fixpoint sequence {A : Type} (l : list (option A)) : option (list A) :=
  match l with
  | [] => Some []
  | None :: _ => None
  | Some x :: t =>
      match sequence t with
      | Some t' => Some (x :: t')
      | None => None
      end
  end.

End Frame.

Notation "x <- e ;; k" := (Frame.bind e (fun x => k))
  (at level 61, e at next level, right associativity).

(* ------------------------------------------------------------------ *)
(** ** Text *)

Module Text.

Import Frame.

Local Open Scope string_scope.
Local Open Scope nat_scope.

Definition code (c : ascii) : nat := nat_of_ascii c.

Definition between (lo hi : nat) (c : ascii) : bool :=
  (lo <=? code c) && (code c <=? hi).

Definition is_upper (c : ascii) : bool := between 65 90 c.
Definition is_lower (c : ascii) : bool := between 97 122 c.
Definition is_digit (c : ascii) : bool := between 48 57 c.

(** [\w] *)
Definition is_word (c : ascii) : bool :=
  is_upper c || is_lower c || is_digit c || Ascii.eqb c "_".

(** What [str.strip()] removes and [\s] matches: tab, line feed, vertical
    tab, form feed, carriage return, the four separators 28..31 and the
    space. *)
Definition is_space (c : ascii) : bool :=
  between 9 13 c || between 28 32 c.

Definition lower_char (c : ascii) : ascii :=
  if is_upper c then ascii_of_nat (code c + 32) else c.

Definition upper_char (c : ascii) : ascii :=
  if is_lower c then ascii_of_nat (code c - 32) else c.

Fixpoint smap (f : ascii -> ascii) (s : string) : string :=
  match s with
  | EmptyString => EmptyString
  | String c t => String (f c) (smap f t)
  end.

Fixpoint sfilter (p : ascii -> bool) (s : string) : string :=
  match s with
  | EmptyString => EmptyString
  | String c t => if p c then String c (sfilter p t) else sfilter p t
  end.

(** [s.lower()], [s.upper()] on ASCII text: the letters A-Z and a-z are
    mapped, every other character is kept.  Python maps the letters
    outside ASCII as well (and may change their number); that part of
    the two methods is not embedded, and a statement that compares the
    cases of a text is made of ASCII text only. *)
Definition lower (s : string) : string := smap lower_char s.
Definition upper (s : string) : string := smap upper_char s.

Fixpoint lstrip_by (p : ascii -> bool) (s : string) : string :=
  match s with
  | EmptyString => EmptyString
  | String c t => if p c then lstrip_by p t else s
  end.

Fixpoint rstrip_by (p : ascii -> bool) (s : string) : string :=
  match s with
  | EmptyString => EmptyString
  | String c t =>
      match rstrip_by p t with
      | EmptyString => if p c then EmptyString else String c EmptyString
      | t' => String c t'
      end
  end.

Definition strip_by (p : ascii -> bool) (s : string) : string :=
  rstrip_by p (lstrip_by p s).

(** [s.strip()] *)
Definition strip (s : string) : string := strip_by is_space s.

(** [s.strip(";")] *)
Definition strip_char (c : ascii) (s : string) : string :=
  strip_by (Ascii.eqb c) s.

(** [s.split(sep)] for a one-character separator. *)
Fixpoint split_on (sep : ascii) (s : string) : list string :=
  match s with
  | EmptyString => [EmptyString]
  | String c t =>
      if Ascii.eqb c sep then EmptyString :: split_on sep t
      else match split_on sep t with
           | [] => [String c EmptyString]
           | w :: ws => String c w :: ws
           end
  end.

(** [s.split()]: the maximal runs of non-blank characters. *)
Fixpoint words_aux (cur : string) (s : string) : list string :=
  match s with
  | EmptyString => match cur with EmptyString => [] | _ => [cur] end
  | String c t =>
      if is_space c
      then match cur with
           | EmptyString => words_aux EmptyString t
           | _ => cur :: words_aux EmptyString t
           end
      else words_aux (cur ++ String c EmptyString) t
  end.

Definition words (s : string) : list string := words_aux EmptyString s.

(** [t in s] for strings. *)
Fixpoint contains (t s : string) : bool :=
  prefix t s ||
  match s with
  | EmptyString => false
  | String _ s' => contains t s'
  end.

Definition nonempty (s : string) : bool :=
  match s with EmptyString => false | _ => true end.

Definition mem (s : string) (l : list string) : bool :=
  existsb (String.eqb s) l.

(** [unique] and [sort_values] on a column of strings, compared in byte
    order. *)
Definition unique (l : list string) : list string :=
  dedup_by String.eqb [] l.

Definition sort (l : list string) : list string := sort_by String.leb l.

End Text.

(* ------------------------------------------------------------------ *)
(** ** Regular expressions

    The fragment of Python's [re] syntax that the pattern tables use, with
    a backtracking matcher.  [re.search] only asks whether some match
    exists, so the order in which the alternatives are tried is
    immaterial. *)

Module Regex.

Import Frame Text.
Local Open Scope string_scope.
Local Open Scope nat_scope.

Inductive re : Type :=
| Lit (s : string)          (* literal characters *)
| Any                       (* .        *)
| Digit                     (* \d       *)
| Word                      (* \w       *)
| Space                     (* \s       *)
| OneOf (cs : string)       (* [cs]     *)
| Bnd                       (* \b       *)
| Bol                       (* ^        *)
| Cat (a b : re)            (* ab       *)
| Alt (a b : re)            (* a|b      *)
| Grp (a : re)              (* (a)      *)
| Opt (a : re)              (* a?       *)
| Star (a : re)             (* a*       *)
| Rep (lo hi : nat) (a : re) (* a{lo,hi}, a{lo} when lo = hi *).

Declare Scope re_scope.
Delimit Scope re_scope with re.
Bind Scope re_scope with re.
Infix "++" := Cat : re_scope.
Infix "<|>" := Alt (at level 65, right associativity) : re_scope.

(** *** The concrete syntax of a pattern *)

Definition show_nat (n : nat) : string :=
  NilEmpty.string_of_uint (Nat.to_uint n).

Fixpoint show (r : re) : string :=
  match r with
  | Lit s => s
  | Any => "."
  | Digit => "\d"
  | Word => "\w"
  | Space => "\s"
  | OneOf cs => "[" ++ cs ++ "]"
  | Bnd => "\b"
  | Bol => "^"
  | Cat a b => show a ++ show b
  | Alt a b => show a ++ "|" ++ show b
  | Grp a => "(" ++ show a ++ ")"
  | Opt a => show a ++ "?"
  | Star a => show a ++ "*"
  | Rep lo hi a =>
      show a ++ "{" ++ show_nat lo
             ++ (if lo =? hi then "" else "," ++ show_nat hi) ++ "}"
  end.

(** A term reads back from its concrete syntax as itself when its
    literals hold no metacharacter, a quantifier is applied to a single
    item, a member of a sequence is not an alternation, and sequences and
    alternations are nested to the right. *)
Definition meta (c : ascii) : bool :=
  existsb (Ascii.eqb c) (list_ascii_of_string ".^$*+?{}[]\|()").

Fixpoint plain (s : string) : bool :=
  match s with
  | EmptyString => true
  | String c t => negb (meta c) && plain t
  end.

(** Inside brackets: no bracket, backslash or caret, and a hyphen only in
    first position. *)
Definition plain_set (cs : string) : bool :=
  match cs with
  | EmptyString => false
  | String c t =>
      negb (existsb (Ascii.eqb c) (list_ascii_of_string "[]\^"))
      && plain t && negb (existsb (Ascii.eqb "-") (list_ascii_of_string t))
  end.

Definition atom (r : re) : bool :=
  match r with
  | Lit (String _ EmptyString) => true
  | Any | Digit | Word | Space | OneOf _ | Grp _ => true
  | _ => false
  end.

Definition is_alt (r : re) : bool :=
  match r with Alt _ _ => true | _ => false end.

Definition is_cat (r : re) : bool :=
  match r with Cat _ _ => true | _ => false end.

Fixpoint wf (r : re) : bool :=
  match r with
  | Cat a b => wf a && wf b && negb (is_alt a) && negb (is_alt b)
               && negb (is_cat a)
  | Alt a b => wf a && wf b && negb (is_alt a)
  | Grp a => wf a
  | Opt a | Star a | Rep _ _ a => wf a && atom a
  | Lit s => nonempty s && plain s
  | OneOf cs => plain_set cs
  | _ => true
  end.

(** *** Matching *)

Section Matcher.

(** [re.I] *)
Variable icase : bool.

Definition same (x c : ascii) : bool :=
  if icase then Ascii.eqb (lower_char x) (lower_char c)
  else Ascii.eqb x c.

Fixpoint one_of (cs : string) (x : ascii) : bool :=
  match cs with
  | EmptyString => false
  | String c t => same x c || one_of t x
  end.

Definition word_opt (c : option ascii) : bool :=
  match c with Some x => is_word x | None => false end.

Definition head (s : string) : option ascii :=
  match s with String x _ => Some x | EmptyString => None end.

(** [\b] between the character before the position and the one at it. *)
Definition boundary (prev : option ascii) (s : string) : bool :=
  xorb (word_opt prev) (word_opt (head s)).

Definition cont : Type := option ascii -> string -> bool.

Definition one (p : ascii -> bool) (s : string) (k : cont) : bool :=
  match s with
  | String x t => p x && k (Some x) t
  | EmptyString => false
  end.

Fixpoint lit (l : string) (prev : option ascii) (s : string) (k : cont)
  : bool :=
  match l with
  | EmptyString => k prev s
  | String c l' =>
      match s with
      | String x t => same x c && lit l' (Some x) t k
      | EmptyString => false
      end
  end.

(** [m r prev s k]: [r] matches a prefix of [s] (the character before
    [s] being [prev]) and [k] accepts what follows. *)
Fixpoint m (r : re) (prev : option ascii) (s : string) (k : cont)
  {struct r} : bool :=
  match r with
  | Lit l => lit l prev s k
  | Any => one (fun x => negb (Ascii.eqb x "010")) s k
  | Digit => one is_digit s k
  | Word => one is_word s k
  | Space => one is_space s k
  | OneOf cs => one (one_of cs) s k
  | Bnd => boundary prev s && k prev s
  | Bol => match prev with None => k prev s | Some _ => false end
  | Cat a b => m a prev s (fun p' s' => m b p' s' k)
  | Alt a b => m a prev s k || m b prev s k
  | Grp a => m a prev s k
  | Opt a => m a prev s k || k prev s
  | Star a =>
      (fix star (fuel : nat) (prev : option ascii) (s : string)
         {struct fuel} : bool :=
         k prev s ||
         match fuel with
         | O => false
         | S fuel' =>
             m a prev s
               (fun p' s' =>
                  (String.length s' <? String.length s)
                  && star fuel' p' s')
         end) (String.length s) prev s
  | Rep lo hi a =>
      let more :=
        fix more (may : nat) (prev : option ascii) (s : string)
          {struct may} : bool :=
          k prev s ||
          match may with
          | O => false
          | S may' => m a prev s (fun p' s' => more may' p' s')
          end in
      (fix rep (must : nat) (prev : option ascii) (s : string)
         {struct must} : bool :=
         match must with
         | O => more (hi - lo) prev s
         | S must' => m a prev s (fun p' s' => rep must' p' s')
         end) lo prev s
  end.

(** [re.search]: a match starting at some position. *)
Fixpoint search_from (r : re) (prev : option ascii) (s : string) : bool :=
  m r prev s (fun _ _ => true) ||
  match s with
  | EmptyString => false
  | String x t => search_from r (Some x) t
  end.

Definition search (r : re) (s : string) : bool := search_from r None s.

End Matcher.

End Regex.

(* ------------------------------------------------------------------ *)
(** ** Aircraft classifier *)

Module Classifier.

Import Frame Text Regex.
Local Open Scope string_scope.
Local Open Scope re_scope.

(** *** The six family patterns of build_features.py *)

Definition PAT_a220 : re :=
  Bnd ++ Grp (Lit "a220" ++ Opt (Lit "-") ++ Lit "1" ++ Opt (Grp (Lit "00"))
              <|> Lit "a220" ++ Opt (Lit "-") ++ Lit "3"
                  ++ Opt (Grp (Lit "00"))
              <|> Lit "cs100"
              <|> Lit "cs300"
              <|> Lit "bd-500-1a1" ++ OneOf "01") ++ Bnd.

Definition PAT_b787 : re := Bnd ++ Lit "787" ++ Bnd.

Definition PAT_a350 : re := Bnd ++ Lit "a350" ++ Bnd.

Definition PAT_a330neo : re :=
  Bnd ++ Grp (Lit "a330-800"
              <|> Lit "a330-900"
              <|> Lit "a330neo"
              <|> Lit "a330" ++ Opt (Lit "-") ++ Opt (Lit "9") ++ Lit "0"
                  ++ Opt (Lit "0") ++ Lit "neo") ++ Bnd.

Definition PAT_neo : re :=
  Bnd ++ Grp (Lit "a31" ++ OneOf "9" <|> Lit "a32" ++ OneOf "01")
      ++ Opt (OneOf "- ") ++ Rep 2 3 Digit ++ Lit "n" ++ Bnd
  <|> Bnd ++ Grp (Lit "a31" ++ OneOf "9" <|> Lit "a32" ++ OneOf "01")
      ++ Lit "neo" ++ Bnd.

Definition PAT_max : re :=
  Bnd ++ Grp (Lit "737" ++ Opt (OneOf "- ") ++ Lit "max"
              <|> Lit "7m7"
              <|> Lit "7m8"
              <|> Lit "7m9"
              <|> Lit "7mj"
              <|> Lit "max" ++ Opt (Lit " ")
                  ++ Grp (Lit "7" <|> Lit "8" <|> Lit "9" <|> Lit "10"))
      ++ Bnd.

Record tags : Type := mk_tags {
  is_a220 : bool;
  is_787 : bool;
  is_a350 : bool;
  is_a330neo : bool;
  is_neo : bool;
  is_max : bool
}.

(** The patterns are compiled with [re.I]. *)
Definition tag_family (model : string) : tags :=
  let s := lower model in
  {| is_a220 := search true PAT_a220 s;
     is_787 := search true PAT_b787 s;
     is_a350 := search true PAT_a350 s;
     is_a330neo := search true PAT_a330neo s;
     is_neo := search true PAT_neo s;
     is_max := search true PAT_max s |}.

(** *** The legacy pattern list of air1_generate_features.py *)

Definition bol_or_space : re := Grp (Bol <|> Space).

Definition NEWGEN_PATTERNS : list re :=
  [ Bnd ++ Lit "neo" ++ Bnd;
    Bnd ++ Lit "a32" ++ Digit ++ Lit "neo" ++ Bnd;
    Bnd ++ Lit "a32" ++ Digit ++ Lit "-2" ++ Rep 2 2 Digit ++ Lit "n"
        ++ Opt Word ++ Bnd;
    Bnd ++ Lit "a31" ++ Digit ++ Lit "-1" ++ Rep 2 2 Digit ++ Lit "n"
        ++ Opt Word ++ Bnd;
    Bnd ++ Lit "a321" ++ Opt Space ++ Lit "xlr" ++ Bnd;
    Bnd ++ Lit "a321" ++ Opt Space ++ Lit "lr" ++ Bnd;

    Bnd ++ Lit "787" ++ Bnd;
    Bnd ++ Lit "a350" ++ Bnd;
    Bnd ++ Lit "a330neo" ++ Bnd;
    Bnd ++ Lit "a330-9" ++ Rep 2 2 Digit ++ Bnd;
    Bnd ++ Lit "a330-8" ++ Rep 2 2 Digit ++ Bnd;

    Bnd ++ Lit "max" ++ Bnd;
    bol_or_space ++ Opt (Lit "b") ++ Lit "737-7" ++ Bnd;
    bol_or_space ++ Opt (Lit "b") ++ Lit "737-8" ++ Bnd;
    bol_or_space ++ Opt (Lit "b") ++ Lit "737-9" ++ Bnd;
    bol_or_space ++ Opt (Lit "b") ++ Lit "737-10" ++ Bnd;
    bol_or_space ++ Opt (Lit "b") ++ Lit "737-8-200" ++ Bnd;

    Bnd ++ Lit "a220" ++ Bnd;
    Bnd ++ Lit "cs" ++ Grp (Lit "100" <|> Lit "300") ++ Bnd;
    Lit "cseries";

    Lit "embraer" ++ Star Any ++ Bnd ++ Lit "e2" ++ Bnd;
    Bnd ++ Lit "e19" ++ OneOf "05" ++ Lit "-e2" ++ Bnd;
    Bnd ++ Lit "e19" ++ OneOf "05" ++ Lit "-2" ++ Bnd;
    Bnd ++ Lit "e2" ++ Bnd;

    Bnd ++ Lit "777x" ++ Bnd ].

(** [model] is [None] for a value that is not a [str]. *)
Definition detect_new_gen (model : option string) : nat :=
  match model with
  | None => 0
  | Some model =>
      let m := lower model in
      if existsb (fun pat => search false pat m) NEWGEN_PATTERNS
      then 1 else 0
  end.

End Classifier.

(* ------------------------------------------------------------------ *)
(** ** The calls into [unicodedata]

    [nfkd s] is [unicodedata.normalize("NFKD", s)] and [strip_marks s] is
    [s] without the characters [c] for which [unicodedata.combining(c)]
    is non-zero.  Both leave ASCII text as it is. *)

Module Unicode.

Import Frame Text.

Definition is_ascii (c : ascii) : bool := code c <? 128.

Fixpoint all_ascii (s : string) : bool :=
  match s with
  | EmptyString => true
  | String c t => is_ascii c && all_ascii t
  end.

Class unicodedata : Type := {
  nfkd : string -> string;
  strip_marks : string -> string;
  nfkd_ascii : forall s, all_ascii s = true -> nfkd s = s;
  strip_marks_ascii : forall s, all_ascii s = true -> strip_marks s = s
}.

(** [s.encode("ascii", errors="ignore").decode("utf-8")] *)
Definition encode_ascii_ignore (s : string) : string := sfilter is_ascii s.

(** The restriction to ASCII text. *)
#[export] Instance ascii_only : unicodedata | 100 :=
  {| nfkd := fun s => s;
     strip_marks := fun s => s;
     nfkd_ascii := fun s _ => eq_refl;
     strip_marks_ascii := fun s _ => eq_refl |}.

End Unicode.

(* ------------------------------------------------------------------ *)
(** ** air1_generate_features.py: aggregates and V0 indices *)

Module Air1.

Import Frame Text Unicode Num.
Local Open Scope string_scope.
Local Open Scope nat_scope.

Definition MIN_FLEET : nat := 5.

Section WithUnicode.

Context {U : unicodedata}.

(** [normalize_text_series], on one cell.  [None] is a missing value:
    [astype(str)] and the [.str] methods after it leave it missing. *)
Definition normalize_text (v : option string) : option string :=
  match v with
  | Some s => Some (upper (encode_ascii_ignore (nfkd (strip s))))
  | None => None
  end.

Record work_row : Type := mk_work {
  w_airline : option string;
  w_model : option string;
  w_new_gen : nat
}.

(** A raw observation: the airline cell and the model cell. *)
Definition raw_row : Type := (option string * option string)%type.

(** [detect_new_gen] gives 0 on a model that is not a string. *)
Definition work_of (r : raw_row) : work_row :=
  let model := normalize_text (snd r) in
  {| w_airline := normalize_text (fst r);
     w_model := model;
     w_new_gen := Classifier.detect_new_gen model |}.

Record agg_row : Type := mk_agg {
  airline : string;
  fleet_size : nat;
  models_diversity : nat;
  new_gen_share : Q;
  indice_modernite_v0 : Q;
  low_fleet_flag : nat;
  indice_public : cell;
  indice_penalise : Q
}.

(** The cells of a column that are not missing. *)
Fixpoint present (l : list (option string)) : list string :=
  match l with
  | [] => []
  | Some s :: t => s :: present t
  | None :: t => present t
  end.

Definition has_key (a : string) (r : work_row) : bool :=
  match w_airline r with
  | Some b => String.eqb b a
  | None => false
  end.

(** The group of airline [a]: a row whose airline is missing is in no
    group ([groupby] drops the missing keys). *)
Definition group (a : string) (work : list work_row) : list work_row :=
  filter (has_key a) work.

Definition Qnat (n : nat) : Q := inject_Z (Z.of_nat n).

(** [("new_gen", "mean")] *)
Definition mean (l : list nat) : Q :=
  (Qnat (list_sum l) / Qnat (List.length l))%Q.

(** One row of [agg] with its indices, for the group of airline [a]. *)
Definition agg_of_group (a : string) (g : list work_row) : agg_row :=
  let fleet_size := List.length g in
  let share := mean (map w_new_gen g) in
  let v0 := share in
  {| airline := a;
     fleet_size := fleet_size;
     models_diversity := List.length (unique (present (map w_model g)));
     new_gen_share := share;
     indice_modernite_v0 := v0;
     low_fleet_flag := if fleet_size <? MIN_FLEET then 1 else 0;
     indice_public := if MIN_FLEET <=? fleet_size then Fin v0 else NaN;
     indice_penalise :=
       (v0 * qmin 1 (Qnat fleet_size / Qnat MIN_FLEET))%Q |}.

(** [work.groupby("airline").agg(...)]: one row per airline that is not
    missing, the keys in sorted order; [size] counts the rows of the
    group, [nunique] the distinct models that are not missing. *)
Definition agg (work : list work_row) : list agg_row :=
  map (fun a => agg_of_group a (group a work))
      (sort (unique (present (map w_airline work)))).

Definition features (raw : list raw_row) : list agg_row :=
  agg (map work_of raw).

End WithUnicode.

(** *** The choice of the columns *)

Definition MODEL_COL_CANDIDATES : list string :=
  [ "detailed_aircraft_type"; "aircraft_type" ].

Definition AIRLINE_COL_CANDIDATES : list string :=
  [ "airline_name"; "airline"; "carrier"; "company"; "operator" ].

Fixpoint choose_first_present (cols candidates : list string)
  : option string :=
  match candidates with
  | [] => None
  | c :: t => if mem c cols then Some c else choose_first_present cols t
  end.

(** The airline column and the model column that [main] reads; [None] is
    one of its two RuntimeErrors. *)
Definition choose_columns (cols : list string) : option (string * string) :=
  match choose_first_present cols AIRLINE_COL_CANDIDATES,
        choose_first_present cols MODEL_COL_CANDIDATES with
  | Some airline_col, Some model_col => Some (airline_col, model_col)
  | _, _ => None
  end.

(** *** The ranking of indice_modernite_v0.xlsx *)

(** The order of [sort_values(["indice_public", "indice_modernite_v0"],
    ascending=False, na_position="last")]: the rows with an
    indice_public, by decreasing indice_public and then by decreasing
    indice_modernite_v0, and after them the rows without one, by
    decreasing indice_modernite_v0. *)
Definition ranks_before (x y : agg_row) : bool :=
  let by_v0 := Qle_bool (indice_modernite_v0 y) (indice_modernite_v0 x) in
  match isna (indice_public x), isna (indice_public y) with
  | true, true => by_v0
  | true, false => false
  | false, true => true
  | false, false =>
      if fle (indice_public y) (indice_public x)
      then if fle (indice_public x) (indice_public y) then by_v0 else true
      else false
  end.

(** The sort on several columns is stable: rows that compare equal stay
    in the order of [agg]. *)
Definition agg_sorted (agg : list agg_row) : list agg_row :=
  sort_by ranks_before agg.

End Air1.

(* ------------------------------------------------------------------ *)
(** ** build_features.py *)

Module BuildFeatures.

Import Frame Text Num Classifier.
Local Open Scope string_scope.
Local Open Scope nat_scope.

Definition MIN_FLEET : Q := 5.

Definition Qnat (n : nat) : Q := inject_Z (Z.of_nat n).

(** [norm_name]; [None] is a missing value, which [str] spells "nan". *)
Definition norm_name (v : option string) : string :=
  upper (strip (match v with Some s => s | None => "nan" end)).

(** A cell of an object column: [pd.NA] or a number. *)
Inductive ocell : Type :=
| NA
| Val (c : cell).

(** [Series.replace(0, pd.NA)]: a float column cannot hold [pd.NA], so
    the column that has a zero becomes an object column. *)
Definition replace_zero_na (c : cell) : ocell :=
  match c with
  | Fin q => if Qeq_bool q 0 then NA else Val c
  | _ => Val c
  end.

(** [num / den] with an object denominator: [pd.NA] propagates. *)
Definition div_na (num : cell) (den : ocell) : ocell :=
  match den with
  | NA => NA
  | Val d => Val (div num d)
  end.

(** [astype(float)]: the cast of an object column calls [float] on each
    of its objects, and [float(pd.NA)] is a TypeError. *)
Definition astype_float (c : ocell) : option cell :=
  match c with
  | NA => None
  | Val c => Some c
  end.

(** [None] is the TypeError of the cast. *)
Definition ratio (num den : cell) : option cell :=
  let num := fillna 0 num in
  let den := replace_zero_na den in
  r <- astype_float (div_na num den) ;;
  Some (clip 0 1 (fillna 0 r)).

(** *** The raw sheet: airline cell, model cell *)

Definition raw_row : Type := (option string * option string)%type.

Definition airline_norm (r : raw_row) : string := norm_name (fst r).

(** The non-null models observed for the airline key [a], one entry per
    raw row. *)
Fixpoint models_of (a : string) (raw : list raw_row) : list string :=
  match raw with
  | [] => []
  | r :: t =>
      match snd r with
      | Some m =>
          if String.eqb (airline_norm r) a then m :: models_of a t
          else models_of a t
      | None => models_of a t
      end
  end.

(** [groupby("airline_norm")[MODEL_COL].nunique()]: the keys are those of
    every raw row and the nulls are not counted. *)
Definition n_models_keys (raw : list raw_row) : list string :=
  sort (unique (map airline_norm raw)).

Definition nunique_models (a : string) (raw : list raw_row) : nat :=
  List.length (unique (models_of a raw)).

(** [raw[["airline_norm", MODEL_COL]].dropna().drop_duplicates()] *)
Definition pair_eqb (x y : string * string) : bool :=
  String.eqb (fst x) (fst y) && String.eqb (snd x) (snd y).

Fixpoint dropna_pairs (raw : list raw_row) : list (string * string) :=
  match raw with
  | [] => []
  | r :: t =>
      match snd r with
      | Some m => (airline_norm r, m) :: dropna_pairs t
      | None => dropna_pairs t
      end
  end.

Definition models_by_airline (raw : list raw_row) : list (string * string) :=
  dedup_by pair_eqb [] (dropna_pairs raw).

Definition models_tagged (raw : list raw_row) : list (string * tags) :=
  map (fun p => (fst p, tag_family (snd p))) (models_by_airline raw).

(** The sum of one boolean tag column over the group of key [a]. *)
Definition count_tag (flag : tags -> bool) (a : string)
  (tagged : list (string * tags)) : nat :=
  List.length
    (filter (fun p => String.eqb (fst p) a && flag (snd p)) tagged).

Record counts_row : Type := mk_counts {
  c_n_models : cell;
  c_n_a220 : cell;
  c_n_787 : cell;
  c_n_a350 : cell;
  c_n_a330neo : cell;
  c_n_neo : cell;
  c_n_max : cell
}.

(** The row of [n_models] (after its merge with [counts] and
    [fillna(0)]) for the key [a], if [a] is one of its keys. *)
Definition n_models_row (raw : list raw_row) (a : string)
  : option counts_row :=
  if mem a (n_models_keys raw) then
    let tg := models_tagged raw in
    let n flag := Fin (Qnat (count_tag flag a tg)) in
    Some {| c_n_models := Fin (Qnat (nunique_models a raw));
            c_n_a220 := n is_a220;
            c_n_787 := n is_787;
            c_n_a350 := n is_a350;
            c_n_a330neo := n is_a330neo;
            c_n_neo := n is_neo;
            c_n_max := n is_max |}
  else None.

(** *** The aggregated sheet

    One row per airline; an optional field is [None] when the sheet has
    no such column. *)
Record agg_row : Type := mk_agg {
  a_airline : string;
  a_fleet_size : cell;
  a_new_gen_share : option cell;
  a_indice_modernite_v0 : option cell;
  a_indice_public : option cell;
  a_indice_penalise : option cell
}.

Record feature_row : Type := mk_feature {
  airline : string;
  fleet_size : cell;
  n_models : cell;
  diversity : cell;
  new_gen_share : cell;
  indice_modernite_v0 : cell;
  indice_public : cell;
  indice_penalise : cell;
  n_a220 : cell;
  n_787 : cell;
  n_a350 : cell;
  n_a330neo : cell;
  n_neo : cell;
  n_max : cell;
  pct_a220 : cell;
  pct_787 : cell;
  pct_a350 : cell;
  pct_a330neo : cell;
  pct_neo : cell;
  pct_max : cell;
  pct_newgen_narrow : cell;
  pct_newgen_wide : cell
}.

(** The fleet is missing or below [MIN_FLEET]. *)
Definition small_fleet (fleet_size : cell) : bool :=
  isna fleet_size || lt fleet_size MIN_FLEET.

(** A column of the final frame: created as 0 when it is missing, and its
    nulls filled with 0. *)
Definition final (c : option cell) : cell :=
  fillna 0 (match c with Some c => c | None => Fin 0 end).

(** One row of the frame [out] before the final deduplication; [None]
    when a [ratio] raises. *)
Definition feature_of (raw : list raw_row) (r : agg_row)
  : option feature_row :=
  (* new_gen_share is taken from indice_modernite_v0 when it is absent *)
  let share :=
    match a_new_gen_share r with
    | Some s => Some s
    | None => a_indice_modernite_v0 r
    end in
  (* left merge with n_models on the normalised name *)
  let joined := n_models_row raw (norm_name (Some (a_airline r))) in
  let col (f : counts_row -> cell) : cell :=
    match joined with Some c => f c | None => NaN end in
  let fleet_size := a_fleet_size r in
  let n_models := fillna 0 (col c_n_models) in
  diversity <- ratio n_models fleet_size ;;
  let v0 :=
    match share with
    | Some s => Some s
    | None => a_indice_modernite_v0 r
    end in
  let public :=
    match share with
    | Some s => Some (if small_fleet fleet_size then Fin 0 else s)
    | None => a_indice_public r
    end in
  let penalise :=
    match share with
    | Some s =>
        Some (if small_fleet fleet_size then mul s (Fin 0.8) else s)
    | None => a_indice_penalise r
    end in
  let n_a220 := fillna 0 (col c_n_a220) in
  let n_787 := fillna 0 (col c_n_787) in
  let n_a350 := fillna 0 (col c_n_a350) in
  let n_a330neo := fillna 0 (col c_n_a330neo) in
  let n_neo := fillna 0 (col c_n_neo) in
  let n_max := fillna 0 (col c_n_max) in
  pct_a220 <- ratio n_a220 fleet_size ;;
  pct_787 <- ratio n_787 fleet_size ;;
  pct_a350 <- ratio n_a350 fleet_size ;;
  pct_a330neo <- ratio n_a330neo fleet_size ;;
  pct_neo <- ratio n_neo fleet_size ;;
  pct_max <- ratio n_max fleet_size ;;
  let narrow := clip 0 1 (add (add pct_neo pct_max) pct_a220) in
  let wide := clip 0 1 (add (add pct_787 pct_a350) pct_a330neo) in
  Some {| airline := a_airline r;
          fleet_size := fillna 0 fleet_size;
          n_models := fillna 0 n_models;
          diversity := fillna 0 diversity;
          new_gen_share := final share;
          indice_modernite_v0 := final v0;
          indice_public := final public;
          indice_penalise := final penalise;
          n_a220 := fillna 0 n_a220;
          n_787 := fillna 0 n_787;
          n_a350 := fillna 0 n_a350;
          n_a330neo := fillna 0 n_a330neo;
          n_neo := fillna 0 n_neo;
          n_max := fillna 0 n_max;
          pct_a220 := fillna 0 pct_a220;
          pct_787 := fillna 0 pct_787;
          pct_a350 := fillna 0 pct_a350;
          pct_a330neo := fillna 0 pct_a330neo;
          pct_neo := fillna 0 pct_neo;
          pct_max := fillna 0 pct_max;
          pct_newgen_narrow := fillna 0 narrow;
          pct_newgen_wide := fillna 0 wide |}.

(** The exported table: [drop_duplicates(subset=["airline"],
    keep="first")] over the rows of the aggregated sheet; [None] when the
    script has stopped on the TypeError of a [ratio]. *)
Definition build_features (agg : list agg_row) (raw : list raw_row)
  : option (list feature_row) :=
  out <- sequence (map (feature_of raw) agg) ;;
  Some (dedup_by (fun x y => String.eqb (airline x) (airline y)) [] out).


(** *** The mini validator *)

(** [Series.duplicated()]: the value has been met in an earlier row. *)
Fixpoint duplicated (seen : list string) (l : list string) : list bool :=
  match l with
  | [] => []
  | x :: t => mem x seen :: duplicated (x :: seen) t
  end.

Definition count_true (l : list bool) : nat :=
  List.length (filter (fun b => b) l).

(** [agg["airline"].duplicated().sum()] *)
Definition dup_agg (agg : list agg_row) : nat :=
  count_true (duplicated [] (map a_airline agg)).

(** [(out["n_models"] == 0).sum()] *)
Definition zero_models (out : list feature_row) : nat :=
  List.length (filter (fun r => feq (n_models r) (Fin 0)) out).

(** [(out["indice_modernite_v0"] != out["new_gen_share"]).sum()]; the
    frame always has a new_gen_share column by then. *)
Definition neq_v0_ngs (out : list feature_row) : nat :=
  List.length
    (filter (fun r => negb (feq (indice_modernite_v0 r) (new_gen_share r)))
            out).

End BuildFeatures.

(* ------------------------------------------------------------------ *)
(** ** air9_compute_scores.py *)

Module Scorer.

Import Frame Text Num.
Local Open Scope string_scope.
Local Open Scope nat_scope.

Definition MIN_FLEET : Q := 5.

Definition norm_name (s : string) : string := upper (strip s).

(** [to_prop]: a value above 1 is read as a percentage. *)
Definition to_prop (s : cell) : cell :=
  let s := if gt s 1 then div s (Fin 100) else s in
  clip 0 1 (fillna 0 s).

(** One row of features_by_airline.csv; a field is [None] when the file
    has no such column. *)
Record feat_row : Type := mk_feat {
  f_airline : string;
  f_fleet_size : option cell;
  f_diversity : option cell;
  f_n_models : option cell;
  f_pct_neo : option cell;
  f_pct_max : option cell;
  f_pct_a220 : option cell;
  f_pct_787 : option cell;
  f_pct_a350 : option cell;
  f_pct_a330neo : option cell;
  f_pct_newgen_narrow : option cell;
  f_pct_newgen_wide : option cell
}.

Record score_row : Type := mk_score {
  airline : string;
  fleet_size : cell;
  diversity : cell;
  modernity_index : cell;
  version_v1 : string;
  qa_notes : string
}.

(** *** Completion of [fleet_size] from the AIR3 sheet *)

(** ["fleet_size" not in feat.columns or feat["fleet_size"].isna().any()] *)
Definition fleet_size_incomplete (feat : list feat_row) : bool :=
  existsb (fun r => match f_fleet_size r with
                    | None => true
                    | Some c => isna c
                    end) feat.

(** The left merge on the normalised name, suffixes ("", "_air3"): a row
    is repeated for each row of [air3] with its key; a [fleet_size]
    already in [feat] keeps its name and its values, and no column named
    [fleet_size_x] arises, so nothing is filled in. *)
Definition merge_air3 (air3 : list (string * cell)) (r : feat_row)
  : list (feat_row * cell) :=
  let key := norm_name (f_airline r) in
  let hits := filter (fun a => String.eqb (norm_name (fst a)) key) air3 in
  match f_fleet_size r with
  | Some c =>
      match hits with
      | [] => [(r, c)]
      | _ => map (fun _ => (r, c)) hits
      end
  | None =>
      match hits with
      | [] => [(r, NaN)]
      | _ => map (fun a => (r, snd a)) hits
      end
  end.

(** The rows of [feat], each with its [fleet_size] before [fillna]. *)
Definition complete_fleet_size (air3 : option (list (string * cell)))
  (feat : list feat_row) : list (feat_row * cell) :=
  let keep r :=
    (r, match f_fleet_size r with Some c => c | None => Fin 0 end) in
  if fleet_size_incomplete feat then
    match air3 with
    | Some air3 => flat_map (merge_air3 air3) feat
    | None => map keep feat
    end
  else map keep feat.

(** *** One row *)

(** [Series.replace([float("inf")], 0)] *)
Definition replace_inf (c : cell) : cell :=
  match c with PInf => Fin 0 | _ => c end.

Definition or_zero (c : option cell) : cell :=
  match c with Some c => c | None => Fin 0 end.

(** The proportions that enter the index, after [to_prop]. *)
Record components : Type := mk_components {
  pct_newgen_narrow : cell;
  pct_newgen_wide : cell;
  pct_a220 : cell
}.

Definition components_of (r : feat_row) : components :=
  match f_pct_newgen_narrow r, f_pct_newgen_wide r with
  | Some narrow, Some wide =>
      {| pct_newgen_narrow := to_prop narrow;
         pct_newgen_wide := to_prop wide;
         pct_a220 := to_prop (or_zero (f_pct_a220 r)) |}
  | _, _ =>
      let unit c := to_prop (or_zero c) in
      let pct_neo := unit (f_pct_neo r) in
      let pct_max := unit (f_pct_max r) in
      let pct_a220 := unit (f_pct_a220 r) in
      let pct_787 := unit (f_pct_787 r) in
      let pct_a350 := unit (f_pct_a350 r) in
      let pct_a330neo := unit (f_pct_a330neo r) in
      {| pct_newgen_narrow :=
           clip 0 1 (add (add pct_neo pct_max) pct_a220);
         pct_newgen_wide :=
           clip 0 1 (add (add pct_787 pct_a350) pct_a330neo);
         pct_a220 := to_prop pct_a220 |}
  end.

Definition weighted_sum (narrow wide a220 : cell) : cell :=
  add (add (mul (Fin 0.4) narrow) (mul (Fin 0.4) wide))
      (mul (Fin 0.2) a220).

Definition modernity_of (c : components) : cell :=
  clip 0 1 (weighted_sum (fillna 0 (pct_newgen_narrow c))
                         (fillna 0 (pct_newgen_wide c))
                         (fillna 0 (pct_a220 c))).

Definition qa_of (fleet_size : cell) (c : components) : string :=
  let qa := "" in
  let small := lt fleet_size MIN_FLEET in
  let qa := if small then strip_char ";" (qa ++ ";fleet_too_small")
            else qa in
  let missing_components :=
    isna (pct_newgen_narrow c) || isna (pct_newgen_wide c)
    || isna (pct_a220 c) in
  let qa := if missing_components
            then strip_char ";" (qa ++ ";missing_component")
            else qa in
  qa.

(** The recomputed diversity; [None] when neither [diversity] nor
    [n_models] is a column: [to_num] then returns the scalar 0, which has
    no [fillna], and the script stops on the error. *)
Definition diversity_of (fleet_size : cell) (r : feat_row) : option cell :=
  match f_diversity r with
  | Some d => Some (to_prop d)
  | None =>
      match f_n_models r with
      | Some n =>
          let n_models := fillna 0 n in
          Some (clip 0 1 (fillna 0 (replace_inf (div n_models fleet_size))))
      | None => None
      end
  end.

(** One output row from a row of [feat] and its completed fleet size. *)
Definition score_row_of (r : feat_row) (fs : cell) : option score_row :=
  let fleet_size := fillna 0 fs in
  match diversity_of fleet_size r with
  | None => None
  | Some diversity =>
      let c := components_of r in
      Some {| airline := f_airline r;
              fleet_size := fleet_size;
              diversity := diversity;
              modernity_index := modernity_of c;
              version_v1 := "v1";
              qa_notes := qa_of fleet_size c |}
  end.

(** airline_scores.csv, or [None] when the script stops on an error. *)
Definition compute_scores (air3 : option (list (string * cell)))
  (feat : list feat_row) : option (list score_row) :=
  sequence (map (fun p => score_row_of (fst p) (snd p))
                (complete_fleet_size air3 feat)).

(** The segments of a note string. *)
Definition notes (qa : string) : list string := split_on ";" qa.

(** features_by_airline.csv as written by build_features.py. *)
Definition of_feature (r : BuildFeatures.feature_row) : feat_row :=
  {| f_airline := BuildFeatures.airline r;
     f_fleet_size := Some (BuildFeatures.fleet_size r);
     f_diversity := Some (BuildFeatures.diversity r);
     f_n_models := Some (BuildFeatures.n_models r);
     f_pct_neo := Some (BuildFeatures.pct_neo r);
     f_pct_max := Some (BuildFeatures.pct_max r);
     f_pct_a220 := Some (BuildFeatures.pct_a220 r);
     f_pct_787 := Some (BuildFeatures.pct_787 r);
     f_pct_a350 := Some (BuildFeatures.pct_a350 r);
     f_pct_a330neo := Some (BuildFeatures.pct_a330neo r);
     f_pct_newgen_narrow := Some (BuildFeatures.pct_newgen_narrow r);
     f_pct_newgen_wide := Some (BuildFeatures.pct_newgen_wide r) |}.

End Scorer.

(* ------------------------------------------------------------------ *)
(** ** air13_build_country_mapping.py *)

Module CountryMap.

Import Frame Text.
Local Open Scope string_scope.

(** *** country -> ISO alpha-2 code *)

Definition MANUAL_ALPHA2 : list (string * string) :=
  [ ("Afghanistan", "AF");
    ("Afrique du Sud", "ZA");
    ("Albanie", "AL");
    ("Algérie", "DZ");
    ("Allemagne", "DE");
    ("Angola", "AO");
    ("Anguilla", "AI");
    ("Antigua-et-Barbuda", "AG");
    ("Arabie saoudite", "SA");
    ("Argentine", "AR");
    ("Arménie", "AM");
    ("Aruba", "AW");
    ("Autriche", "AT");
    ("Azerbaïdjan", "AZ");
    ("Bahamas", "BS");
    ("Bahreïn", "BH");
    ("Bangladesh", "BD");
    ("Belgique", "BE");
    ("Belize", "BZ");
    ("Bermudes", "BM");
    ("Bhoutan", "BT");
    ("Birmanie", "MM");
    ("Biélorussie", "BY");
    ("Bolivie", "BO");
    ("Bosnie-Herzégovine", "BA");
    ("Botswana", "BW");
    ("Brunei", "BN");
    ("Brésil", "BR");
    ("Bulgarie", "BG");
    ("Burkina Faso", "BF");
    ("Bénin", "BJ");
    ("Cambodge", "KH");
    ("Cameroun", "CM");
    ("Canada", "CA");
    ("Cap-Vert", "CV");
    ("Chili", "CL");
    ("Chypre", "CY");
    ("Colombie", "CO");
    ("Corée du Nord", "KP");
    ("Corée du Sud", "KR");
    ("Costa Rica", "CR");
    ("Croatie", "HR");
    ("Côte d'Ivoire", "CI");
    ("Espagne", "ES");
    ("Estonie", "EE");
    ("Eswatini", "SZ");
    ("Fidji", "FJ");
    ("Finlande", "FI");
    ("France", "FR");
    ("Gabon", "GA");
    ("Gambie", "GM");
    ("Ghana", "GH");
    ("Grèce", "GR");
    ("Guatemala", "GT");
    ("Guernesey", "GG");
    ("Guinée équatoriale", "GQ");
    ("Guyana", "GY");
    ("Géorgie", "GE");
    ("Honduras", "HN");
    ("Hong Kong", "HK");
    ("Hongrie", "HU");
    ("Inde", "IN");
    ("Irak", "IQ");
    ("Iran", "IR");
    ("Irlande", "IE");
    ("Islande", "IS");
    ("Italie", "IT");
    ("Japon", "JP");
    ("Jordanie", "JO");
    ("Kazakhstan", "KZ");
    ("Kenya", "KE");
    ("Kirghizistan", "KG");
    ("Kiribati", "KI");
    ("Koweït", "KW");
    ("Laos", "LA");
    ("Lettonie", "LV");
    ("Liban", "LB");
    ("Libye", "LY");
    ("Lituanie", "LT");
    ("Luxembourg", "LU");
    ("Macao", "MO");
    ("Madagascar", "MG");
    ("Malaisie", "MY");
    ("Malawi", "MW");
    ("Maldives", "MV");
    ("Mali", "ML");
    ("Malte", "MT");
    ("Maurice", "MU");
    ("Mauritanie", "MR");
    ("Mexique", "MX");
    ("Moldavie", "MD");
    ("Monaco", "MC");
    ("Monténégro", "ME");
    ("Mozambique", "MZ");
    ("Namibie", "NA");
    ("Nicaragua", "NI");
    ("Nigeria", "NG");
    ("Nouvelle-Zélande", "NZ");
    ("Népal", "NP");
    ("Oman", "OM");
    ("Ouganda", "UG");
    ("Ouzbékistan", "UZ");
    ("Pakistan", "PK");
    ("Panama", "PA");
    ("Papouasie-Nouvelle-Guinée", "PG");
    ("Paraguay", "PY");
    ("Pays-Bas", "NL");
    ("Pologne", "PL");
    ("Polynésie française", "PF");
    ("Porto Rico", "PR");
    ("Portugal", "PT");
    ("Pérou", "PE");
    ("Qatar", "QA");
    ("Roumanie", "RO");
    ("Russie", "RU");
    ("Rwanda", "RW");
    ("République centrafricaine", "CF");
    ("République dominicaine", "DO");
    ("République du Congo", "CG");
    ("République démocratique du Congo", "CD");
    ("République tchèque", "CZ");
    ("Saint-Marin", "SM");
    ("Saint-Vincent-et-les-Grenadines", "VC");
    ("Samoa", "WS");
    ("Serbie", "RS");
    ("Seychelles", "SC");
    ("Singapour", "SG");
    ("Slovaquie", "SK");
    ("Slovénie", "SI");
    ("Somalie", "SO");
    ("Soudan", "SD");
    ("Sri Lanka", "LK");
    ("Suisse", "CH");
    ("Suriname", "SR");
    ("Suède", "SE");
    ("Svalbard et ile Jan Mayen", "SJ");
    ("Syrie", "SY");
    ("Sénégal", "SN");
    ("Tadjikistan", "TJ");
    ("Tanzanie", "TZ");
    ("Taïwan", "TW");
    ("Territoire britannique de l'océan Indien", "IO");
    ("Thaïlande", "TH");
    ("Timor oriental", "TL");
    ("Togo", "TG");
    ("Tonga", "TO");
    ("Trinité-et-Tobago", "TT");
    ("Tunisie", "TN");
    ("Turkménistan", "TM");
    ("Turquie", "TR");
    ("Ukraine", "UA");
    ("Uruguay", "UY");
    ("Vanuatu", "VU");
    ("Venezuela", "VE");
    ("Vietnam", "VN");
    ("Yémen", "YE");
    ("Zambie", "ZM");
    ("Zimbabwe", "ZW");
    ("Égypte", "EG");
    ("Émirats arabes unis", "AE");
    ("Équateur", "EC");
    ("Éthiopie", "ET");
    ("Île de Man", "IM");
    ("Îles Caïmans", "KY");
    ("Îles Cocos", "CC");
    ("Îles Féroé", "FO");
    ("Îles Salomon", "SB");
    ("Îles Turques-et-Caïques", "TC") ].

(** *** country -> region *)

Definition MANUAL_REGION : list (string * string) :=
  [ ("Afghanistan", "Asia");
    ("Afrique du Sud", "Africa");
    ("Albanie", "Europe");
    ("Algérie", "Africa");
    ("Allemagne", "Europe");
    ("Angola", "Africa");
    ("Anguilla", "Caribbean");
    ("Antigua-et-Barbuda", "Caribbean");
    ("Arabie saoudite", "Middle East");
    ("Argentine", "South America");
    ("Arménie", "Asia");
    ("Aruba", "Caribbean");
    ("Autriche", "Europe");
    ("Azerbaïdjan", "Asia");
    ("Bahamas", "Caribbean");
    ("Bahreïn", "Middle East");
    ("Bangladesh", "Asia");
    ("Belgique", "Europe");
    ("Belize", "North America");
    ("Bermudes", "North America");
    ("Bhoutan", "Asia");
    ("Birmanie", "Asia");
    ("Biélorussie", "Europe");
    ("Bolivie", "South America");
    ("Bosnie-Herzégovine", "Europe");
    ("Botswana", "Africa");
    ("Brunei", "Asia");
    ("Brésil", "South America");
    ("Bulgarie", "Europe");
    ("Burkina Faso", "Africa");
    ("Bénin", "Africa");
    ("Cambodge", "Asia");
    ("Cameroun", "Africa");
    ("Canada", "North America");
    ("Cap-Vert", "Africa");
    ("Chili", "South America");
    ("Chypre", "Europe");
    ("Colombie", "South America");
    ("Corée du Nord", "Asia");
    ("Corée du Sud", "Asia");
    ("Costa Rica", "North America");
    ("Croatie", "Europe");
    ("Côte d'Ivoire", "Africa");
    ("Espagne", "Europe");
    ("Estonie", "Europe");
    ("Eswatini", "Africa");
    ("Fidji", "Oceania");
    ("Finlande", "Europe");
    ("France", "Europe");
    ("Gabon", "Africa");
    ("Gambie", "Africa");
    ("Ghana", "Africa");
    ("Grèce", "Europe");
    ("Guatemala", "North America");
    ("Guernesey", "Europe");
    ("Guinée équatoriale", "Africa");
    ("Guyana", "South America");
    ("Géorgie", "Asia");
    ("Honduras", "North America");
    ("Hong Kong", "Asia");
    ("Hongrie", "Europe");
    ("Inde", "Asia");
    ("Irak", "Middle East");
    ("Iran", "Middle East");
    ("Irlande", "Europe");
    ("Islande", "Europe");
    ("Italie", "Europe");
    ("Japon", "Asia");
    ("Jordanie", "Middle East");
    ("Kazakhstan", "Asia");
    ("Kenya", "Africa");
    ("Kirghizistan", "Asia");
    ("Kiribati", "Oceania");
    ("Koweït", "Middle East");
    ("Laos", "Asia");
    ("Lettonie", "Europe");
    ("Liban", "Middle East");
    ("Libye", "Africa");
    ("Lituanie", "Europe");
    ("Luxembourg", "Europe");
    ("Macao", "Asia");
    ("Madagascar", "Africa");
    ("Malaisie", "Asia");
    ("Malawi", "Africa");
    ("Maldives", "Asia");
    ("Mali", "Africa");
    ("Malte", "Europe");
    ("Maurice", "Africa");
    ("Mauritanie", "Africa");
    ("Mexique", "North America");
    ("Moldavie", "Europe");
    ("Monaco", "Europe");
    ("Monténégro", "Europe");
    ("Mozambique", "Africa");
    ("Namibie", "Africa");
    ("Nicaragua", "North America");
    ("Nigeria", "Africa");
    ("Nouvelle-Zélande", "Oceania");
    ("Népal", "Asia");
    ("Oman", "Middle East");
    ("Ouganda", "Africa");
    ("Ouzbékistan", "Asia");
    ("Pakistan", "Asia");
    ("Panama", "North America");
    ("Papouasie-Nouvelle-Guinée", "Oceania");
    ("Paraguay", "South America");
    ("Pays-Bas", "Europe");
    ("Pologne", "Europe");
    ("Polynésie française", "Oceania");
    ("Porto Rico", "Caribbean");
    ("Portugal", "Europe");
    ("Pérou", "South America");
    ("Qatar", "Middle East");
    ("Roumanie", "Europe");
    ("Russie", "Europe");
    ("Rwanda", "Africa");
    ("République centrafricaine", "Africa");
    ("République dominicaine", "Caribbean");
    ("République du Congo", "Africa");
    ("République démocratique du Congo", "Africa");
    ("République tchèque", "Europe");
    ("Saint-Marin", "Europe");
    ("Saint-Vincent-et-les-Grenadines", "Caribbean");
    ("Samoa", "Oceania");
    ("Serbie", "Europe");
    ("Seychelles", "Africa");
    ("Singapour", "Asia");
    ("Slovaquie", "Europe");
    ("Slovénie", "Europe");
    ("Somalie", "Africa");
    ("Soudan", "Africa");
    ("Sri Lanka", "Asia");
    ("Suisse", "Europe");
    ("Suriname", "South America");
    ("Suède", "Europe");
    ("Svalbard et ile Jan Mayen", "Europe");
    ("Syrie", "Middle East");
    ("Sénégal", "Africa");
    ("Tadjikistan", "Asia");
    ("Tanzanie", "Africa");
    ("Taïwan", "Asia");
    ("Territoire britannique de l'océan Indien", "Asia");
    ("Thaïlande", "Asia");
    ("Timor oriental", "Asia");
    ("Togo", "Africa");
    ("Tonga", "Oceania");
    ("Trinité-et-Tobago", "Caribbean");
    ("Tunisie", "Africa");
    ("Turkménistan", "Asia");
    ("Turquie", "Middle East");
    ("Ukraine", "Europe");
    ("Uruguay", "South America");
    ("Vanuatu", "Oceania");
    ("Venezuela", "South America");
    ("Vietnam", "Asia");
    ("Yémen", "Middle East");
    ("Zambie", "Africa");
    ("Zimbabwe", "Africa");
    ("Égypte", "Africa");
    ("Émirats arabes unis", "Middle East");
    ("Équateur", "South America");
    ("Éthiopie", "Africa");
    ("Île de Man", "Europe");
    ("Îles Caïmans", "Caribbean");
    ("Îles Cocos", "Asia");
    ("Îles Féroé", "Europe");
    ("Îles Salomon", "Oceania");
    ("Îles Turques-et-Caïques", "Caribbean") ].

(** [d[k]] / [k in d] for a dictionary literal. *)
Fixpoint lookup (k : string) (d : list (string * string)) : option string :=
  match d with
  | [] => None
  | (k', v) :: t => if String.eqb k k' then Some v else lookup k t
  end.

(** One row of country_region_mapping.csv, read with [dtype=str] and
    [fillna("")]. *)
Record map_row : Type := mk_row {
  country : string;
  country_code : string;
  region : string
}.

Section WithLibraries.

(** [pycountry.countries.search_fuzzy(name)[0].alpha_2], [None] for a
    [LookupError]; the outer [None] is the library not being
    installed. *)
Variable pycountry : option (string -> option string).

(** [translator.translate(name, src="fr", dest="en").text], [None] for
    an exception or an absent text; the outer [None] is googletrans not
    being installed.  A country is translated at most once in a run, so
    the cache is never hit. *)
Variable translator : option (string -> option string).

Definition translate_country_to_english (country : string) : string :=
  let country := strip country in
  match translator with
  | None => ""
  | Some translate =>
      if nonempty country then
        match translate country with
        | Some text => strip text
        | None => ""
        end
      else ""
  end.

Definition guess_iso_code (country : string) : string :=
  let country := strip country in
  if negb (nonempty country) then ""
  else
    match lookup country MANUAL_ALPHA2 with
    | Some code => code
    | None =>
        let direct :=
          match pycountry with
          | Some search => search country
          | None => None
          end in
        match direct with
        | Some code => code
        | None =>
            match translator, pycountry with
            | Some _, Some search =>
                let country_en := translate_country_to_english country in
                if nonempty country_en then
                  match search country_en with
                  | Some code => code
                  | None => ""
                  end
                else ""
            | _, _ => ""
            end
        end
    end.

(** The sorted list of the distinct countries of the raw sheet. *)
Fixpoint dropna (l : list (option string)) : list string :=
  match l with
  | [] => []
  | Some s :: t => s :: dropna t
  | None :: t => dropna t
  end.

Definition countries_of (raw : list (option string)) : list string :=
  unique (sort (map strip (dropna raw))).

(** The previous file, its [country] column stripped. *)
Definition load_old (file : list map_row) : list map_row :=
  map (fun r => {| country := strip (country r);
                   country_code := country_code r;
                   region := region r |}) file.

(** The row of label [c]; the countries of the previous file are taken
    to be distinct. *)
Fixpoint find_row (c : string) (old : list map_row) : option map_row :=
  match old with
  | [] => None
  | r :: t => if String.eqb (country r) c then Some r else find_row c t
  end.

(** Step 3: one row per country, with the values already entered. *)
Definition carry_over (mapping_old : option (list map_row)) (c : string)
  : map_row :=
  let country := strip c in
  match mapping_old with
  | Some old =>
      match find_row country old with
      | Some r => {| country := country;
                     country_code := country_code r;
                     region := region r |}
      | None => {| country := country; country_code := ""; region := "" |}
      end
  | None => {| country := country; country_code := ""; region := "" |}
  end.

(** Step 3bis: a blank region or code is filled in. *)
Definition auto_fill (row : map_row) : map_row :=
  let country := country row in
  let region' :=
    if negb (nonempty (strip (region row))) then
      match lookup country MANUAL_REGION with
      | Some r => r
      | None => region row
      end
    else region row in
  let code' :=
    if negb (nonempty (strip (country_code row))) then
      let code := guess_iso_code country in
      if nonempty code then code else country_code row
    else country_code row in
  {| country := country; country_code := code'; region := region' |}.

(** [main]: the file that one run writes, from the [country] column of
    the raw sheet and the previous file, if there is one. *)
Definition main (raw : list (option string))
  (file : option (list map_row)) : list map_row :=
  let countries := countries_of raw in
  let mapping_old := option_map load_old file in
  let mapping_new := map (carry_over mapping_old) countries in
  map auto_fill mapping_new.

End WithLibraries.

End CountryMap.

(* ------------------------------------------------------------------ *)
(** ** air14_region_summary.py *)

Module Region.

Import Frame Text Num Unicode.
Local Open Scope string_scope.
Local Open Scope nat_scope.

Definition STOP_WORDS_FR : list string :=
  [ "ETAT"; "ETATS"; "UNIS"; "ETATSUNIS";
    "ARABE"; "ARABES";
    "EMIRAT"; "EMIRATS";
    "REPUBLIQUE"; "ROYAUME";
    "UNION"; "FEDERALE"; "FEDERAL";
    "DU"; "DE"; "DES"; "LA"; "LE"; "LES"; "D"; "L";
    "SAINT"; "SAINTE" ].

Definition MANUAL_COUNTRY_RAW : list (string * string) :=
  [ ("SALAMAIR", "Oman");
    ("CEBU PACIFIC", "Philippines");
    ("ROYAL AIR MAROC", "Maroc");
    ("PHILIPPINE AIRLINES", "Philippines");
    ("AERO MONGOLIA", "Mongolie");
    ("AIRSWIFT", "Philippines");
    ("AUSTRIA - AIR FORCE", "Autriche");
    ("BRAZIL - ARMY", "Brésil");
    ("CZECHIA - AIR FORCE", "République tchèque");
    ("EADS CASA", "Espagne");
    ("MAVI GAK AIRLINES", "Turquie");
    ("MEXICO - NAVY", "Mexique");
    ("RUSSIA - NATIONAL GUARD", "Russie");
    ("SINGAPORE - AIR FORCE", "Singapour");
    ("SPAIN - GUARDIA CIVIL", "Espagne");
    ("TRANSPORTES AAREOS PEGASO", "Mexique");
    ("AERO DILI", "Timor oriental");
    ("BERMUDAIR", "Bermudes");
    ("BH AIR", "Bulgarie");
    ("ESTONIA - AIR FORCE", "Estonie");
    ("FLYERBIL AIRLINE", "Suède");
    ("GREECE - ARMY", "Grèce");
    ("HYDRO-QUABEC", "Canada");
    ("LATVIA - AIR FORCE", "Lettonie");
    ("LIFT", "Afrique du Sud");
    ("MOAAMBIQUE EXPRESSO", "Mozambique");
    ("MONGOLIAN AIRWAYS", "Mongolie");
    ("PERU - NAVY", "Pérou");
    ("POLAND - NAVY", "Pologne");
    ("PRIVATMAIR", "Suisse");
    ("ROYAL STAR AVIATION", "États-Unis");
    ("ROYALAIR PHILIPPINES", "Philippines");
    ("SEAIR INTERNATIONAL", "Philippines");
    ("SERVICIOS AAREOS ILSA", "Mexique");
    ("SKYHIGH DOMINICANA", "République dominicaine");
    ("SKYJET AIRLINES", "Philippines");
    ("SUNLIGHT AIR", "Philippines");
    ("SWITZERLAND - AIR FORCE", "Suisse");
    ("TAR MEXICO", "Mexique");
    ("ZORTE AIR", "Mongolie") ].

Definition EXTRA_REGION : list (string * string) :=
  [ ("Philippines", "Asia");
    ("Maroc", "Africa");
    ("Mongolie", "Asia");
    ("États-Unis", "North America") ].

(** A dictionary built entry by entry: a later entry replaces an earlier
    one of the same key. *)
Fixpoint dict_get (k : string) (d : list (string * string))
  : option string :=
  match d with
  | [] => None
  | (k', v) :: t =>
      match dict_get k t with
      | Some v' => Some v'
      | None => if String.eqb k k' then Some v else None
      end
  end.

Definition opt_eqb (x y : option string) : bool :=
  match x, y with
  | Some a, Some b => String.eqb a b
  | None, None => true
  | _, _ => false
  end.

Definition notna {A : Type} (x : option A) : bool :=
  match x with Some _ => true | None => false end.

(** [Series.fillna(other)] on a column of strings. *)
Definition fill (x other : option string) : option string :=
  match x with Some _ => x | None => other end.

Section WithUnicode.

Context {U : unicodedata}.

(** [re.sub(r"\s+", " ", s)] *)
Fixpoint collapse (in_run : bool) (s : string) : string :=
  match s with
  | EmptyString => EmptyString
  | String c t =>
      if is_space c then
        if in_run then collapse true t
        else String " " (collapse true t)
      else String c (collapse false t)
  end.

(** [None] is a value that is not a [str]; the callers only pass the
    missing value, which [str] spells "nan". *)
Definition normalize_str (v : option string) : string :=
  let s := match v with Some s => s | None => "nan" end in
  let s := nfkd s in
  let s := strip_marks s in
  let s := strip (upper s) in
  let s := smap (fun c => if is_upper c then c else " "%char) s in
  collapse false s.

Definition extract_country_tokens (country_clean : string)
  : list string :=
  let tokens := words country_clean in
  let good :=
    filter (fun t => negb (String.length t <? 4)
                     && negb (mem t STOP_WORDS_FR)) tokens in
  match good with [] => tokens | _ => good end.

(** *** The country -> region table *)

Record map_row : Type := mk_map {
  m_country : option string;
  m_region : option string
}.

(** The rows of country_region_mapping.csv followed by those of
    [EXTRA_REGION]. *)
Definition extra_rows : list map_row :=
  map (fun cr => {| m_country := Some (fst cr);
                    m_region := Some (snd cr) |}) EXTRA_REGION.

Definition with_extra (file : list map_row) : list map_row :=
  file ++ extra_rows.

Definition country_clean (r : map_row) : string :=
  normalize_str (m_country r).

Definition token_row : Type := (option string * string)%type.

Definition token_eqb (x y : token_row) : bool :=
  opt_eqb (fst x) (fst y) && String.eqb (snd x) (snd y).

Definition build_country_token_table (mapping : list map_row)
  : list token_row :=
  dedup_by token_eqb []
    (flat_map (fun row =>
                 map (fun tok => (m_country row, tok))
                     (extract_country_tokens (country_clean row)))
              mapping).

(** The country of the first row of the table whose token occurs in the
    cleaned name. *)
Definition guess_country_from_name (airline_name : option string)
  (token_table : list token_row) : option string :=
  match airline_name with
  | None => None
  | Some name =>
      let name_clean := normalize_str (Some name) in
      if negb (nonempty name_clean) then None
      else
        let matches :=
          filter (fun row => nonempty (snd row)
                             && contains (snd row) name_clean)
                 token_table in
        match matches with
        | [] => None
        | row :: _ => fst row
        end
  end.

Definition MANUAL_COUNTRY : list (string * string) :=
  map (fun kv => (normalize_str (Some (fst kv)), snd kv))
      MANUAL_COUNTRY_RAW.

Definition get_manual_country (airline_name : option string)
  : option string :=
  match airline_name with
  | None => None
  | Some name => dict_get (normalize_str (Some name)) MANUAL_COUNTRY
  end.

(** *** Step 3: airline -> country from the raw sheet *)

(** A raw observation: the airline_name cell and the country cell. *)
Definition raw_row : Type := (option string * option string)%type.

Definition pair_eqb (x y : string * string) : bool :=
  String.eqb (fst x) (fst y) && String.eqb (snd x) (snd y).

Definition pair_leb (x y : string * string) : bool :=
  String.ltb (fst x) (fst y)
  || (String.eqb (fst x) (fst y) && String.leb (snd x) (snd y)).

(** The rows that [groupby] keeps: both keys present. *)
Fixpoint keyed (raw : list raw_row) : list (string * string) :=
  match raw with
  | [] => []
  | (Some a, Some c) :: t => (a, c) :: keyed t
  | _ :: t => keyed t
  end.

Definition count_pair (p : string * string) (l : list (string * string))
  : nat :=
  List.length (filter (pair_eqb p) l).

(** [tmp]: the (airline_name, country) groups in sorted order, with
    their sizes. *)
Definition pair_counts (raw : list raw_row)
  : list (string * string * nat) :=
  let l := keyed raw in
  map (fun p => (p, count_pair p l))
      (sort_by pair_leb (dedup_by pair_eqb [] l)).

(** [idxmax]: the first row of the largest [n]. *)
Fixpoint first_max (best : string * string * nat)
  (l : list (string * string * nat)) : string * string * nat :=
  match l with
  | [] => best
  | x :: t => if snd best <? snd x then first_max x t
              else first_max best t
  end.

Definition idxmax (l : list (string * string * nat))
  : option (string * string * nat) :=
  match l with
  | [] => None
  | x :: t => Some (first_max x t)
  end.

(** [airline_country]: per airline_name, in sorted order, its most
    frequent country. *)
Definition airline_country (raw : list raw_row)
  : list (string * string) :=
  let tmp := pair_counts raw in
  let names := unique (map (fun x => fst (fst x)) tmp) in
  flat_map
    (fun a =>
       match idxmax (filter (fun x => String.eqb (fst (fst x)) a) tmp)
       with
       | Some x => [fst x]
       | None => []
       end) names.

(** [.astype(str).str.upper().str.strip()]; a missing value stays
    missing. *)
Definition airline_key (v : option string) : option string :=
  match v with
  | Some s => Some (strip (upper s))
  | None => None
  end.

(** *** The merged frame *)

Record score_row : Type := mk_score {
  s_airline : option string;
  s_modernity_index : cell
}.

Record merged_row : Type := mk_merged {
  airline : option string;
  modernity_index : cell;
  country : option string
}.

(** The left merge of [scores] with [airline_country] on the key.  The
    keys of [airline_country] are the names of groups and never missing,
    so a score without an airline meets none of them. *)
Definition merge_country (ac : list (string * string)) (s : score_row)
  : list merged_row :=
  let key := airline_key (s_airline s) in
  let hits :=
    filter (fun x => opt_eqb (airline_key (Some (fst x))) key) ac in
  let row c := {| airline := s_airline s;
                  modernity_index := s_modernity_index s;
                  country := c |} in
  match hits with
  | [] => [row None]
  | _ => map (fun x => row (Some (snd x))) hits
  end.

Definition stage_direct (raw : list raw_row) (scores : list score_row)
  : list merged_row :=
  flat_map (merge_country (airline_country raw)) scores.

(** A fallback stage: when some row has no country, the rows without a
    country receive the answer of [f] on their airline. *)
Definition stage_fallback (f : option string -> option string)
  (merged : list merged_row) : list merged_row :=
  let mask_missing_country r := negb (notna (country r)) in
  if existsb mask_missing_country merged then
    map (fun r =>
           let answer :=
             if mask_missing_country r then f (airline r) else None in
           {| airline := airline r;
              modernity_index := modernity_index r;
              country := fill (country r) answer |}) merged
  else merged.

Definition stage_manual : list merged_row -> list merged_row :=
  stage_fallback get_manual_country.

Definition stage_guess (country_tokens : list token_row)
  : list merged_row -> list merged_row :=
  stage_fallback (fun name => guess_country_from_name name country_tokens).

(** Steps 3 to 5. *)
Definition resolve_countries (raw : list raw_row) (mapping : list map_row)
  (scores : list score_row) : list merged_row :=
  let country_tokens := build_country_token_table mapping in
  stage_guess country_tokens (stage_manual (stage_direct raw scores)).

(** *** Step 6: country -> region *)

Record region_row : Type := mk_region {
  r_airline : option string;
  r_modernity_index : cell;
  r_country : option string;
  r_country_norm : option string;
  r_region : option string
}.

(** The left merge with [mapping[["country_norm", "region"]]]; the key
    of a mapping row is a string, so a row without a country meets no
    mapping row and keeps a null region.  The merge does not stop the
    script, not even when no row at all has a country. *)
Definition merge_region (mapping : list map_row) (r : merged_row)
  : list region_row :=
  let country_norm :=
    match country r with
    | Some c => Some (normalize_str (Some c))
    | None => None
    end in
  let row reg := {| r_airline := airline r;
                    r_modernity_index := modernity_index r;
                    r_country := country r;
                    r_country_norm := country_norm;
                    r_region := reg |} in
  let hits :=
    match country_norm with
    | Some k => filter (fun m => String.eqb (country_clean m) k) mapping
    | None => []
    end in
  match hits with
  | [] => [row None]
  | _ => map (fun m => row (m_region m)) hits
  end.

(** The rows of the merge. *)
Definition join_region (mapping : list map_row)
  (merged : list merged_row) : list region_row :=
  flat_map (merge_region mapping) merged.

(** release/air14_missing_region.csv *)
Definition missing (merged : list region_row)
  : list (option string * option string) :=
  dedup_by (fun x y => opt_eqb (fst x) (fst y) && opt_eqb (snd x) (snd y))
    []
    (map (fun r => (r_airline r, r_country r))
         (filter (fun r => negb (notna (r_region r))) merged)).

(** Step 7: [dropna(subset=["region", "modernity_index"])] *)
Definition final_filter (merged : list region_row) : list region_row :=
  filter (fun r => notna (r_region r)
                   && negb (isna (r_modernity_index r))) merged.

(** *** Step 8: the aggregation by region *)

Record summary_row : Type := mk_summary {
  region : string;
  n_airlines : nat;
  mean_modernity_index : cell
}.

Definition Qnat (n : nat) : Q := inject_Z (Z.of_nat n).

Fixpoint somes (l : list (option string)) : list string :=
  match l with
  | [] => []
  | Some s :: t => s :: somes t
  | None :: t => somes t
  end.

Definition mean (l : list cell) : cell :=
  div (fold_left add l (Fin 0)) (Fin (Qnat (List.length l))).

(** [summary_basic]: one row per region, the regions in sorted order;
    the ranking column and the final ordering by mean are left out. *)
Definition summary_basic (merged : list region_row) : list summary_row :=
  let regions := sort (unique (somes (map r_region merged))) in
  map (fun reg =>
         let g := filter (fun r => opt_eqb (r_region r) (Some reg))
                         merged in
         {| region := reg;
            n_airlines := List.length (unique (somes (map r_airline g)));
            mean_modernity_index := mean (map r_modernity_index g) |})
      regions.

(** The whole script, from the three tables it has read.  The side
    file is written in every run, which the outer [Some] records; with
    it come the rows kept for the aggregation and their summary, or
    [None] when the script stops at step 7 because no row is left after
    the filter. *)
Definition run (raw : list raw_row) (mapping_file : list map_row)
  (scores : list score_row)
  : option (list (option string * option string)
            * option (list region_row * list summary_row)) :=
  let mapping := with_extra mapping_file in
  let merged := join_region mapping (resolve_countries raw mapping scores) in
  let kept := final_filter merged in
  Some (missing merged,
        match kept with
        | [] => None
        | _ => Some (kept, summary_basic kept)
        end).

End WithUnicode.

End Region.

(* ------------------------------------------------------------------ *)
(** ** air19_create_fleet_bucket.py *)

Module FleetBucket.

Import Num.

Inductive bucket : Type :=
| Small
| Medium
| Large.

(** [bucket_fleet_size]; [q1] and [q2] are the two tertiles that the
    script has computed from the non-null fleet sizes, and [None] is the
    absent label of a null fleet size. *)
Definition bucket_fleet_size (q1 q2 : cell) (x : cell) : option bucket :=
  if isna x then None
  else if fle x q1 then Some Small
  else if fle x q2 then Some Medium
  else Some Large.

End FleetBucket.

(* ================================================================== *)

(* ------------------------------------------------------------------ *)
(** ** Vocabulary of the statements *)

Module Statements.

Import Frame Text Num Unicode.
Local Open Scope string_scope.

(** What [to_prop] makes of a cell, case by case. *)
Definition to_prop_cases (c : cell) : cell :=
  match c with
  | NaN => Fin 0
  | PInf => Fin 1
  | NInf => Fin 0
  | Fin q =>
      if Qltb q 0 then Fin 0
      else if Qle_bool q 1 then Fin q
      else if Qle_bool q 100 then Fin (q / 100)
      else Fin 1
  end.

(** The string has no occurrence of the letter [c], in either case. *)
Fixpoint lacks (c : ascii) (s : string) : Prop :=
  match s with
  | EmptyString => True
  | String x t => Regex.same true x c = false /\ lacks c t
  end.

Fixpoint occurs (c : ascii) (l : string) : bool :=
  match l with
  | EmptyString => false
  | String x t => Ascii.eqb x c || occurs c t
  end.

(** Every match of the pattern goes through a literal [c]. *)
Fixpoint needs (c : ascii) (r : Regex.re) : bool :=
  match r with
  | Regex.Lit l => occurs c l
  | Regex.Cat a b => needs c a || needs c b
  | Regex.Alt a b => needs c a && needs c b
  | Regex.Grp a => needs c a
  | _ => false
  end.

(** The continuation rejects every string without the letter [c]. *)
Definition dead (c : ascii) (k : Regex.cont) : Prop :=
  forall p s, lacks c s -> k p s = false.

(** The airline key [a] is observed with the model [m] in the raw sheet. *)
Definition observed (raw : list BuildFeatures.raw_row) (a m : string)
  : Prop :=
  exists r, In r raw /\ BuildFeatures.airline_norm r = a /\ snd r = Some m.

(** Nothing to strip on the left. *)
Definition lstripped (p : ascii -> bool) (s : string) : Prop :=
  match s with
  | EmptyString => True
  | String c _ => p c = false
  end.

(** An additive merge of the mapping file: the previous rows as they
    are, then the added ones. *)
Definition additive (old new : list CountryMap.map_row) : Prop :=
  exists added, new = (old ++ added)%list.

Section WithUnicode.

Context {U : unicodedata}.

(** The raw row is one of airline [a]: its airline cell is not missing
    and normalises to [a]. *)
Definition named (a : string) (r : Air1.raw_row) : bool :=
  match Air1.normalize_text (fst r) with
  | Some b => String.eqb b a
  | None => false
  end.

(** The raw row has an airline cell. *)
Definition has_airline (r : Air1.raw_row) : bool :=
  match fst r with
  | Some _ => true
  | None => false
  end.




(** The row that step 6 makes of a row of country [c] and a mapping row
    of region [reg]. *)
Definition in_region (r : Region.merged_row) (c reg : string)
  : Region.region_row :=
  {| Region.r_airline := Region.airline r;
     Region.r_modernity_index := Region.modernity_index r;
     Region.r_country := Some c;
     Region.r_country_norm := Some (Region.normalize_str (Some c));
     Region.r_region := Some reg |}.

End WithUnicode.


(** Every character of the string satisfies [p]. *)
Fixpoint every (p : ascii -> bool) (s : string) : bool :=
  match s with
  | EmptyString => true
  | String c t => p c && every p t
  end.

(** Not a capital letter. *)
Definition not_upper (c : ascii) : bool := negb (is_upper c).

(** The literals and the sets of the pattern have no capital letter. *)
Fixpoint lowercase_re (r : Regex.re) : bool :=
  match r with
  | Regex.Lit l => every not_upper l
  | Regex.OneOf cs => every not_upper cs
  | Regex.Cat a b | Regex.Alt a b => lowercase_re a && lowercase_re b
  | Regex.Grp a | Regex.Opt a | Regex.Star a | Regex.Rep _ _ a =>
      lowercase_re a
  | _ => true
  end.

(** The two continuations give the same answer on the strings without
    capitals. *)
Definition agree (k k' : Regex.cont) : Prop :=
  forall p s, every not_upper s = true -> k p s = k' p s.

(** A capital letter or a space. *)
Definition letter_or_space (c : ascii) : bool :=
  is_upper c || Ascii.eqb c " ".

(** The string has no two blanks in a row. *)
Fixpoint single_spaced (s : string) : bool :=
  match s with
  | EmptyString => true
  | String c t =>
      negb (is_space c
            && match t with String d _ => is_space d | EmptyString => false end)
      && single_spaced t
  end.

(** [x] comes before [y] in the list. *)
Definition precedes {A : Type} (x y : A) (l : list A) : Prop :=
  exists l1 l2 l3, l = (l1 ++ x :: l2 ++ y :: l3)%list.

(** What air9_compute_scores.py makes of one row of the table that
    build_features.py exports: the fleet size as it is, the diversity as
    it is, and the clamped weighted sum of the three proportions as they
    are. *)
Definition scored (f : BuildFeatures.feature_row) (out : Scorer.score_row)
  : Prop :=
  Scorer.fleet_size out = BuildFeatures.fleet_size f
  /\ Scorer.diversity out =c= BuildFeatures.diversity f
  /\ Scorer.modernity_index out
     =c= clip 0 1 (Scorer.weighted_sum
                     (BuildFeatures.pct_newgen_narrow f)
                     (BuildFeatures.pct_newgen_wide f)
                     (BuildFeatures.pct_a220 f)).

(** The regions that the header of air13_build_country_mapping.py lists
    for the region column. *)
Definition world_regions : list string :=
  [ "Europe"; "Africa"; "Asia"; "Middle East"; "North America";
    "South America"; "Caribbean"; "Oceania" ].

(** The entry of a country in the two manual tables: a code of two
    characters and one of the listed regions, under a non-empty name
    without blanks around it. *)
Definition manual_entry (country : string) : bool :=
  match CountryMap.lookup country CountryMap.MANUAL_ALPHA2,
        CountryMap.lookup country CountryMap.MANUAL_REGION with
  | Some code, Some region =>
      (String.length code =? 2)%nat && mem region world_regions
      && nonempty country && String.eqb (strip country) country
  | _, _ => false
  end.

(** Small < Medium < Large. *)
Definition bucket_rank (b : FleetBucket.bucket) : nat :=
  match b with
  | FleetBucket.Small => 0
  | FleetBucket.Medium => 1
  | FleetBucket.Large => 2
  end.

End Statements.

(* ------------------------------------------------------------------ *)
(** ** Example inputs

    All of them are ASCII text, which the two [unicodedata] functions
    leave as it is. *)

Module Examples.

Import Frame Text Num Unicode.
Local Open Scope string_scope.

(** *** A fleet of three *)

Definition small_raw : list Air1.raw_row :=
  [ (Some "Air Tahiti", Some "787-9");
    (Some "Air Tahiti", Some "ATR 72");
    (Some "Air Tahiti", Some "ATR 72") ].

Definition small_row : Air1.agg_row :=
  Air1.agg_of_group "AIR TAHITI"
    (Air1.group "AIR TAHITI" (map Air1.work_of small_raw)).

Definition small_agg : BuildFeatures.agg_row :=
  {| BuildFeatures.a_airline := "AIR TAHITI";
     BuildFeatures.a_fleet_size := Fin 3;
     BuildFeatures.a_new_gen_share := Some (Fin 0.5);
     BuildFeatures.a_indice_modernite_v0 := Some (Fin 0.5);
     BuildFeatures.a_indice_public := Some NaN;
     BuildFeatures.a_indice_penalise := Some (Fin 0.3) |}.

(** *** Rows of features_by_airline.csv *)

Definition full_row : Scorer.feat_row :=
  {| Scorer.f_airline := "AIR FRANCE";
     Scorer.f_fleet_size := Some (Fin 12);
     Scorer.f_diversity := Some (Fin 0.5);
     Scorer.f_n_models := Some (Fin 6);
     Scorer.f_pct_neo := Some (Fin 0.25);
     Scorer.f_pct_max := Some (Fin 0);
     Scorer.f_pct_a220 := Some (Fin 0.25);
     Scorer.f_pct_787 := Some (Fin 0.25);
     Scorer.f_pct_a350 := Some (Fin 0);
     Scorer.f_pct_a330neo := Some (Fin 0);
     Scorer.f_pct_newgen_narrow := Some (Fin 0.5);
     Scorer.f_pct_newgen_wide := Some (Fin 0.25) |}.

(** A small fleet with a null component. *)
Definition null_component_row : Scorer.feat_row :=
  {| Scorer.f_airline := "AIR TAHITI";
     Scorer.f_fleet_size := Some (Fin 3);
     Scorer.f_diversity := Some (Fin 0.5);
     Scorer.f_n_models := Some (Fin 2);
     Scorer.f_pct_neo := Some (Fin 0);
     Scorer.f_pct_max := Some (Fin 0);
     Scorer.f_pct_a220 := Some (Fin 0.1);
     Scorer.f_pct_787 := Some (Fin 0.5);
     Scorer.f_pct_a350 := Some (Fin 0);
     Scorer.f_pct_a330neo := Some (Fin 0);
     Scorer.f_pct_newgen_narrow := Some NaN;
     Scorer.f_pct_newgen_wide := Some (Fin 0.5) |}.

(** *** An airline without aircraft *)

Definition empty_fleet_agg : BuildFeatures.agg_row :=
  {| BuildFeatures.a_airline := "GHOST AIR";
     BuildFeatures.a_fleet_size := Fin 0;
     BuildFeatures.a_new_gen_share := Some (Fin 0);
     BuildFeatures.a_indice_modernite_v0 := Some (Fin 0);
     BuildFeatures.a_indice_public := Some NaN;
     BuildFeatures.a_indice_penalise := Some (Fin 0) |}.

Definition empty_fleet_raw : list BuildFeatures.raw_row :=
  [ (Some "Air Tahiti", Some "787-9") ].

(** A features file without a diversity column. *)
Definition empty_fleet_feat : Scorer.feat_row :=
  {| Scorer.f_airline := "GHOST AIR";
     Scorer.f_fleet_size := Some (Fin 0);
     Scorer.f_diversity := None;
     Scorer.f_n_models := Some (Fin 2);
     Scorer.f_pct_neo := None;
     Scorer.f_pct_max := None;
     Scorer.f_pct_a220 := None;
     Scorer.f_pct_787 := None;
     Scorer.f_pct_a350 := None;
     Scorer.f_pct_a330neo := None;
     Scorer.f_pct_newgen_narrow := None;
     Scorer.f_pct_newgen_wide := None |}.

(** *** The three AIR FRANCE rows *)




(** *** A mapping file and a raw sheet that has lost a country *)

Definition old_file : list CountryMap.map_row :=
  [ CountryMap.mk_row "Atlantide" "AT" "Europe";
    CountryMap.mk_row "France" "FR" "Europe";
    CountryMap.mk_row "Japon" "" "" ].

Definition observed_countries : list (option string) :=
  [ Some "Japon"; Some "France"; None; Some "Belgique"; Some "France " ].

(** The run of the example, with neither pycountry nor googletrans. *)
Definition new_file : list CountryMap.map_row :=
  CountryMap.main None None observed_countries (Some old_file).

(** *** Five airlines to resolve *)

Definition res_raw : list Region.raw_row :=
  [ (Some "Cebu Pacific", Some "Chine");
    (Some "Air France", Some "Belgique");
    (Some "Air France", Some "France");
    (Some "Air France", Some "France");
    (Some "Air France", None) ].

Definition res_file : list Region.map_row :=
  [ Region.mk_map (Some "France") (Some "Europe");
    Region.mk_map (Some "Chine") (Some "Asia");
    Region.mk_map (Some "Oman") (Some "Middle East") ].

Definition res_scores : list Region.score_row :=
  [ Region.mk_score (Some "AIR FRANCE") (Fin 0.6);
    Region.mk_score (Some "CEBU PACIFIC") (Fin 0.3);
    Region.mk_score (Some "SALAMAIR") (Fin 0.5);
    Region.mk_score (Some "AIR CHINE CARGO") (Fin 0.2);
    Region.mk_score (Some "BRUSSELS AIRLINES") (Fin 0.9) ].


(** *** One airline of the manual table, and an empty mapping file *)

Definition cebu_scores : list Region.score_row :=
  [ Region.mk_score (Some "Cebu Pacific") (Fin 0.3) ].

Definition cebu_row : Region.merged_row :=
  {| Region.airline := Some "Cebu Pacific";
     Region.modernity_index := Fin 0.3;
     Region.country := Some "Philippines" |}.

(** *** A row that the stage of the guess has resolved *)

Definition guessed_row : Region.merged_row :=
  {| Region.airline := Some "AIR CHINE CARGO";
     Region.modernity_index := Fin 0.2;
     Region.country := Some "Chine" |}.

(** *** A row whose fleet size is null, and an AIR3 sheet that has it *)

Definition nan_fleet_row : Scorer.feat_row :=
  {| Scorer.f_airline := "AIR FRANCE";
     Scorer.f_fleet_size := Some NaN;
     Scorer.f_diversity := Some (Fin 0.5);
     Scorer.f_n_models := Some (Fin 6);
     Scorer.f_pct_neo := Some (Fin 0.25);
     Scorer.f_pct_max := Some (Fin 0);
     Scorer.f_pct_a220 := Some (Fin 0.25);
     Scorer.f_pct_787 := Some (Fin 0.25);
     Scorer.f_pct_a350 := Some (Fin 0);
     Scorer.f_pct_a330neo := Some (Fin 0);
     Scorer.f_pct_newgen_narrow := Some (Fin 0.5);
     Scorer.f_pct_newgen_wide := Some (Fin 0.25) |}.

Definition air3_sheet : list (string * cell) :=
  [ ("Air France", Fin 12) ].

(** *** An airline of the aggregated sheet that the raw sheet does not
    have, and an aggregated sheet that lists AIR TAHITI twice *)

Definition absent_agg : BuildFeatures.agg_row :=
  {| BuildFeatures.a_airline := "GHOST AIR";
     BuildFeatures.a_fleet_size := Fin 4;
     BuildFeatures.a_new_gen_share := Some (Fin 0.25);
     BuildFeatures.a_indice_modernite_v0 := None;
     BuildFeatures.a_indice_public := None;
     BuildFeatures.a_indice_penalise := None |}.

Definition twice_agg : list BuildFeatures.agg_row :=
  [ small_agg; absent_agg; small_agg ].

(** *** A fleet of five with one new-generation aircraft, and a fleet of
    one that is new-generation *)

Definition rank_raw : list Air1.raw_row :=
  [ (Some "Tiny Air", Some "A350-900");
    (Some "Big Air", Some "787-9");
    (Some "Big Air", Some "ATR 72");
    (Some "Big Air", Some "ATR 72");
    (Some "Big Air", Some "ATR 42");
    (Some "Big Air", Some "ATR 42") ].

End Examples.

(** * Properties *)

(* ------------------------------------------------------------------ *)
(** ** Arithmetic of cells *)

Section NumFacts.

Import Num.
Open Scope Q_scope.

Lemma Qle_bool_false (x y : Q) : Qle_bool x y = false <-> y < x.
Proof.
  rewrite <- not_true_iff_false, Qle_bool_iff.
  split; intro H; [apply Qnot_le_lt | apply Qlt_not_le]; exact H.
Qed.

Lemma Qltb_true (x y : Q) : Qltb x y = true <-> x < y.
Proof.
  unfold Qltb. rewrite negb_true_iff. apply Qle_bool_false.
Qed.

Lemma Qltb_false (x y : Q) : Qltb x y = false <-> y <= x.
Proof.
  unfold Qltb. rewrite negb_false_iff. apply Qle_bool_iff.
Qed.

Lemma eqc_refl (c : cell) : c =c= c.
Proof. destruct c; simpl; auto. reflexivity. Qed.

Lemma eqc_sym (a b : cell) : a =c= b -> b =c= a.
Proof. destruct a, b; simpl; auto. intro H; symmetry; exact H. Qed.

Lemma eqc_trans (a b c : cell) : a =c= b -> b =c= c -> a =c= c.
Proof.
  destruct a, b, c; simpl; auto; try contradiction.
  intros H1 H2. rewrite H1. exact H2.
Qed.

Lemma in01_eqc (a b : cell) : a =c= b -> in01 a -> in01 b.
Proof.
  destruct a, b; simpl; try contradiction. intros E [H0 H1].
  rewrite <- E. split; assumption.
Qed.

End NumFacts.

(** Case analysis on the comparisons of a goal, then linear arithmetic. *)
Ltac qcases :=
  repeat match goal with
    | |- context [Qle_bool ?a ?b] =>
        let H := fresh "Hle" in
        destruct (Qle_bool a b) eqn:H;
        [apply Qle_bool_iff in H | apply Qle_bool_false in H]
    | H0 : context [Qle_bool ?a ?b] |- _ =>
        let H := fresh "Hle" in
        destruct (Qle_bool a b) eqn:H;
        [apply Qle_bool_iff in H | apply Qle_bool_false in H]
    end.

Ltac qsolve := unfold Num.qmin, Num.qmax, Num.Qltb in *; qcases; simpl;
               try lra.

Section ClipFacts.

Import Num.
Open Scope Q_scope.

Lemma unit_clip_bounds (q : Q) : 0 <= unit_clip q /\ unit_clip q <= 1.
Proof. unfold unit_clip. qsolve; split; lra. Qed.

Lemma unit_clip_id (q : Q) : 0 <= q -> q <= 1 -> unit_clip q == q.
Proof. unfold unit_clip. intros. qsolve. Qed.

Lemma unit_clip_compat (x y : Q) : x == y -> unit_clip x == unit_clip y.
Proof. unfold unit_clip. intros. qsolve. Qed.

Lemma clip_in01 (c : cell) : isna c = false -> in01 (clip 0 1 c).
Proof.
  destruct c; simpl; try discriminate; intros _; try (split; lra).
  apply unit_clip_bounds.
Qed.

Lemma fillna_notna (v : Q) (c : cell) : isna (fillna v c) = false.
Proof. destruct c; reflexivity. Qed.

Lemma in01_notna (c : cell) : in01 c -> isna c = false.
Proof. destruct c; simpl; auto; contradiction. Qed.

End ClipFacts.

(* ------------------------------------------------------------------ *)
(** ** The scorer *)

Section ScorerFacts.

Import Num Scorer Statements Examples.
Open Scope Q_scope.

Lemma to_prop_in01 (c : cell) : in01 (to_prop c).
Proof. unfold to_prop. apply clip_in01, fillna_notna. Qed.

Lemma to_prop_fin (c : cell) :
  exists q, to_prop c = Fin q /\ 0 <= q /\ q <= 1.
Proof.
  pose proof (to_prop_in01 c) as H.
  destruct (to_prop c) as [| | |q]; simpl in H; try contradiction.
  exists q. split; [reflexivity | exact H].
Qed.

Lemma to_prop_unit (q : Q) : q <= 1 -> to_prop (Fin q) = Fin (unit_clip q).
Proof.
  intro H. unfold to_prop. simpl gt.
  apply Qltb_false in H. rewrite H. reflexivity.
Qed.

Lemma to_prop_percent (q : Q) :
  1 < q -> to_prop (Fin q) = Fin (unit_clip (q / 100)).
Proof.
  intro H. unfold to_prop. simpl gt.
  apply Qltb_true in H. rewrite H. reflexivity.
Qed.

Lemma to_prop_spec (c : cell) : to_prop c =c= to_prop_cases c.
Proof.
  destruct c as [| | |q]; try (simpl; reflexivity).
  destruct (Qlt_le_dec 1 q) as [H | H].
  - rewrite (to_prop_percent H). unfold to_prop_cases, unit_clip.
    change (q / 100) with (q * (1 # 100)). qsolve.
  - rewrite (to_prop_unit H). unfold to_prop_cases, unit_clip. qsolve.
Qed.

Lemma clip_sum_in01 (a b c : cell) :
  in01 a -> in01 b -> in01 c -> in01 (clip 0 1 (add (add a b) c)).
Proof.
  intros Ha Hb Hc. apply clip_in01.
  destruct a, b, c; simpl in *; try contradiction; reflexivity.
Qed.

Lemma components_in01 (r : feat_row) :
  let c := components_of r in
  in01 (pct_newgen_narrow c) /\ in01 (pct_newgen_wide c)
  /\ in01 (pct_a220 c).
Proof.
  unfold components_of.
  destruct (f_pct_newgen_narrow r), (f_pct_newgen_wide r); simpl;
    repeat split;
    try apply to_prop_in01; apply clip_sum_in01; apply to_prop_in01.
Qed.

Lemma modernity_in01 (c : components) :
  in01 (pct_newgen_narrow c) -> in01 (pct_newgen_wide c) ->
  in01 (pct_a220 c) -> in01 (modernity_of c).
Proof.
  destruct c as [n w a]; simpl. intros Hn Hw Ha.
  unfold modernity_of. apply clip_in01. simpl.
  destruct n, w, a; simpl in *; try contradiction; reflexivity.
Qed.

Lemma modernity_of_row_in01 (r : feat_row) :
  in01 (modernity_of (components_of r)).
Proof.
  destruct (components_in01 r) as (Hn & Hw & Ha).
  apply modernity_in01; assumption.
Qed.

(** No component is null once [components_of] has run, so the notes are
    decided by the fleet size alone. *)
Lemma qa_of_row (fs : cell) (r : feat_row) :
  qa_of fs (components_of r)
  = if lt fs MIN_FLEET then "fleet_too_small"%string else ""%string.
Proof.
  destruct (components_in01 r) as (Hn & Hw & Ha).
  unfold qa_of.
  rewrite (in01_notna _ Hn), (in01_notna _ Hw), (in01_notna _ Ha).
  destruct (lt fs MIN_FLEET); reflexivity.
Qed.

Lemma score_row_of_some (r : feat_row) (fs : cell) (out : score_row) :
  score_row_of r fs = Some out ->
  modernity_index out = modernity_of (components_of r)
  /\ qa_notes out = qa_of (fillna 0 fs) (components_of r)
  /\ fleet_size out = fillna 0 fs
  /\ diversity_of (fillna 0 fs) r = Some (diversity out).
Proof.
  unfold score_row_of.
  destruct (diversity_of (fillna 0 fs) r) as [d|]; [|discriminate].
  intro H. injection H as <-. simpl. auto.
Qed.

Lemma score_row_of_defined (r : feat_row) (fs : cell) :
  f_diversity r <> None \/ f_n_models r <> None ->
  exists out, score_row_of r fs = Some out.
Proof.
  intro H. unfold score_row_of, diversity_of.
  destruct (f_diversity r); [eexists; reflexivity|].
  destruct (f_n_models r); [eexists; reflexivity|].
  destruct H as [H | H]; contradiction H; reflexivity.
Qed.

Lemma diversity_of_in01 (fs : cell) (r : feat_row) (d : cell) :
  diversity_of fs r = Some d -> in01 d.
Proof.
  unfold diversity_of. destruct (f_diversity r) as [x|].
  - intro H. injection H as <-. apply to_prop_in01.
  - destruct (f_n_models r) as [n|]; [|discriminate].
    intro H. injection H as <-. apply clip_in01, fillna_notna.
Qed.

Lemma sequence_In (A : Type) (l : list (option A)) (out : list A) (y : A) :
  Frame.sequence l = Some out -> In y out -> In (Some y) l.
Proof.
  revert out. induction l as [|[x|] l IH]; simpl; intros out H Hy.
  - injection H as <-. contradiction.
  - destruct (Frame.sequence l) as [t|]; [|discriminate].
    injection H as <-. destruct Hy as [-> | Hy]; [left; reflexivity|].
    right. apply (IH t); [reflexivity | exact Hy].
  - discriminate.
Qed.

Lemma complete_fleet_size_rows (air3 : option (list (string * cell)))
  (feat : list feat_row) (r : feat_row) (fs : cell) :
  In (r, fs) (complete_fleet_size air3 feat) -> In r feat.
Proof.
  assert (Hkeep : forall keep : feat_row -> feat_row * cell,
             (forall x, fst (keep x) = x) ->
             In (r, fs) (map keep feat) -> In r feat).
  { intros keep Hk H. apply in_map_iff in H. destruct H as (x & E & Hx).
    specialize (Hk x). rewrite E in Hk. simpl in Hk. subst x. exact Hx. }
  unfold complete_fleet_size.
  destruct (fleet_size_incomplete feat);
    [destruct air3 as [air3|]|]; try (apply Hkeep; reflexivity).
  rewrite in_flat_map. intros (x & Hx & H).
  unfold merge_air3 in H.
  destruct (f_fleet_size x);
    destruct (filter _ air3) as [|h hits];
    try (destruct H as [E | []]; injection E as <- _; exact Hx);
    apply in_map_iff in H; destruct H as (y & E & _);
    injection E as <- _; exact Hx.
Qed.

(** Every row of airline_scores.csv is the score of a row of the
    features file. *)
Lemma compute_scores_rows (air3 : option (list (string * cell)))
  (feat : list feat_row) (outs : list score_row) (out : score_row) :
  compute_scores air3 feat = Some outs -> In out outs ->
  exists r fs, In r feat /\ score_row_of r fs = Some out.
Proof.
  unfold compute_scores. intros H Hout.
  pose proof (@sequence_In _ _ _ _ H Hout) as Hin.
  apply in_map_iff in Hin. destruct Hin as ([r fs] & E & Hp).
  exists r, fs. split; [|exact E].
  apply (complete_fleet_size_rows _ _ _ _ Hp).
Qed.

End ScorerFacts.

Section ScorerClaims.

Import Num Scorer Statements Examples.
Open Scope Q_scope.

(** C2.  When the three components of a row lie in [0,1], its
    modernity_index is clamp01(0.4 * pct_newgen_narrow + 0.4 *
    pct_newgen_wide + 0.2 * pct_a220), a finite number of [0,1]; the row
    is produced as soon as the file has a diversity or an n_models
    column. *)
Theorem C2_modernity_index_is_clamped_weighted_sum :
  forall (r : feat_row) (fs : cell) (n w a : Q),
    f_pct_newgen_narrow r = Some (Fin n) ->
    f_pct_newgen_wide r = Some (Fin w) ->
    f_pct_a220 r = Some (Fin a) ->
    0 <= n <= 1 -> 0 <= w <= 1 -> 0 <= a <= 1 ->
    modernity_of (components_of r)
      =c= clip 0 1 (Fin (0.4 * n + 0.4 * w + 0.2 * a))
    /\ in01 (modernity_of (components_of r))
    /\ (forall out, score_row_of r fs = Some out ->
                    modernity_index out = modernity_of (components_of r))
    /\ (f_diversity r <> None \/ f_n_models r <> None ->
        exists out, score_row_of r fs = Some out).
Proof.
  intros r fs n w a Hn Hw Ha [Hn0 Hn1] [Hw0 Hw1] [Ha0 Ha1].
  split; [|split; [apply modernity_of_row_in01|split]].
  - unfold components_of. rewrite Hn, Hw, Ha. simpl or_zero.
    rewrite (to_prop_unit Hn1), (to_prop_unit Hw1), (to_prop_unit Ha1).
    unfold modernity_of. simpl.
    apply unit_clip_compat.
    rewrite (unit_clip_id Hn0 Hn1), (unit_clip_id Hw0 Hw1),
      (unit_clip_id Ha0 Ha1).
    reflexivity.
  - intros out H. apply (score_row_of_some _ _ H).
  - apply score_row_of_defined.
Qed.

Lemma C2_witness :
  modernity_of (components_of full_row)
    =c= clip 0 1 (Fin (0.4 * 0.5 + 0.4 * 0.25 + 0.2 * 0.25))
  /\ in01 (modernity_of (components_of full_row))
  /\ (forall out, score_row_of full_row (Fin 12) = Some out ->
                  modernity_index out = modernity_of (components_of full_row))
  /\ (f_diversity full_row <> None \/ f_n_models full_row <> None ->
      exists out, score_row_of full_row (Fin 12) = Some out).
Proof.
  apply (@C2_modernity_index_is_clamped_weighted_sum
           full_row (Fin 12) 0.5 0.25 0.25);
    try reflexivity; split; unfold Qle; simpl; lia.
Defined.

(** C8, amended.  A proportion read by the scorer goes through [to_prop]:
    a missing value and a negative one give 0, a value of [0,1] is kept, a
    value above 1 is divided by 100 before it is clamped (so that it
    gives 1 only from 100 on), and the infinities give 1 and 0.  The
    result is a finite number of [0,1]; so are the three components of
    every row, and the diversity and the modernity_index of every row of
    airline_scores.csv. *)
Theorem C8_to_prop_rescales_then_clamps :
  forall (c : cell) (r : feat_row) (fs : cell),
    to_prop c =c= to_prop_cases c
    /\ in01 (to_prop c)
    /\ in01 (pct_newgen_narrow (components_of r))
    /\ in01 (pct_newgen_wide (components_of r))
    /\ in01 (pct_a220 (components_of r))
    /\ in01 (modernity_of (components_of r))
    /\ match f_diversity r with
       | Some d => diversity_of fs r = Some (to_prop d)
       | None => True
       end
    /\ (forall air3 feat outs out,
          compute_scores air3 feat = Some outs -> In out outs ->
          in01 (diversity out) /\ in01 (modernity_index out)).
Proof.
  intros c r fs.
  destruct (components_in01 r) as (Hn & Hw & Ha).
  repeat split; try apply to_prop_spec; try apply to_prop_in01;
    try apply Hn; try apply Hw; try apply Ha;
    try apply modernity_of_row_in01.
  - unfold diversity_of. destruct (f_diversity r); auto.
  - destruct (@compute_scores_rows _ _ _ _ H H0) as (r' & fs' & _ & Hs).
    destruct (score_row_of_some _ _ Hs) as (_ & _ & _ & Hd).
    apply (diversity_of_in01 _ _ Hd).
  - destruct (@compute_scores_rows _ _ _ _ H H0) as (r' & fs' & _ & Hs).
    destruct (score_row_of_some _ _ Hs) as (Hm & _).
    rewrite Hm. apply modernity_of_row_in01.
Qed.

(** A value of 250 percent is clamped to 1, and the row of the example is
    scored within [0,1]. *)
Lemma C8_witness :
  to_prop (Fin 250) =c= Fin 1
  /\ exists out,
       compute_scores None [full_row] = Some [out]
       /\ in01 (diversity out) /\ in01 (modernity_index out).
Proof.
  destruct (C8_to_prop_rescales_then_clamps (Fin 250) full_row (Fin 12))
    as (Hspec & _ & _ & _ & _ & _ & _ & Htable).
  split; [exact Hspec|].
  assert (E : exists out, compute_scores None [full_row] = Some [out])
    by (vm_compute; eexists; reflexivity).
  destruct E as [out E]. exists out. split; [exact E|].
  apply (Htable None [full_row] [out] out E). left. reflexivity.
Defined.

(** C8, as stated: an input greater than 1 does not always give 1. *)
Lemma C8_counterexample :
  gt (Fin 50) 1 = true
  /\ to_prop (Fin 50) =c= Fin 0.5
  /\ ~ (to_prop (Fin 50) =c= Fin 1).
Proof.
  split; [reflexivity|]. split.
  - vm_compute. reflexivity.
  - vm_compute. discriminate.
Qed.

(** The notes of a row never mention a missing component. *)
Lemma qa_notes_values (r : feat_row) (fs : cell) (out : score_row) :
  score_row_of r fs = Some out ->
  qa_notes out = "fleet_too_small"%string \/ qa_notes out = ""%string.
Proof.
  intro H. destruct (score_row_of_some _ _ H) as (_ & Hq & _).
  rewrite Hq, qa_of_row. destruct (lt (fillna 0 fs) MIN_FLEET); auto.
Qed.

(** C3.  On a row with a fleet of 3 and a null pct_newgen_narrow the null
    counts as 0 in the weighted sum, and the notes are "fleet_too_small"
    alone: the components have been through [fillna(0)] before the
    test for nulls, which therefore never fires. *)
Theorem C3_missing_component_is_not_flagged :
  exists out,
    compute_scores None [null_component_row] = Some [out]
    /\ modernity_index out
         =c= clip 0 1 (Fin (0.4 * 0 + 0.4 * 0.5 + 0.2 * 0.1))
    /\ lt (fleet_size out) MIN_FLEET = true
    /\ qa_notes out = "fleet_too_small"%string
    /\ notes (qa_notes out) = ["fleet_too_small"%string]
    /\ ~ In "missing_component"%string (notes (qa_notes out)).
Proof.
  eexists. split; [vm_compute; reflexivity|].
  simpl modernity_index. simpl fleet_size. simpl qa_notes.
  repeat split.
  - vm_compute. intros [H | []]. discriminate H.
Qed.

End ScorerClaims.

(* ------------------------------------------------------------------ *)
(** ** Ratios over an empty fleet *)

Section ZeroFleet.

Import Frame Num Statements Examples.
Open Scope string_scope.
Open Scope Q_scope.

Lemma ratio_zero_den (num : cell) (q : Q) :
  q == 0 -> BuildFeatures.ratio num (Fin q) = None.
Proof.
  intro H. unfold BuildFeatures.ratio, BuildFeatures.replace_zero_na.
  apply Qeq_bool_iff in H. rewrite H. reflexivity.
Qed.

Lemma ratio_nonzero_den (num : cell) (q : Q) :
  ~ q == 0 ->
  BuildFeatures.ratio num (Fin q)
  = Some (clip 0 1 (fillna 0 (div (fillna 0 num) (Fin q)))).
Proof.
  intro H. unfold BuildFeatures.ratio, BuildFeatures.replace_zero_na.
  destruct (Qeq_bool q 0) eqn:E; [|reflexivity].
  apply Qeq_bool_iff in E. contradiction.
Qed.

Lemma feature_of_zero_fleet (raw : list BuildFeatures.raw_row)
  (r : BuildFeatures.agg_row) (q : Q) :
  BuildFeatures.a_fleet_size r = Fin q -> q == 0 ->
  BuildFeatures.feature_of raw r = None.
Proof.
  intros Hfs Hq. unfold BuildFeatures.feature_of.
  rewrite Hfs, (ratio_zero_den _ Hq). reflexivity.
Qed.

Lemma sequence_None (A : Type) (l : list (option A)) :
  In None l -> sequence l = None.
Proof.
  induction l as [|[x|] l IH]; simpl; intro H.
  - contradiction.
  - destruct H as [H | H]; [discriminate|]. rewrite (IH H). reflexivity.
  - reflexivity.
Qed.

Lemma recomputed_diversity_zero (n : cell) (q : Q) :
  q == 0 ->
  clip 0 1 (fillna 0 (Scorer.replace_inf (div (fillna 0 n) (Fin q))))
  = Fin 0.
Proof.
  intro H.
  assert (Hc : (q ?= 0) = Eq) by (apply Qeq_alt; exact H).
  assert (Hl : Qltb q 0 = false) by (apply Qltb_false; lra).
  destruct n as [| | |x]; simpl; rewrite ?Hc, ?Hl; try reflexivity.
  unfold inf_signed. destruct (x ?= 0); reflexivity.
Qed.

(** C9.  In build_features.py an airline whose fleet_size is 0 gets no
    proportion at all: [ratio] replaces the zero by pd.NA, the quotient
    is pd.NA, and its cast to float raises, so the script stops and the
    features table is not written, for any airline.  In
    air9_compute_scores.py the diversity recomputed from n_models over a
    fleet of 0 is the finite number 0. *)
Theorem C9_zero_fleet_stops_build_features :
  forall (agg : list BuildFeatures.agg_row)
         (raw : list BuildFeatures.raw_row) (r : BuildFeatures.agg_row)
         (q : Q) (f : Scorer.feat_row) (n : cell),
    In r agg ->
    BuildFeatures.a_fleet_size r = Fin q -> q == 0 ->
    Scorer.f_diversity f = None -> Scorer.f_n_models f = Some n ->
    (forall num, BuildFeatures.ratio num (Fin q) = None)
    /\ BuildFeatures.feature_of raw r = None
    /\ BuildFeatures.build_features agg raw = None
    /\ Scorer.diversity_of (fillna 0 (Fin q)) f = Some (Fin 0).
Proof.
  intros agg raw r q f n Hin Hfs Hq Hd Hn.
  pose proof (feature_of_zero_fleet raw r Hfs Hq) as Hrow.
  split; [intro num; apply (ratio_zero_den num Hq)|].
  split; [exact Hrow|]. split.
  - unfold BuildFeatures.build_features.
    rewrite (@sequence_None _ (map (BuildFeatures.feature_of raw) agg));
      [reflexivity|].
    rewrite <- Hrow. apply in_map. exact Hin.
  - unfold Scorer.diversity_of. rewrite Hd, Hn.
    f_equal. apply (recomputed_diversity_zero n Hq).
Qed.

(** One airline without aircraft in the aggregated sheet, next to one
    with three. *)
Lemma C9_witness :
  BuildFeatures.a_fleet_size empty_fleet_agg = Fin 0
  /\ BuildFeatures.ratio (Fin 2) (Fin 0) = None
  /\ BuildFeatures.feature_of empty_fleet_raw empty_fleet_agg = None
  /\ BuildFeatures.build_features [small_agg; empty_fleet_agg]
       empty_fleet_raw = None
  /\ Scorer.diversity_of (fillna 0 (Fin 0)) empty_fleet_feat
     = Some (Fin 0).
Proof.
  destruct (@C9_zero_fleet_stops_build_features
              [small_agg; empty_fleet_agg] empty_fleet_raw empty_fleet_agg
              0 empty_fleet_feat (Fin 2)
              (or_intror (or_introl eq_refl)) eq_refl (Qeq_refl 0)
              eq_refl eq_refl) as (H1 & H2 & H3 & H4).
  split; [reflexivity|]. split; [apply H1|]. auto.
Defined.

End ZeroFleet.

(* ------------------------------------------------------------------ *)
(** ** The public and the penalised index *)

Section SmallFleet.

Import Frame Num Unicode Statements Examples.
Open Scope string_scope.
Open Scope Q_scope.

Context {U : unicodedata}.

Lemma features_rows (raw : list Air1.raw_row) (row : Air1.agg_row) :
  In row (Air1.features raw) ->
  exists a, row = Air1.agg_of_group a
                    (Air1.group a (map Air1.work_of raw)).
Proof.
  unfold Air1.features, Air1.agg. intro H.
  apply in_map_iff in H. destruct H as (a & <- & _).
  exists a. reflexivity.
Qed.

Lemma Qnat_le (n m : nat) : (n <= m)%nat -> Air1.Qnat n <= Air1.Qnat m.
Proof.
  intro H. unfold Air1.Qnat. rewrite <- Zle_Qle. lia.
Qed.

Lemma full_fleet_factor (n : nat) :
  (5 <= n)%nat -> qmin 1 (Air1.Qnat n / Air1.Qnat Air1.MIN_FLEET) = 1.
Proof.
  intro H. apply Qnat_le in H.
  change (Air1.Qnat 5) with 5 in H.
  change (Air1.Qnat Air1.MIN_FLEET) with 5.
  change (Air1.Qnat n / 5) with (Air1.Qnat n * (1 # 5)).
  unfold qmin. qcases; [reflexivity | lra].
Qed.

Lemma agg_fleet_size (a : string) (g : list Air1.work_row) :
  Air1.fleet_size (Air1.agg_of_group a g) = List.length g.
Proof. reflexivity. Qed.

Lemma agg_public (a : string) (g : list Air1.work_row) :
  Air1.indice_public (Air1.agg_of_group a g)
  = if (5 <=? List.length g)%nat
    then Fin (Air1.indice_modernite_v0 (Air1.agg_of_group a g))
    else NaN.
Proof. reflexivity. Qed.

Lemma agg_penalise (a : string) (g : list Air1.work_row) :
  Air1.indice_penalise (Air1.agg_of_group a g)
  = Air1.indice_modernite_v0 (Air1.agg_of_group a g)
    * qmin 1 (Air1.Qnat (List.length g) / Air1.Qnat Air1.MIN_FLEET).
Proof. reflexivity. Qed.

(** The two recomputed columns of a row of build_features.py. *)
Lemma feature_public (braw : list BuildFeatures.raw_row)
  (r : BuildFeatures.agg_row) (s fs : Q) :
  BuildFeatures.a_new_gen_share r = Some (Fin s) ->
  BuildFeatures.a_fleet_size r = Fin fs ->
  ~ fs == 0 ->
  exists out,
    BuildFeatures.feature_of braw r = Some out
    /\ BuildFeatures.indice_public out
       = (if Qltb fs 5 then Fin 0 else Fin s)
    /\ BuildFeatures.indice_penalise out
       = (if Qltb fs 5 then Fin (s * 0.8) else Fin s).
Proof.
  intros Hs Hfs Hnz. unfold BuildFeatures.feature_of.
  rewrite Hs, Hfs, !(ratio_nonzero_den _ Hnz).
  unfold Frame.bind. eexists. split; [reflexivity|].
  unfold BuildFeatures.small_fleet. simpl.
  unfold BuildFeatures.MIN_FLEET.
  destruct (Qltb fs 5); split; reflexivity.
Qed.

(** C1, amended.  In air1_generate_features.py, a group of fewer than 5
    aircraft has a null indice_public and an indice_penalise of
    v0 * min(1, fleet_size / 5), and a group of 5 or more has both equal
    to v0.  In build_features.py, which recomputes both columns from
    new_gen_share, a row of non-zero fleet_size is produced; with a fleet
    below 5 its indice_public is 0 and its indice_penalise is
    0.8 * new_gen_share, and with a fleet of 5 or more both are equal to
    new_gen_share. *)
Theorem C1_small_fleet_variants :
  forall (raw : list Air1.raw_row) (row : Air1.agg_row)
         (braw : list BuildFeatures.raw_row) (r : BuildFeatures.agg_row)
         (s fs : Q),
    In row (Air1.features raw) ->
    BuildFeatures.a_new_gen_share r = Some (Fin s) ->
    BuildFeatures.a_fleet_size r = Fin fs ->
    ~ fs == 0 ->
    let v0 := Air1.indice_modernite_v0 row in
    let n := Air1.fleet_size row in
    ((n < 5)%nat ->
       Air1.indice_public row = NaN
       /\ Air1.indice_penalise row == v0 * qmin 1 (Air1.Qnat n / 5))
    /\ ((5 <= n)%nat ->
       Air1.indice_public row = Fin v0
       /\ Air1.indice_penalise row == v0)
    /\ exists out,
         BuildFeatures.feature_of braw r = Some out
         /\ (fs < 5 ->
             BuildFeatures.indice_public out = Fin 0
             /\ BuildFeatures.indice_penalise out = Fin (s * 0.8))
         /\ (5 <= fs ->
             BuildFeatures.indice_public out = Fin s
             /\ BuildFeatures.indice_penalise out = Fin s).
Proof.
  intros raw row braw r s fs Hrow Hs Hfs Hnz v0 n.
  apply features_rows in Hrow. destruct Hrow as (a & ->).
  destruct (feature_public braw r Hs Hfs Hnz) as (out & Hout & Hpub & Hpen).
  subst v0 n.
  rewrite agg_fleet_size, agg_public, agg_penalise.
  set (g := Air1.group a (map Air1.work_of raw)).
  set (v0 := Air1.indice_modernite_v0 (Air1.agg_of_group a g)).
  split; [|split].
  - intro H. split; [|reflexivity].
    destruct (Nat.leb_spec 5 (List.length g)); [lia | reflexivity].
  - intro H. split.
    + destruct (Nat.leb_spec 5 (List.length g)); [reflexivity | lia].
    + rewrite (full_fleet_factor H). lra.
  - exists out. split; [exact Hout|]. rewrite Hpub, Hpen. split.
    + intro H. apply Qltb_true in H. rewrite H. split; reflexivity.
    + intro H. apply Qltb_false in H. rewrite H. split; reflexivity.
Qed.

End SmallFleet.

Section SmallFleetExamples.

Import Frame Num Unicode Statements Examples.
Open Scope string_scope.
Open Scope Q_scope.

Lemma small_row_in : In small_row (Air1.features small_raw).
Proof. left. reflexivity. Defined.

Lemma small_fleet_nonzero : ~ 3 == 0.
Proof. intro H. discriminate H. Defined.

Lemma C1_witness :
  Air1.fleet_size small_row = 3%nat
  /\ Air1.indice_public small_row = NaN
  /\ Air1.indice_penalise small_row
     == Air1.indice_modernite_v0 small_row * qmin 1 (3 / 5)
  /\ exists out,
       BuildFeatures.feature_of [] small_agg = Some out
       /\ BuildFeatures.indice_public out = Fin 0
       /\ BuildFeatures.indice_penalise out = Fin (0.5 * 0.8).
Proof.
  pose proof (@C1_small_fleet_variants ascii_only small_raw small_row
                [] small_agg 0.5 3 small_row_in eq_refl eq_refl
                small_fleet_nonzero) as H.
  cbv zeta in H. destruct H as (Hsmall & _ & out & Hout & Hbf & _).
  split; [reflexivity|].
  assert (Hn : (Air1.fleet_size small_row < 5)%nat) by (vm_compute; lia).
  destruct (Hsmall Hn) as [Hp Hq].
  assert (Hf : 3 < 5) by (unfold Qlt; simpl; lia).
  destruct (Hbf Hf) as [Hp' Hq'].
  split; [exact Hp|]. split; [exact Hq|].
  exists out. auto.
Defined.

(** C1, as stated, fails on build_features.py: for a fleet of 3 and a raw
    index of 0.5 the public value is the number 0, not a null, and the
    penalised value is 0.4, not 0.5 * min(1, 3/5) = 0.3. *)
Lemma C1_counterexample :
  BuildFeatures.a_fleet_size small_agg = Fin 3
  /\ BuildFeatures.a_new_gen_share small_agg = Some (Fin 0.5)
  /\ exists out,
       BuildFeatures.feature_of [] small_agg = Some out
       /\ BuildFeatures.indice_public out = Fin 0
       /\ isna (BuildFeatures.indice_public out) = false
       /\ BuildFeatures.indice_penalise out =c= Fin 0.4
       /\ ~ (BuildFeatures.indice_penalise out
               =c= Fin (0.5 * qmin 1 (3 / 5))).
Proof.
  split; [reflexivity|]. split; [reflexivity|].
  eexists. split; [vm_compute; reflexivity|].
  repeat split.
  vm_compute. discriminate.
Qed.

End SmallFleetExamples.
(* ------------------------------------------------------------------ *)
(** ** The classifier *)

Section NeedsLetter.

Import Frame Text Regex Classifier Statements.
Local Open Scope string_scope.

Variable c : ascii.

Lemma lit_dead (l : string) (prev : option ascii) (s : string) (k : cont) :
  dead c k -> lacks c s -> lit true l prev s k = false.
Proof.
  intro Hk. revert prev s. induction l as [|x l IH]; intros prev s Hs; simpl.
  - apply Hk, Hs.
  - destruct s as [|y t]; [reflexivity|]. destruct Hs as [_ Ht].
    rewrite (IH (Some y) t Ht). apply andb_false_r.
Qed.

Lemma lit_occurs (l : string) (prev : option ascii) (s : string) (k : cont) :
  occurs c l = true -> lacks c s -> lit true l prev s k = false.
Proof.
  revert prev s. induction l as [|x l IH]; intros prev s Ho Hs; simpl.
  - discriminate.
  - destruct s as [|y t]; [reflexivity|]. destruct Hs as [Hy Ht].
    simpl in Ho. destruct (Ascii.eqb_spec x c) as [E | Hne].
    + subst x. unfold same in Hy |- *. simpl in Hy |- *.
      rewrite Hy. reflexivity.
    + simpl in Ho. rewrite (IH (Some y) t Ho Ht). apply andb_false_r.
Qed.

Lemma one_dead (p : ascii -> bool) (s : string) (k : cont) :
  dead c k -> lacks c s -> one p s k = false.
Proof.
  intros Hk Hs. destruct s as [|y t]; [reflexivity|]. simpl.
  destruct Hs as [_ Ht]. rewrite (Hk (Some y) t Ht). apply andb_false_r.
Qed.

(** A pattern hands to its continuation a suffix of its input. *)
Lemma m_dead (r : re) :
  forall (prev : option ascii) (s : string) (k : cont),
    dead c k -> lacks c s -> m true r prev s k = false.
Proof.
  induction r as [l| | | | |cs| | |a IHa b IHb|a IHa b IHb|a IHa|a IHa
                 |a IHa|lo hi a IHa];
    intros prev s k Hk Hs; simpl.
  - apply lit_dead; assumption.
  - apply one_dead; assumption.
  - apply one_dead; assumption.
  - apply one_dead; assumption.
  - apply one_dead; assumption.
  - apply one_dead; assumption.
  - rewrite (Hk prev s Hs). apply andb_false_r.
  - destruct prev; [reflexivity | apply Hk, Hs].
  - apply IHa; [|exact Hs]. intros p' s' Hs'. apply IHb; assumption.
  - rewrite (IHa prev s k Hk Hs), (IHb prev s k Hk Hs). reflexivity.
  - apply IHa; assumption.
  - rewrite (IHa prev s k Hk Hs), (Hk prev s Hs). reflexivity.
  - generalize (String.length s) at 1. intro fuel.
    revert prev s Hs. induction fuel as [|fuel IHf]; intros prev s Hs.
    + rewrite (Hk prev s Hs). reflexivity.
    + rewrite (Hk prev s Hs). simpl. apply IHa; [|exact Hs].
      intros p' s' Hs'. rewrite (IHf p' s' Hs'). apply andb_false_r.
  - assert (Hmore : forall may prev s, lacks c s ->
              (fix more (may : nat) (prev : option ascii) (s : string)
                 {struct may} : bool :=
                 k prev s ||
                 match may with
                 | O => false
                 | S may' => m true a prev s (fun p' s' => more may' p' s')
                 end) may prev s = false).
    { induction may as [|may IHm]; intros p0 s0 Hs0.
      - rewrite (Hk p0 s0 Hs0). reflexivity.
      - rewrite (Hk p0 s0 Hs0). simpl. apply IHa; [|exact Hs0].
        intros p' s' Hs'. apply IHm, Hs'. }
    set (n := (hi - lo)%nat). clearbody n.
    revert prev s Hs. induction lo as [|lo IHlo]; intros prev s Hs.
    + apply Hmore, Hs.
    + apply IHa; [|exact Hs]. intros p' s' Hs'. apply IHlo, Hs'.
Qed.

Lemma m_needs (r : re) :
  needs c r = true ->
  forall (prev : option ascii) (s : string) (k : cont),
    lacks c s -> m true r prev s k = false.
Proof.
  induction r as [l| | | | |cs| | |a IHa b IHb|a IHa b IHb|a IHa|a IHa
                 |a IHa|lo hi a IHa];
    simpl; intro Hn; try discriminate; intros prev s k Hs.
  - apply lit_occurs; assumption.
  - apply orb_true_iff in Hn. destruct Hn as [Hn | Hn].
    + apply IHa; assumption.
    + apply m_dead; [|exact Hs]. intros p' s' Hs'. apply IHb; assumption.
  - apply andb_true_iff in Hn. destruct Hn as [Ha Hb].
    rewrite (IHa Ha prev s k Hs), (IHb Hb prev s k Hs). reflexivity.
  - apply IHa; assumption.
Qed.

Lemma search_needs (r : re) (s : string) :
  needs c r = true -> lacks c s -> search true r s = false.
Proof.
  intros Hn. unfold search. generalize (@None ascii).
  induction s as [|x t IH]; intros prev Hs; simpl.
  - rewrite (m_needs r Hn prev "" _ Hs). reflexivity.
  - rewrite (m_needs r Hn prev (String x t) _ Hs). simpl.
    apply IH. apply Hs.
Qed.

End NeedsLetter.

Section MaxNeedsM.

Import Frame Text Regex Classifier Statements.
Local Open Scope string_scope.

Lemma lower_char_idem (x : ascii) : lower_char (lower_char x) = lower_char x.
Proof. destruct x as [[] [] [] [] [] [] [] []]; reflexivity. Qed.

Lemma lacks_lower (c : ascii) (s : string) :
  lacks c s -> lacks c (lower s).
Proof.
  induction s as [|x t IH]; simpl; [auto|]. intros [Hx Ht].
  split; [|apply IH, Ht].
  unfold same in *. rewrite lower_char_idem. exact Hx.
Qed.

(** A model designation without the letter M is never tagged MAX. *)
Lemma max_needs_the_letter_m (model : string) :
  lacks "m" model -> is_max (tag_family model) = false.
Proof.
  intro H. unfold tag_family. simpl.
  apply search_needs with (c := "m"%char); [reflexivity|].
  apply lacks_lower, H.
Qed.

End MaxNeedsM.

Section ClassifierClaims.

Import Frame Text Regex Classifier Statements.
Open Scope string_scope.

(** The pattern terms print as the patterns of the scripts. *)
Lemma PAT_source :
  map show [PAT_a220; PAT_b787; PAT_a350; PAT_a330neo; PAT_neo; PAT_max]
  = [ "\b(a220-?1(00)?|a220-?3(00)?|cs100|cs300|bd-500-1a1[01])\b";
      "\b787\b";
      "\ba350\b";
      "\b(a330-800|a330-900|a330neo|a330-?9?00?neo)\b";
      "\b(a31[9]|a32[01])[- ]?\d{2,3}n\b|\b(a31[9]|a32[01])neo\b";
      "\b(737[- ]?max|7m7|7m8|7m9|7mj|max ?(7|8|9|10))\b" ]
  /\ forallb wf [PAT_a220; PAT_b787; PAT_a350; PAT_a330neo; PAT_neo; PAT_max]
     = true.
Proof. split; reflexivity. Qed.

Lemma NEWGEN_PATTERNS_source :
  map show NEWGEN_PATTERNS
  = [ "\bneo\b";
      "\ba32\dneo\b";
      "\ba32\d-2\d{2}n\w?\b";
      "\ba31\d-1\d{2}n\w?\b";
      "\ba321\s?xlr\b";
      "\ba321\s?lr\b";
      "\b787\b";
      "\ba350\b";
      "\ba330neo\b";
      "\ba330-9\d{2}\b";
      "\ba330-8\d{2}\b";
      "\bmax\b";
      "(^|\s)b?737-7\b";
      "(^|\s)b?737-8\b";
      "(^|\s)b?737-9\b";
      "(^|\s)b?737-10\b";
      "(^|\s)b?737-8-200\b";
      "\ba220\b";
      "\bcs(100|300)\b";
      "cseries";
      "embraer.*\be2\b";
      "\be19[05]-e2\b";
      "\be19[05]-2\b";
      "\be2\b";
      "\b777x\b" ]
  /\ forallb wf NEWGEN_PATTERNS = true.
Proof. split; reflexivity. Qed.

(** The canonical marketing codes set their family tag and no other. *)
Lemma canonical_codes :
  map tag_family
    ["A320neo"; "737 MAX 8"; "787-9"; "A350-900"; "A220-300"; "A330-900neo"]
  = [ mk_tags false false false false true false;
      mk_tags false false false false false true;
      mk_tags false true false false false false;
      mk_tags false false true false false false;
      mk_tags true false false false false false;
      mk_tags false false false true false false ].
Proof. vm_compute. reflexivity. Qed.

(** C4.  [tag_family] sets is_max for "737 MAX 8" and for "7M8", and
    leaves it unset for "737-8-200": every alternative of the MAX pattern
    asks for the letters "max" or for one of the codes 7m7, 7m8, 7m9 and
    7mj.  The same holds for the other designations without the word MAX,
    and no designation without the letter M is tagged; the legacy list of
    air1_generate_features.py has a pattern for each of them and flags
    them as new-generation. *)
Theorem C4_max_family_examples :
  is_max (tag_family "737 MAX 8") = true
  /\ is_max (tag_family "7M8") = true
  /\ is_max (tag_family "737-8-200") = false
  /\ tag_family "737-8-200" = mk_tags false false false false false false
  /\ detect_new_gen (Some "737-8-200") = 1%nat
  /\ map (fun model => is_max (tag_family model))
         ["737-7"; "737-8"; "737-9"; "737-10"; "B737-8"; "B737-8-200"]
     = [false; false; false; false; false; false]
  /\ map (fun model => detect_new_gen (Some model))
         ["737-7"; "737-8"; "737-9"; "737-10"; "B737-8"; "B737-8-200"]
     = [1; 1; 1; 1; 1; 1]%nat
  /\ (forall model, lacks "m" model -> is_max (tag_family model) = false).
Proof.
  repeat split; try (vm_compute; reflexivity).
  apply max_needs_the_letter_m.
Qed.

Lemma C4_witness :
  lacks "m" "737-8-200" /\ is_max (tag_family "737-8-200") = false.
Proof.
  assert (H : lacks "m" "737-8-200") by (vm_compute; repeat split).
  split; [exact H|].
  apply (proj2 (proj2 (proj2 (proj2 (proj2 (proj2 (proj2
           C4_max_family_examples))))))), H.
Defined.

End ClassifierClaims.

(* ------------------------------------------------------------------ *)
(** ** Duplicates *)

Section Dedup.

Import Frame Text.

Variable A : Type.
Variable eqb : A -> A -> bool.
Hypothesis eqb_eq : forall x y, eqb x y = true <-> x = y.

Lemma existsb_eqb (x : A) (l : list A) :
  existsb (eqb x) l = true <-> In x l.
Proof.
  rewrite existsb_exists. split.
  - intros (y & Hy & E). apply eqb_eq in E. subst y. exact Hy.
  - intro H. exists x. split; [exact H | apply eqb_eq; reflexivity].
Qed.

Lemma dedup_by_In (l seen : list A) (x : A) :
  In x (dedup_by eqb seen l) <-> In x l /\ ~ In x seen.
Proof.
  revert seen. induction l as [|y l IH]; intro seen; simpl.
  - tauto.
  - destruct (existsb (eqb y) seen) eqn:E.
    + apply existsb_eqb in E. rewrite IH. split.
      * intros [H1 H2]. auto.
      * intros [[-> | H1] H2]; [contradiction | auto].
    + assert (Hy : ~ In y seen).
      { intro H. apply existsb_eqb in H. congruence. }
      simpl. rewrite IH. simpl. split.
      * intros [<- | [H1 H2]]; [auto | split; [auto | tauto]].
      * intros [[<- | H1] H2]; [auto|].
        destruct (eqb y x) eqn:Eyx.
        -- apply eqb_eq in Eyx. auto.
        -- right. split; [exact H1|]. intros [-> | H]; [|contradiction].
           assert (eqb x x = true) by (apply eqb_eq; reflexivity).
           congruence.
Qed.

Lemma dedup_by_NoDup (l seen : list A) : NoDup (dedup_by eqb seen l).
Proof.
  revert seen. induction l as [|y l IH]; intro seen; simpl.
  - constructor.
  - destruct (existsb (eqb y) seen) eqn:E; [apply IH|].
    constructor; [|apply IH].
    rewrite dedup_by_In. simpl. tauto.
Qed.


End Dedup.

Lemma string_eqb_eq (x y : string) : String.eqb x y = true <-> x = y.
Proof. apply String.eqb_eq. Qed.

Lemma filter_map_length (A B : Type) (f : A -> B) (p : B -> bool)
  (l : list A) :
  List.length (filter p (map f l))
  = List.length (filter (fun x => p (f x)) l).
Proof.
  induction l as [|x l IH]; simpl; [reflexivity|].
  destruct (p (f x)); simpl; rewrite IH; reflexivity.
Qed.

Lemma insert_by_In (A : Type) (leb : A -> A -> bool) (x y : A)
  (l : list A) :
  In y (Frame.insert_by leb x l) <-> y = x \/ In y l.
Proof.
  induction l as [|z l IH]; simpl.
  - intuition.
  - destruct (leb x z); simpl; [intuition|]. rewrite IH. intuition.
Qed.

Lemma sort_by_In (A : Type) (leb : A -> A -> bool) (y : A) (l : list A) :
  In y (Frame.sort_by leb l) <-> In y l.
Proof.
  induction l as [|x l IH]; simpl; [tauto|].
  rewrite insert_by_In, IH. intuition.
Qed.

Lemma unique_In (x : string) (l : list string) :
  In x (Text.unique l) <-> In x l.
Proof.
  unfold Text.unique. rewrite (dedup_by_In _ string_eqb_eq). simpl. tauto.
Qed.

Lemma unique_NoDup (l : list string) : NoDup (Text.unique l).
Proof. apply (dedup_by_NoDup _ string_eqb_eq). Qed.

(* ------------------------------------------------------------------ *)
(** ** The fleet aggregator *)

Section Aggregator.

Import Frame Text Num Unicode Classifier Statements Examples.
Open Scope string_scope.

Context {U : unicodedata}.

Lemma pair_eqb_eq (x y : string * string) :
  BuildFeatures.pair_eqb x y = true <-> x = y.
Proof.
  destruct x as [a m], y as [a' m']. unfold BuildFeatures.pair_eqb. simpl.
  rewrite andb_true_iff, !String.eqb_eq. split.
  - intros [-> ->]. reflexivity.
  - intro H. injection H as -> ->. auto.
Qed.

Lemma dropna_pairs_In (raw : list BuildFeatures.raw_row) (a m : string) :
  In (a, m) (BuildFeatures.dropna_pairs raw) <-> observed raw a m.
Proof.
  unfold observed. induction raw as [|r raw IH]; simpl.
  - split; [tauto | intros (r & [] & _)].
  - destruct (snd r) as [m0|] eqn:E; simpl; rewrite IH; split.
    + intros [H | (r' & H1 & H2)].
      * injection H as <- <-. exists r. auto.
      * exists r'. tauto.
    + intros (r' & [<- | H1] & H2 & H3).
      * left. rewrite E in H3. injection H3 as ->. rewrite H2. reflexivity.
      * right. exists r'. auto.
    + intros (r' & H1 & H2). exists r'. tauto.
    + intros (r' & [<- | H1] & H2 & H3); [congruence|].
      exists r'. auto.
Qed.

Lemma models_of_In (raw : list BuildFeatures.raw_row) (a m : string) :
  In m (BuildFeatures.models_of a raw) <-> observed raw a m.
Proof.
  unfold observed. induction raw as [|r raw IH]; simpl.
  - split; [tauto | intros (r & [] & _)].
  - destruct (snd r) as [m0|] eqn:E.
    + destruct (String.eqb_spec (BuildFeatures.airline_norm r) a) as [Ha|Ha];
        simpl; rewrite IH; split.
      * intros [<- | (r' & H1 & H2)]; [exists r; auto | exists r'; tauto].
      * intros (r' & [<- | H1] & H2 & H3).
        -- left. congruence.
        -- right. exists r'. auto.
      * intros (r' & H1 & H2). exists r'. tauto.
      * intros (r' & [<- | H1] & H2 & H3); [contradiction|].
        exists r'. auto.
    + rewrite IH. split.
      * intros (r' & H1 & H2). exists r'. tauto.
      * intros (r' & [<- | H1] & H2 & H3); [congruence|].
        exists r'. auto.
Qed.

Lemma NoDup_map_snd (l : list (string * string)) (a : string) :
  NoDup l -> (forall p, In p l -> fst p = a) -> NoDup (map snd l).
Proof.
  induction 1 as [|p l Hp Hl IH]; intro Hfst; simpl; constructor.
  - intro Hin. apply in_map_iff in Hin. destruct Hin as (p' & E & Hp').
    assert (p' = p); [|subst; contradiction].
    destruct p as [x m], p' as [x' m']. simpl in E. subst m'.
    f_equal.
    pose proof (Hfst (x', m) (or_intror Hp')) as E1.
    pose proof (Hfst (x, m) (or_introl eq_refl)) as E2.
    simpl in E1, E2. congruence.
  - apply IH. intros q Hq. apply Hfst. right. exact Hq.
Qed.

(** The count of a family for an airline is the number of distinct
    models of that family observed for it. *)
Lemma family_count_distinct (flag : tags -> bool) (a : string)
  (raw : list BuildFeatures.raw_row) :
  exists ms,
    NoDup ms
    /\ (forall m, In m ms <->
                  observed raw a m /\ flag (tag_family m) = true)
    /\ BuildFeatures.count_tag flag a (BuildFeatures.models_tagged raw)
       = List.length ms.
Proof.
  set (sel := fun p : string * string =>
                String.eqb (fst p) a && flag (tag_family (snd p))).
  exists (map snd (filter sel (BuildFeatures.models_by_airline raw))).
  split; [|split].
  - apply NoDup_map_snd with (a := a).
    + apply NoDup_filter.
      apply (dedup_by_NoDup _ pair_eqb_eq).
    + intros p Hp. apply filter_In in Hp. destruct Hp as [_ Hp].
      unfold sel in Hp. apply andb_true_iff in Hp.
      apply String.eqb_eq, Hp.
  - intro m. rewrite in_map_iff. split.
    + intros ([a' m'] & E & Hp). simpl in E. subst m'.
      apply filter_In in Hp. destruct Hp as [Hin Hsel].
      unfold sel in Hsel. simpl in Hsel.
      apply andb_true_iff in Hsel. destruct Hsel as [Ha Hf].
      apply String.eqb_eq in Ha. subst a'.
      unfold BuildFeatures.models_by_airline in Hin.
      apply (dedup_by_In _ pair_eqb_eq) in Hin.
      split; [apply dropna_pairs_In, Hin | exact Hf].
    + intros [Hobs Hf]. exists (a, m). split; [reflexivity|].
      apply filter_In. split.
      * unfold BuildFeatures.models_by_airline.
        apply (dedup_by_In _ pair_eqb_eq). split; [|simpl; tauto].
        apply dropna_pairs_In, Hobs.
      * unfold sel. simpl. rewrite String.eqb_refl. exact Hf.
  - unfold BuildFeatures.count_tag, BuildFeatures.models_tagged.
    rewrite filter_map_length, length_map. reflexivity.
Qed.

Lemma n_models_distinct (a : string) (raw : list BuildFeatures.raw_row) :
  exists ms,
    NoDup ms
    /\ (forall m, In m ms <-> observed raw a m)
    /\ BuildFeatures.nunique_models a raw = List.length ms.
Proof.
  exists (unique (BuildFeatures.models_of a raw)).
  split; [apply unique_NoDup|]. split; [|reflexivity].
  intro m. rewrite unique_In. apply models_of_In.
Qed.

Lemma present_In (l : list (option string)) (x : string) :
  In x (Air1.present l) <-> In (Some x) l.
Proof.
  induction l as [|[y|] l IH]; simpl.
  - tauto.
  - rewrite IH. split.
    + intros [-> | H]; auto.
    + intros [H | H]; [injection H as ->; auto | auto].
  - rewrite IH. split; [auto|]. intros [H | H]; [discriminate | exact H].
Qed.

(** The fleet size of air1_generate_features.py counts the raw rows of
    the airline. *)
Lemma fleet_size_counts_rows (raw : list Air1.raw_row)
  (row : Air1.agg_row) :
  In row (Air1.features raw) ->
  Air1.fleet_size row
  = List.length (filter (named (Air1.airline row)) raw).
Proof.
  intro H. apply features_rows in H. destruct H as (a & ->).
  simpl. unfold Air1.group.
  rewrite (filter_map_length Air1.work_of (Air1.has_key a)).
  reflexivity.
Qed.

Lemma features_names (raw : list Air1.raw_row) (a : string) :
  In a (map Air1.airline (Air1.features raw))
  <-> exists r, In r raw /\ Air1.normalize_text (fst r) = Some a.
Proof.
  unfold Air1.features, Air1.agg. rewrite map_map. simpl. rewrite map_id.
  unfold sort. rewrite sort_by_In, unique_In, present_In, map_map.
  rewrite in_map_iff. split.
  - intros (r & E & H). exists r. split; [exact H | exact E].
  - intros (r & H & E). exists r. split; [exact E | exact H].
Qed.





(** A row of the aggregate stands for at least one raw row. *)
Lemma features_fleet_pos (raw : list Air1.raw_row) (row : Air1.agg_row) :
  In row (Air1.features raw) -> (1 <= Air1.fleet_size row)%nat.
Proof.
  intro H. rewrite (fleet_size_counts_rows _ _ H).
  assert (Hn : In (Air1.airline row)
                  (map Air1.airline (Air1.features raw)))
    by (apply in_map; exact H).
  apply features_names in Hn. destruct Hn as (r & Hr & E).
  assert (Hf : In r (filter (named (Air1.airline row)) raw)).
  { apply filter_In. split; [exact Hr|].
    unfold named. rewrite E. apply String.eqb_refl. }
  destruct (filter (named (Air1.airline row)) raw);
    [destruct Hf | simpl; lia].
Qed.






End Aggregator.

Section AggregatorClaims.

Import Frame Text Num Unicode Classifier Statements Examples.
Open Scope string_scope.




End AggregatorClaims.

(* ------------------------------------------------------------------ *)
(** ** Orders and sorting *)

Section StringOrder.

Local Open Scope string_scope.

Lemma ascii_compare_lt_trans (a b c : ascii) :
  Ascii.compare a b = Lt -> Ascii.compare b c = Lt -> Ascii.compare a c = Lt.
Proof.
  unfold Ascii.compare. rewrite !N.compare_lt_iff. apply N.lt_trans.
Qed.

Lemma string_compare_lt_trans (s1 s2 s3 : string) :
  String.compare s1 s2 = Lt -> String.compare s2 s3 = Lt ->
  String.compare s1 s3 = Lt.
Proof.
  revert s2 s3. induction s1 as [|a s1 IH]; intros [|b s2] [|c s3]; simpl;
    try discriminate; try reflexivity.
  destruct (Ascii.compare a b) eqn:Eab; try discriminate.
  - apply Ascii.compare_eq_iff in Eab. subst b.
    destruct (Ascii.compare a c); try discriminate; [|reflexivity].
    apply IH.
  - destruct (Ascii.compare b c) eqn:Ebc; try discriminate.
    + apply Ascii.compare_eq_iff in Ebc. subst c. rewrite Eab. reflexivity.
    + rewrite (ascii_compare_lt_trans _ _ _ Eab Ebc). reflexivity.
Qed.

Lemma string_leb_trans (s1 s2 s3 : string) :
  String.leb s1 s2 = true -> String.leb s2 s3 = true ->
  String.leb s1 s3 = true.
Proof.
  unfold String.leb.
  destruct (String.compare s1 s2) eqn:E12; try discriminate;
    destruct (String.compare s2 s3) eqn:E23; try discriminate; intros _ _.
  - apply String.compare_eq_iff in E12, E23. subst.
    rewrite E23 || (destruct (String.compare s3 s3) eqn:E; auto).
    pose proof (String.compare_antisym s3 s3) as H. rewrite E in H.
    discriminate.
  - apply String.compare_eq_iff in E12. subst. rewrite E23. reflexivity.
  - apply String.compare_eq_iff in E23. subst. rewrite E12. reflexivity.
  - rewrite (string_compare_lt_trans _ _ _ E12 E23). reflexivity.
Qed.

End StringOrder.

Section Sorting.

Import Frame.

Variable A : Type.
Variable leb : A -> A -> bool.

Lemma insert_by_Permutation (x : A) (l : list A) :
  Permutation (insert_by leb x l) (x :: l).
Proof.
  induction l as [|y l IH]; simpl; [reflexivity|].
  destruct (leb x y); [reflexivity|].
  rewrite IH. apply perm_swap.
Qed.

Lemma sort_by_Permutation (l : list A) : Permutation (sort_by leb l) l.
Proof.
  induction l as [|x l IH]; simpl; [reflexivity|].
  rewrite insert_by_Permutation. constructor. exact IH.
Qed.

Hypothesis leb_total : forall x y, leb x y = true \/ leb y x = true.
Hypothesis leb_trans :
  forall x y z, leb x y = true -> leb y z = true -> leb x z = true.

Lemma insert_by_sorted (x : A) (l : list A) :
  StronglySorted (fun a b => leb a b = true) l ->
  StronglySorted (fun a b => leb a b = true) (insert_by leb x l).
Proof.
  induction 1 as [|y l Hs IH Hy]; simpl.
  - repeat constructor.
  - destruct (leb x y) eqn:E.
    + constructor; [constructor; assumption|].
      constructor; [exact E|].
      rewrite Forall_forall in *. intros z Hz.
      apply (leb_trans E (Hy z Hz)).
    + constructor; [exact IH|].
      rewrite Forall_forall in *. intros z Hz.
      apply insert_by_In in Hz. destruct Hz as [-> | Hz]; [|apply Hy, Hz].
      destruct (leb_total x y) as [H | H]; [congruence | exact H].
Qed.

Lemma sort_by_sorted (l : list A) :
  StronglySorted (fun a b => leb a b = true) (sort_by leb l).
Proof.
  induction l as [|x l IH]; simpl; [constructor|].
  apply insert_by_sorted, IH.
Qed.

End Sorting.

Section SortedKeys.

Import Frame Text.
Local Open Scope string_scope.

Lemma mem_In (c : string) (l : list string) : mem c l = true <-> In c l.
Proof. apply (existsb_eqb _ string_eqb_eq). Qed.

Lemma keys_NoDup (l : list string) : NoDup (sort (unique l)).
Proof.
  apply (Permutation_NoDup (l := unique l)).
  - symmetry. apply sort_by_Permutation.
  - apply unique_NoDup.
Qed.

Lemma leb_ltb (a b : string) :
  String.leb a b = true -> a <> b -> String.ltb a b = true.
Proof.
  unfold String.leb, String.ltb.
  destruct (String.compare a b) eqn:E; try discriminate; try reflexivity.
  intros _ H. apply String.compare_eq_iff in E. contradiction.
Qed.

Lemma sorted_NoDup_strict (l : list string) :
  StronglySorted (fun a b => String.leb a b = true) l -> NoDup l ->
  StronglySorted (fun a b => String.ltb a b = true) l.
Proof.
  induction 1 as [|x l Hs IH Hx]; intro Hnd; [constructor|].
  inversion Hnd as [|? ? Hn Hnd']; subst.
  constructor; [apply IH, Hnd'|].
  rewrite Forall_forall in *. intros y Hy.
  apply leb_ltb; [apply Hx, Hy|].
  intros ->. contradiction.
Qed.

Lemma sort_unique_strict (l : list string) :
  StronglySorted (fun a b => String.ltb a b = true) (sort (unique l)).
Proof.
  apply sorted_NoDup_strict; [|apply keys_NoDup].
  apply sort_by_sorted; [apply String.leb_total | apply string_leb_trans].
Qed.

Lemma dedup_by_sorted (A : Type) (eqb : A -> A -> bool) (R : A -> A -> Prop)
  (l seen : list A) :
  StronglySorted R l -> StronglySorted R (dedup_by eqb seen l).
Proof.
  intro H. revert seen.
  induction H as [|x l Hs IH Hx]; intro seen; simpl; [constructor|].
  destruct (existsb (eqb x) seen); [apply IH|].
  constructor; [apply IH|].
  rewrite Forall_forall in *. intros y Hy. apply Hx.
  clear - Hy. revert Hy. generalize (x :: seen). clear.
  induction l as [|z l IH]; intro seen; simpl; [tauto|].
  destruct (existsb (eqb z) seen).
  - intro H. right. apply (IH _ H).
  - intros [-> | H]; [left; reflexivity | right; apply (IH _ H)].
Qed.

End SortedKeys.

(* ------------------------------------------------------------------ *)
(** ** Stripping *)

Section Strip.

Import Frame Text Statements.
Local Open Scope string_scope.

Variable p : ascii -> bool.

Lemma lstrip_by_lstripped (s : string) : lstripped p (lstrip_by p s).
Proof.
  induction s as [|c s IH]; simpl; [exact I|].
  destruct (p c) eqn:E; [exact IH | exact E].
Qed.

Lemma lstrip_by_fix (s : string) : lstripped p s -> lstrip_by p s = s.
Proof.
  destruct s as [|c s]; simpl; [reflexivity|]. intros ->. reflexivity.
Qed.

Lemma rstrip_by_lstripped (s : string) :
  lstripped p s -> lstripped p (rstrip_by p s).
Proof.
  destruct s as [|c s]; simpl; [auto|]. intro H.
  destruct (rstrip_by p s); [rewrite H|]; exact H.
Qed.

Lemma rstrip_by_idem (s : string) :
  rstrip_by p (rstrip_by p s) = rstrip_by p s.
Proof.
  induction s as [|c s IH]; simpl; [reflexivity|].
  destruct (rstrip_by p s) as [|d t] eqn:E.
  - destruct (p c) eqn:Ec; simpl; [reflexivity|]. rewrite Ec. reflexivity.
  - simpl. simpl in IH. rewrite IH. reflexivity.
Qed.

Lemma strip_by_idem (s : string) : strip_by p (strip_by p s) = strip_by p s.
Proof.
  unfold strip_by.
  rewrite (lstrip_by_fix (rstrip_by p (lstrip_by p s))).
  - apply rstrip_by_idem.
  - apply rstrip_by_lstripped, lstrip_by_lstripped.
Qed.

End Strip.

Lemma strip_idem (s : string) : Text.strip (Text.strip s) = Text.strip s.
Proof. apply strip_by_idem. Qed.

(* ------------------------------------------------------------------ *)
(** ** The country mapping file *)

Section CountryMapClaims.

Import Frame Text CountryMap Statements Examples.
Local Open Scope string_scope.

Variable pycountry : option (string -> option string).
Variable translator : option (string -> option string).

Lemma countries_stripped (raw : list (option string)) (c : string) :
  In c (countries_of raw) -> strip c = c.
Proof.
  unfold countries_of, sort. rewrite unique_In, sort_by_In, in_map_iff.
  intros (x & <- & _). apply strip_idem.
Qed.

Lemma map_strip_countries (raw : list (option string)) :
  map strip (countries_of raw) = countries_of raw.
Proof.
  rewrite <- (map_id (countries_of raw)) at 2.
  apply map_ext_in. intros c Hc. apply (countries_stripped _ _ Hc).
Qed.

Lemma auto_fill_country (row : map_row) :
  country (auto_fill pycountry translator row) = country row.
Proof. reflexivity. Qed.

Lemma carry_over_country (old : option (list map_row)) (c : string) :
  country (carry_over old c) = strip c.
Proof.
  unfold carry_over. destruct old as [old|]; [|reflexivity].
  destruct (find_row (strip c) old); reflexivity.
Qed.

Lemma main_countries (raw : list (option string))
  (file : option (list map_row)) :
  map country (main pycountry translator raw file) = countries_of raw.
Proof.
  unfold CountryMap.main. rewrite !map_map.
  rewrite <- (map_strip_countries raw) at 2.
  apply map_ext. intro c.
  rewrite auto_fill_country. apply carry_over_country.
Qed.

Lemma find_row_NoDup (old : list map_row) (o : map_row) :
  NoDup (map country old) -> In o old -> find_row (country o) old = Some o.
Proof.
  induction old as [|x old IH]; simpl; [tauto|].
  intros Hnd [-> | Hin].
  - rewrite String.eqb_refl. reflexivity.
  - inversion Hnd as [|? ? Hx Hnd']; subst.
    destruct (String.eqb_spec (country x) (country o)) as [E | E].
    + exfalso. apply Hx. rewrite E. apply in_map. exact Hin.
    + apply IH; assumption.
Qed.

Lemma auto_fill_keeps (row : map_row) :
  (nonempty (strip (region row)) = true ->
   region (auto_fill pycountry translator row) = region row)
  /\ (nonempty (strip (country_code row)) = true ->
      country_code (auto_fill pycountry translator row) = country_code row).
Proof.
  unfold CountryMap.auto_fill. simpl.
  split; intros ->; reflexivity.
Qed.

Lemma countries_sorted (raw : list (option string)) :
  StronglySorted (fun a b => String.ltb a b = true) (countries_of raw).
Proof.
  apply sorted_NoDup_strict; [|apply unique_NoDup].
  unfold countries_of, unique. apply dedup_by_sorted.
  apply sort_by_sorted; [apply String.leb_total | apply string_leb_trans].
Qed.

Lemma countries_of_In (raw : list (option string)) (c : string) :
  In c (countries_of raw) <-> exists x, In (Some x) raw /\ strip x = c.
Proof.
  unfold countries_of, sort.
  rewrite unique_In, sort_by_In, in_map_iff. split.
  - intros (x & E & Hx). exists x. split; [|exact E].
    clear - Hx. induction raw as [|[y|] raw IH]; simpl in *;
      [contradiction | | right; apply IH, Hx].
    destruct Hx as [-> | Hx]; [left; reflexivity | right; apply IH, Hx].
  - intros (x & Hx & E). exists x. split; [exact E|].
    clear - Hx. induction raw as [|[y|] raw IH]; simpl in *;
      [contradiction | |].
    + destruct Hx as [E | Hx];
        [injection E as ->; left; reflexivity | right; apply IH, Hx].
    + destruct Hx as [E | Hx]; [discriminate | apply IH, Hx].
Qed.

Lemma manual_entries : forallb (fun kv => manual_entry (fst kv)) MANUAL_ALPHA2
                       = true.
Proof. vm_compute. reflexivity. Qed.

Lemma find_row_absent (c : string) (old : list map_row) :
  ~ In c (map country old) -> find_row c old = None.
Proof.
  induction old as [|r old IH]; simpl; [reflexivity|].
  intro H. destruct (String.eqb_spec (country r) c) as [E | _].
  - exfalso. apply H. left. exact E.
  - apply IH. intro Hin. apply H. right. exact Hin.
Qed.

Lemma lookup_In (k v : string) (t : list (string * string)) :
  lookup k t = Some v -> In (k, v) t.
Proof.
  induction t as [|[k' v'] t IH]; simpl; [discriminate|].
  destruct (String.eqb_spec k k') as [-> | _].
  - intro H. injection H as ->. left. reflexivity.
  - intro H. right. apply IH, H.
Qed.

(** A name of MANUAL_ALPHA2 is not blank and its code is not empty. *)
Lemma manual_code (c code : string) :
  lookup c MANUAL_ALPHA2 = Some code ->
  nonempty (strip c) = true /\ nonempty code = true.
Proof.
  intro H. pose proof (lookup_In _ _ H) as Hin.
  pose proof (proj1 (forallb_forall _ _) manual_entries _ Hin) as Hm.
  simpl in Hm. unfold manual_entry in Hm. rewrite H in Hm.
  destruct (lookup c MANUAL_REGION); [|discriminate].
  apply andb_true_iff in Hm. destruct Hm as [Hm Hs].
  apply andb_true_iff in Hm. destruct Hm as [Hm Hne].
  apply andb_true_iff in Hm. destruct Hm as [Hlen _].
  apply String.eqb_eq in Hs. apply Nat.eqb_eq in Hlen.
  rewrite Hs. split; [exact Hne|].
  destruct code; [discriminate Hlen | reflexivity].
Qed.

(** What step 3bis makes of a blank value. *)
Lemma auto_fill_blank (row : map_row) :
  (nonempty (strip (region row)) = false ->
   forall r, lookup (country row) MANUAL_REGION = Some r ->
             region (auto_fill pycountry translator row) = r)
  /\ (nonempty (strip (region row)) = false ->
      lookup (country row) MANUAL_REGION = None ->
      region (auto_fill pycountry translator row) = region row)
  /\ (nonempty (strip (country_code row)) = false ->
      forall code, lookup (country row) MANUAL_ALPHA2 = Some code ->
                   country_code (auto_fill pycountry translator row) = code)
  /\ (nonempty (strip (country_code row)) = false ->
      nonempty (guess_iso_code pycountry translator (country row)) = true ->
      country_code (auto_fill pycountry translator row)
      = guess_iso_code pycountry translator (country row))
  /\ (nonempty (strip (country_code row)) = false ->
      guess_iso_code pycountry translator (country row) = "" ->
      country_code (auto_fill pycountry translator row) = country_code row).
Proof.
  unfold CountryMap.auto_fill. cbn [country country_code region].
  split; [|split; [|split; [|split]]].
  - intros -> r ->. reflexivity.
  - intros -> ->. reflexivity.
  - intros -> code Hc. cbn [negb].
    destruct (manual_code _ Hc) as [Hne Hcode].
    assert (E : guess_iso_code pycountry translator (country row) = code).
    { unfold guess_iso_code. rewrite Hne. cbn [negb].
      destruct (strip (country row)) eqn:Es; [discriminate Hne|].
      rewrite <- Es.
      pose proof (lookup_In _ _ Hc) as Hin.
      pose proof (proj1 (forallb_forall _ _) manual_entries _ Hin) as Hm.
      simpl in Hm. unfold manual_entry in Hm. rewrite Hc in Hm.
      destruct (lookup (country row) MANUAL_REGION); [|discriminate].
      apply andb_true_iff in Hm. destruct Hm as [_ Hs].
      apply String.eqb_eq in Hs. rewrite Hs, Hc. reflexivity. }
    rewrite E, Hcode. reflexivity.
  - intros -> ->. reflexivity.
  - intros -> ->. reflexivity.
Qed.

(** C7, amended.  One run rewrites the mapping file from the countries
    of the raw sheet, the previous file listing each country once: the
    new file has one row per distinct observed country, in strictly
    increasing order.  A row of the previous file whose country is still
    observed is written after step 3bis: it keeps its country_code and
    its region when they are not blank.  Step 3bis replaces a blank
    region by the region of MANUAL_REGION when the country is there, and
    leaves it otherwise; it replaces a blank code by the answer of
    guess_iso_code, which is the code of MANUAL_ALPHA2 when the country
    is there, and leaves it when that answer is empty.  A country that
    the previous file does not have gets a row filled in this way from
    two blank values.  A row of the previous file whose country is no
    longer observed is not carried over. *)
Theorem C7_mapping_is_rebuilt_from_observed_countries :
  forall (raw : list (option string)) (file : list map_row),
    NoDup (map country (load_old file)) ->
    let written := main pycountry translator raw (Some file) in
    map country written = countries_of raw
    /\ StronglySorted (fun a b => String.ltb a b = true)
         (map country written)
    /\ NoDup (map country written)
    /\ (forall c, In c (map country written)
                  <-> exists x, In (Some x) raw /\ strip x = c)
    /\ (forall o,
          In o (load_old file) -> In (country o) (countries_of raw) ->
          In (auto_fill pycountry translator o) written)
    /\ (forall c,
          In c (countries_of raw) ->
          ~ In c (map country (load_old file)) ->
          In (auto_fill pycountry translator (mk_row c "" "")) written)
    /\ (forall row,
          country (auto_fill pycountry translator row) = country row
          /\ (nonempty (strip (region row)) = true ->
              region (auto_fill pycountry translator row) = region row)
          /\ (nonempty (strip (country_code row)) = true ->
              country_code (auto_fill pycountry translator row)
              = country_code row)
          /\ (nonempty (strip (region row)) = false ->
              forall r, lookup (country row) MANUAL_REGION = Some r ->
                        region (auto_fill pycountry translator row) = r)
          /\ (nonempty (strip (region row)) = false ->
              lookup (country row) MANUAL_REGION = None ->
              region (auto_fill pycountry translator row) = region row)
          /\ (nonempty (strip (country_code row)) = false ->
              forall code,
                lookup (country row) MANUAL_ALPHA2 = Some code ->
                country_code (auto_fill pycountry translator row) = code)
          /\ (nonempty (strip (country_code row)) = false ->
              nonempty (guess_iso_code pycountry translator (country row))
              = true ->
              country_code (auto_fill pycountry translator row)
              = guess_iso_code pycountry translator (country row))
          /\ (nonempty (strip (country_code row)) = false ->
              guess_iso_code pycountry translator (country row) = "" ->
              country_code (auto_fill pycountry translator row)
              = country_code row))
    /\ (forall o,
          In o (load_old file) -> ~ In (country o) (countries_of raw) ->
          forall r, In r written -> country r <> country o).
Proof.
  intros raw file Hnd written. unfold written.
  split; [apply main_countries|].
  split; [rewrite main_countries; apply countries_sorted|].
  split; [rewrite main_countries; apply unique_NoDup|].
  split; [intro c; rewrite main_countries; apply countries_of_In|].
  split.
  { intros o Ho Hc. unfold CountryMap.main. apply in_map.
    apply in_map_iff. exists (country o). split; [|exact Hc].
    unfold carry_over. simpl option_map.
    rewrite (countries_stripped _ _ Hc), (find_row_NoDup _ _ Hnd Ho).
    destruct o; reflexivity. }
  split.
  { intros c Hc Hnew. unfold CountryMap.main. apply in_map.
    apply in_map_iff. exists c. split; [|exact Hc].
    unfold carry_over. simpl option_map.
    rewrite (countries_stripped _ _ Hc), (@find_row_absent _ _ Hnew).
    reflexivity. }
  split.
  { intro row. split; [reflexivity|].
    destruct (auto_fill_keeps row) as [K1 K2].
    destruct (auto_fill_blank row) as (B1 & B2 & B3 & B4 & B5).
    repeat split; assumption. }
  intros o Ho Hc r Hr E. apply Hc. rewrite <- E.
  rewrite <- (main_countries raw (Some file)). apply in_map. exact Hr.
Qed.

End CountryMapClaims.

Section CountryMapExamples.

Import Frame Text CountryMap Statements Examples.
Local Open Scope string_scope.

Lemma new_file_rows :
  new_file = [ mk_row "Belgique" "BE" "Europe";
             mk_row "France" "FR" "Europe";
             mk_row "Japon" "JP" "Asia" ].
Proof. vm_compute. reflexivity. Qed.

Lemma old_file_nodup : NoDup (map country (load_old old_file)).
Proof.
  vm_compute. repeat constructor; simpl; intuition discriminate.
Defined.

(** France keeps its values, the blank values of Japon are filled in
    from the two tables, Belgique is new and Atlantide is dropped. *)
Lemma C7_witness :
  map country new_file = countries_of observed_countries
  /\ In (mk_row "France" "FR" "Europe") new_file
  /\ In (auto_fill None None (mk_row "Japon" "" "")) new_file
  /\ country_code (auto_fill None None (mk_row "Japon" "" "")) = "JP"
  /\ region (auto_fill None None (mk_row "Japon" "" "")) = "Asia"
  /\ In (auto_fill None None (mk_row "Belgique" "" "")) new_file
  /\ (forall r, In r new_file -> country r <> "Atlantide").
Proof.
  destruct (@C7_mapping_is_rebuilt_from_observed_countries
              None None observed_countries old_file old_file_nodup)
    as (H1 & _ & _ & _ & H2 & H3 & H4 & H5).
  split; [exact H1|]. split.
  { apply (H2 (mk_row "France" "FR" "Europe")).
    - right. left. reflexivity.
    - vm_compute. right. left. reflexivity. }
  split.
  { apply (H2 (mk_row "Japon" "" "")).
    - right. right. left. reflexivity.
    - vm_compute. right. right. left. reflexivity. }
  destruct (H4 (mk_row "Japon" "" "")) as (_ & _ & _ & Hreg & _ & Hcode & _).
  split; [apply Hcode; reflexivity|].
  split; [apply Hreg; reflexivity|].
  split.
  { apply H3.
    - vm_compute. left. reflexivity.
    - vm_compute. intuition discriminate. }
  apply (H5 (mk_row "Atlantide" "AT" "Europe")).
  - left. reflexivity.
  - vm_compute. intuition discriminate.
Defined.

(** C7, as stated, fails: the curated row of a country that the raw
    sheet no longer mentions is dropped, and the new rows are inserted in
    sorted order. *)
Lemma C7_counterexample :
  In (mk_row "Atlantide" "AT" "Europe") old_file
  /\ ~ In (mk_row "Atlantide" "AT" "Europe") new_file
  /\ ~ additive old_file new_file.
Proof.
  rewrite new_file_rows. split; [left; reflexivity|]. split.
  - simpl. intuition discriminate.
  - intros (added & H). discriminate H.
Qed.

End CountryMapExamples.

(* ------------------------------------------------------------------ *)
(** ** Country and region resolution *)

Section Resolver.

Import Frame Text Num Unicode Region Statements Examples.
Local Open Scope string_scope.
Local Open Scope nat_scope.

Context {U : unicodedata}.

(** *** Stage 1: the most frequent country *)






Lemma opt_eqb_eq (x y : option string) : opt_eqb x y = true <-> x = y.
Proof.
  destruct x as [a|], y as [b|]; simpl; try (split; congruence).
  rewrite String.eqb_eq. split; congruence.
Qed.

(** *** The order of the (airline, country) groups *)





















(** *** Stages 2 and 3 *)



(** *** Step 6 and the side file *)





Lemma somes_In (l : list (option string)) (x : string) :
  In x (somes l) <-> In (Some x) l.
Proof.
  induction l as [|[y|] l IH]; simpl; [tauto | |].
  - rewrite IH. split; intros [H | H]; auto; left; congruence.
  - rewrite IH. split; [auto|]. intros [H | H]; [discriminate | exact H].
Qed.

Lemma summary_regions (kept : list region_row) (s : summary_row) :
  In s (summary_basic kept) ->
  exists x, In x kept /\ r_region x = Some (region s).
Proof.
  unfold summary_basic. rewrite in_map_iff.
  intros (reg & <- & Hreg). simpl.
  unfold sort in Hreg.
  rewrite sort_by_In, unique_In, somes_In, in_map_iff in Hreg.
  destruct Hreg as (x & E & Hx). exists x. auto.
Qed.

Lemma summary_has_region (kept : list region_row) (x : region_row)
  (reg : string) :
  In x kept -> r_region x = Some reg ->
  exists s, In s (summary_basic kept) /\ region s = reg.
Proof.
  intros Hx Hr. unfold summary_basic.
  eexists. split.
  - apply in_map_iff. exists reg. split; [reflexivity|].
    unfold sort. rewrite sort_by_In, unique_In, somes_In, in_map_iff.
    exists x. auto.
  - reflexivity.
Qed.

(** The side file is written in every run; the summary is that of the
    rows that pass the filter, and the script stops at step 7 when none
    does. *)
Lemma run_outputs (raw : list raw_row) (file : list map_row)
  (scores : list score_row) :
  let mapping := with_extra file in
  let resolved := resolve_countries raw mapping scores in
  let merged := join_region mapping resolved in
  run raw file scores
  = Some (missing merged,
          match final_filter merged with
          | [] => None
          | _ => Some (final_filter merged,
                       summary_basic (final_filter merged))
          end).
Proof. reflexivity. Qed.



Lemma extra_row_joins (file : list map_row) (merged : list merged_row)
  (r : merged_row) (c reg : string) :
  In r merged -> country r = Some c -> In (c, reg) EXTRA_REGION ->
  In (in_region r c reg) (join_region (with_extra file) merged).
Proof.
  intros Hr Hc Hextra. unfold join_region. apply in_flat_map.
  exists r. split; [exact Hr|].
  unfold merge_region. rewrite Hc.
  set (hit := fun m => String.eqb (country_clean m)
                                  (normalize_str (Some c))).
  assert (Hm : In (mk_map (Some c) (Some reg))
                  (filter hit (with_extra file))).
  { apply filter_In. split.
    - unfold with_extra, extra_rows. apply in_or_app. right.
      apply in_map_iff. exists (c, reg). auto.
    - unfold hit, country_clean. simpl. apply String.eqb_refl. }
  destruct (filter hit (with_extra file)) as [|h hits];
    [contradiction|].
  apply in_map_iff. exists (mk_map (Some c) (Some reg)).
  split; [reflexivity | exact Hm].
Qed.

(** C10.  The mapping that the countries are joined with is the file
    followed by the four rows of EXTRA_REGION.  Hence a row whose country
    is one of these four receives the region of that entry whatever the
    file holds, an empty file included; the run reaches its outputs, and
    when the modernity_index of the row is not null the row is among
    those that are aggregated and the summary has a row for that
    region. *)
Theorem C10_extra_regions_always_joined :
  forall (raw : list raw_row) (file : list map_row)
         (scores : list score_row) (r : merged_row) (c reg : string),
    In r (resolve_countries raw (with_extra file) scores) ->
    country r = Some c ->
    In (c, reg) EXTRA_REGION ->
    with_extra file
    = (file ++ [ mk_map (Some "Philippines") (Some "Asia");
                 mk_map (Some "Maroc") (Some "Africa");
                 mk_map (Some "Mongolie") (Some "Asia");
                 mk_map (Some "États-Unis") (Some "North America") ])%list
    /\ In (in_region r c reg)
          (join_region (with_extra file)
             (resolve_countries raw (with_extra file) scores))
    /\ (exists side agg, run raw file scores = Some (side, agg))
    /\ (isna (modernity_index r) = false ->
        exists side kept summary s,
          run raw file scores = Some (side, Some (kept, summary))
          /\ In (in_region r c reg) kept
          /\ In s summary /\ region s = reg).
Proof.
  intros raw file scores r c reg Hr Hc Hextra.
  pose proof (extra_row_joins file _ r Hr Hc Hextra) as Hjoin.
  pose proof (run_outputs raw file scores) as Hruns.
  cbv zeta in Hruns.
  set (merged := join_region (with_extra file)
                   (resolve_countries raw (with_extra file) scores)) in *.
  split; [reflexivity|]. split; [exact Hjoin|]. split.
  - rewrite Hruns. eexists. eexists. reflexivity.
  - intro Hidx.
    assert (Hkept : In (in_region r c reg) (final_filter merged)).
    { apply filter_In. split; [exact Hjoin|]. simpl. rewrite Hidx.
      reflexivity. }
    destruct (summary_has_region _ _ Hkept eq_refl) as (s & Hs & Hreg).
    exists (missing merged), (final_filter merged),
      (summary_basic (final_filter merged)), s.
    split; [|auto]. rewrite Hruns.
    destruct (final_filter merged); [contradiction | reflexivity].
Qed.

End Resolver.

Section ResolverExamples.

Import Frame Text Num Unicode Region Statements Examples.
Local Open Scope string_scope.



Lemma cebu_row_resolved :
  In cebu_row
     (resolve_countries (U := ascii_only) [] (with_extra []) cebu_scores).
Proof. vm_compute. left. reflexivity. Defined.

Lemma philippines_extra : In ("Philippines", "Asia") EXTRA_REGION.
Proof. left. reflexivity. Defined.

(** With no raw observation and an empty mapping file, Cebu Pacific is
    resolved by the manual table and placed in Asia. *)
Lemma C10_witness :
  In (in_region (U := ascii_only) cebu_row "Philippines" "Asia")
     (join_region (U := ascii_only) (with_extra [])
        (resolve_countries (U := ascii_only) [] (with_extra []) cebu_scores))
  /\ exists side kept summary s,
       run (U := ascii_only) [] [] cebu_scores
       = Some (side, Some (kept, summary))
       /\ In (in_region (U := ascii_only) cebu_row "Philippines" "Asia") kept
       /\ In s summary /\ region s = "Asia".
Proof.
  destruct (@C10_extra_regions_always_joined ascii_only [] [] cebu_scores
              cebu_row "Philippines" "Asia"
              cebu_row_resolved eq_refl philippines_extra)
    as (_ & Hjoin & _ & Hagg).
  split; [exact Hjoin | exact (Hagg eq_refl)].
Defined.

(** When no airline at all is resolved, the side file still lists the
    airline, and the script stops at step 7, after it. *)
Lemma nothing_resolved_side_file :
  run (U := ascii_only) [] []
      [mk_score (Some "BRUSSELS AIRLINES") (Fin 0.9)]
  = Some ([(Some "BRUSSELS AIRLINES", None)], None).
Proof. vm_compute. reflexivity. Qed.

End ResolverExamples.

(* ================================================================== *)
(** * Further properties

    Properties of the scripts beyond the ten above: the aggregates and
    the ranking of air1_generate_features.py, the two classifiers, the
    exported table and the validator of build_features.py, the scores
    of air9_compute_scores.py and their composition with the export,
    the mapping file of air13_build_country_mapping.py, the text
    helpers and the joins of air14_region_summary.py, and the labels of
    air19_create_fleet_bucket.py. *)

(* ------------------------------------------------------------------ *)
(** ** air1_generate_features.py *)

Section Partition.

Variable A : Type.
Variable key : A -> option string.

Lemma list_sum_map_add (K : Type) (f g : K -> nat) (ks : list K) :
  list_sum (map (fun k => f k + g k)%nat ks)
  = (list_sum (map f ks) + list_sum (map g ks))%nat.
Proof.
  induction ks as [|k ks IH]; simpl; [reflexivity|]. rewrite IH. lia.
Qed.

Lemma indicator_absent (a : string) (ks : list string) :
  ~ In a ks ->
  list_sum (map (fun k => if String.eqb a k then 1 else 0)%nat ks) = 0%nat.
Proof.
  induction ks as [|k ks IH]; simpl; [reflexivity|].
  intro H. destruct (String.eqb_spec a k) as [-> | _].
  - exfalso. apply H. left. reflexivity.
  - apply IH. intro Hin. apply H. right. exact Hin.
Qed.

Lemma indicator_once (a : string) (ks : list string) :
  NoDup ks -> In a ks ->
  list_sum (map (fun k => if String.eqb a k then 1 else 0)%nat ks) = 1%nat.
Proof.
  induction 1 as [|k ks Hk Hnd IH]; simpl; [tauto|].
  intros [-> | Hin].
  - rewrite String.eqb_refl, (indicator_absent _ _ Hk). reflexivity.
  - destruct (String.eqb_spec a k) as [-> | _]; [contradiction|].
    apply IH, Hin.
Qed.

(** The groups of a key that takes its values in [ks] share out the
    rows that have a key; a row without a key is in no group. *)
Lemma groups_partition (l : list A) (ks : list string) :
  NoDup ks -> (forall x b, In x l -> key x = Some b -> In b ks) ->
  list_sum
    (map (fun k =>
            List.length
              (filter (fun x => match key x with
                                | Some b => String.eqb b k
                                | None => false
                                end) l))
         ks)
  = List.length (filter (fun x => match key x with
                                  | Some _ => true
                                  | None => false
                                  end) l).
Proof.
  intros Hnd. induction l as [|x l IH]; intro Hin.
  - simpl. clear. induction ks as [|k ks IHk]; simpl; [reflexivity|].
    exact IHk.
  - assert (Hl : forall y b, In y l -> key y = Some b -> In b ks).
    { intros y b Hy. apply Hin. right. exact Hy. }
    specialize (IH Hl). simpl. destruct (key x) as [b|] eqn:E.
    + rewrite (map_ext _
                 (fun k => (if String.eqb b k then 1 else 0)
                           + List.length
                               (filter (fun y => match key y with
                                                 | Some c => String.eqb c k
                                                 | None => false
                                                 end) l))%nat).
      * rewrite list_sum_map_add, IH.
        rewrite (indicator_once _ Hnd (Hin x b (or_introl eq_refl) E)).
        reflexivity.
      * intro k. destruct (String.eqb b k); reflexivity.
    + exact IH.
Qed.

End Partition.

Section Air1Extras.

Import Frame Text Num Unicode Classifier Statements Examples.
Open Scope string_scope.

Context {U : unicodedata}.

Lemma features_airlines_keys (raw : list Air1.raw_row) :
  map Air1.airline (Air1.features raw)
  = sort (unique (Air1.present
                    (map Air1.w_airline (map Air1.work_of raw)))).
Proof.
  unfold Air1.features, Air1.agg. rewrite map_map. simpl. apply map_id.
Qed.

(** X1.  In air1_generate_features.py the fleet sizes of the aggregated
    rows add up to the number of rows of the raw sheet that have an
    airline cell: the groups share out these rows, and a row without an
    airline is counted nowhere. *)
Theorem X1_fleet_sizes_add_up_to_the_raw_rows :
  forall raw : list Air1.raw_row,
    list_sum (map Air1.fleet_size (Air1.features raw))
    = List.length (filter has_airline raw).
Proof.
  intro raw. unfold Air1.features, Air1.agg. rewrite map_map. simpl.
  unfold Air1.group, Air1.has_key.
  rewrite (groups_partition Air1.w_airline (map Air1.work_of raw)).
  - rewrite filter_map_length. f_equal. apply filter_ext.
    intros [[a|] m]; reflexivity.
  - apply keys_NoDup.
  - intros x b Hx E. unfold sort.
    apply sort_by_In, unique_In, present_In.
    rewrite <- E. apply in_map, Hx.
Qed.

End Air1Extras.

Section Air1Extras2.

Import Frame Text Num Unicode Classifier Statements Examples.
Open Scope string_scope.

Context {U : unicodedata}.

Lemma unique_length_le (l : list string) :
  (List.length (unique l) <= List.length l)%nat.
Proof.
  apply NoDup_incl_length; [apply unique_NoDup|].
  intros x Hx. apply unique_In, Hx.
Qed.

Lemma present_length_le (l : list (option string)) :
  (List.length (Air1.present l) <= List.length l)%nat.
Proof.
  induction l as [|[x|] l IH]; simpl; lia.
Qed.

Lemma length_pos_In (l : list string) :
  (1 <= List.length l)%nat <-> exists x, In x l.
Proof.
  destruct l as [|x l]; simpl; split.
  - lia.
  - intros (x & []).
  - intros _. exists x. auto.
  - intros _. lia.
Qed.

Lemma new_gen_flags_sum (g : list Air1.work_row) :
  (forall w, In w g -> (Air1.w_new_gen w <= 1)%nat) ->
  (list_sum (map Air1.w_new_gen g) <= List.length g)%nat.
Proof.
  induction g as [|w g IH]; simpl; intro H; [lia|].
  pose proof (H w (or_introl eq_refl)).
  assert (list_sum (map Air1.w_new_gen g) <= List.length g)%nat.
  { apply IH. intros x Hx. apply H. right. exact Hx. }
  lia.
Qed.

Lemma detect_new_gen_le (m : option string) : (detect_new_gen m <= 1)%nat.
Proof.
  unfold detect_new_gen. destruct m as [m|]; [|lia].
  destruct (existsb _ NEWGEN_PATTERNS); lia.
Qed.

Lemma group_rows (a : string) (raw : list Air1.raw_row) (w : Air1.work_row) :
  In w (Air1.group a (map Air1.work_of raw)) -> (Air1.w_new_gen w <= 1)%nat.
Proof.
  unfold Air1.group. rewrite filter_In, in_map_iff.
  intros [(r & <- & _) _]. apply detect_new_gen_le.
Qed.

Open Scope Q_scope.

Lemma Qnat_pos (n : nat) : (0 < n)%nat -> 0 < Air1.Qnat n.
Proof.
  intro H. unfold Air1.Qnat. change 0 with (inject_Z 0).
  rewrite <- Zlt_Qlt. lia.
Qed.

Lemma mean_in_unit (l : list nat) :
  l <> [] -> (list_sum l <= List.length l)%nat ->
  0 <= Air1.mean l /\ Air1.mean l <= 1.
Proof.
  intros Hne Hle. unfold Air1.mean.
  assert (Hpos : 0 < Air1.Qnat (List.length l)).
  { apply Qnat_pos. destruct l; [congruence | simpl; lia]. }
  assert (H0 : 0 <= Air1.Qnat (list_sum l)).
  { unfold Air1.Qnat. change 0 with (inject_Z 0). rewrite <- Zle_Qle. lia. }
  split.
  - apply Qle_shift_div_l; [exact Hpos|]. lra.
  - apply Qle_shift_div_r; [exact Hpos|].
    rewrite Qmult_1_l. apply Qnat_le, Hle.
Qed.

Lemma qmin_unit (x : Q) : 0 <= x -> 0 <= qmin 1 x /\ qmin 1 x <= 1.
Proof. intro H. unfold qmin. qsolve. Qed.

(** X2.  Every aggregated row of air1_generate_features.py stands for at
    least one aircraft and has no more models than aircraft; it has a
    model exactly when one of the raw rows of the airline has a model
    cell.  Its new_gen_share is between 0 and 1, its indice_penalise
    between 0 and indice_modernite_v0, and its low_fleet_flag is 1
    exactly when its indice_public is null. *)
Theorem X2_aggregates_are_within_bounds :
  forall (raw : list Air1.raw_row) (row : Air1.agg_row),
    In row (Air1.features raw) ->
    (1 <= Air1.fleet_size row)%nat
    /\ (Air1.models_diversity row <= Air1.fleet_size row)%nat
    /\ ((1 <= Air1.models_diversity row)%nat
        <-> exists r m, In r raw
                        /\ Air1.normalize_text (fst r)
                           = Some (Air1.airline row)
                        /\ snd r = Some m)
    /\ 0 <= Air1.new_gen_share row /\ Air1.new_gen_share row <= 1
    /\ 0 <= Air1.indice_penalise row
    /\ Air1.indice_penalise row <= Air1.indice_modernite_v0 row
    /\ (Air1.low_fleet_flag row = 1%nat <-> Air1.indice_public row = NaN).
Proof.
  intros raw row H.
  pose proof (features_fleet_pos _ _ H) as Hpos.
  apply features_rows in H. destruct H as (a & ->).
  set (g := Air1.group a (map Air1.work_of raw)) in *.
  assert (Hlen : (1 <= List.length g)%nat) by exact Hpos.
  assert (Hne : g <> []) by (intro E; rewrite E in Hlen; simpl in Hlen; lia).
  assert (Hshare : 0 <= Air1.mean (map Air1.w_new_gen g)
                   /\ Air1.mean (map Air1.w_new_gen g) <= 1).
  { apply mean_in_unit.
    - intro E. apply map_eq_nil in E. contradiction.
    - rewrite length_map. apply new_gen_flags_sum.
      intros w Hw. apply (group_rows _ _ _ Hw). }
  assert (Hfac : 0 <= qmin 1 (Air1.Qnat (List.length g)
                              / Air1.Qnat Air1.MIN_FLEET)
                 /\ qmin 1 (Air1.Qnat (List.length g)
                            / Air1.Qnat Air1.MIN_FLEET) <= 1).
  { apply qmin_unit. apply Qle_shift_div_l; [reflexivity|].
    rewrite Qmult_0_l. apply Qlt_le_weak, Qnat_pos. lia. }
  cbn [Air1.agg_of_group Air1.models_diversity Air1.fleet_size
       Air1.new_gen_share Air1.indice_penalise Air1.indice_modernite_v0
       Air1.low_fleet_flag Air1.indice_public Air1.airline].
  destruct Hshare as [Hs0 Hs1], Hfac as [Hf0 Hf1].
  split; [exact Hlen|]. split.
  { rewrite <- (length_map Air1.w_model g).
    eapply Nat.le_trans; [apply unique_length_le | apply present_length_le]. }
  split.
  { rewrite length_pos_In. split.
    - intros (x & Hx). apply unique_In, present_In, in_map_iff in Hx.
      destruct Hx as (w & Ew & Hw).
      unfold g, Air1.group in Hw. apply filter_In in Hw.
      destruct Hw as [Hw Hk]. apply in_map_iff in Hw.
      destruct Hw as ([[b|] [m|]] & <- & Hr);
        unfold Air1.has_key in Hk; simpl in Hk, Ew; try discriminate.
      apply String.eqb_eq in Hk.
      eexists. exists m. split; [exact Hr|]. split; [|reflexivity].
      simpl. f_equal. exact Hk.
    - intros (r & m & Hr & Ea & Em).
      destruct r as [b [m'|]]; simpl in Em; [|discriminate].
      eexists. apply unique_In, present_In, in_map_iff.
      exists (Air1.work_of (b, Some m')). split; [reflexivity|].
      unfold g, Air1.group. apply filter_In. split; [apply in_map, Hr|].
      unfold Air1.has_key. simpl Air1.w_airline. simpl in Ea. rewrite Ea.
      apply String.eqb_refl. }
  repeat split.
  - exact Hs0.
  - exact Hs1.
  - apply Qmult_le_0_compat; assumption.
  - set (s := Air1.mean (map Air1.w_new_gen g)) in *.
    set (k := qmin 1 (Air1.Qnat (List.length g) / Air1.Qnat Air1.MIN_FLEET))
      in *.
    nra.
  - unfold Air1.MIN_FLEET.
    destruct (Nat.ltb_spec (List.length g) 5) as [L | L];
      destruct (Nat.leb_spec 5 (List.length g)) as [L' | L'];
      try lia; intro; try reflexivity; discriminate.
  - unfold Air1.MIN_FLEET.
    destruct (Nat.ltb_spec (List.length g) 5) as [L | L];
      destruct (Nat.leb_spec 5 (List.length g)) as [L' | L'];
      try lia; intro; try reflexivity; discriminate.
Qed.

End Air1Extras2.

Section Air1Extras3.

Import Frame Text Num Unicode Classifier Statements Examples.
Open Scope string_scope.

Lemma X2_witness :
  In small_row (Air1.features small_raw)
  /\ (Air1.models_diversity small_row <= Air1.fleet_size small_row)%nat
  /\ (Air1.new_gen_share small_row <= 1)%Q
  /\ (Air1.indice_penalise small_row
      <= Air1.indice_modernite_v0 small_row)%Q.
Proof.
  split; [exact small_row_in|].
  destruct (@X2_aggregates_are_within_bounds ascii_only small_raw small_row
              small_row_in)
    as (_ & Hd & _ & _ & Hs & _ & Hp & _).
  repeat split; assumption.
Defined.

(** X3.  The aggregated rows of air1_generate_features.py come in strictly
    increasing order of the normalised airline name, hence one row per
    name, and the names are those of the raw rows that have an airline
    cell. *)
Theorem X3_one_aggregate_per_airline_in_name_order :
  forall (U : unicodedata) (raw : list Air1.raw_row),
    StronglySorted (fun a b => String.ltb a b = true)
      (map Air1.airline (Air1.features raw))
    /\ NoDup (map Air1.airline (Air1.features raw))
    /\ (forall a, In a (map Air1.airline (Air1.features raw))
                  <-> exists r, In r raw
                                /\ Air1.normalize_text (fst r) = Some a).
Proof.
  intros U raw. split; [|split; [|apply features_names]].
  - rewrite features_airlines_keys. apply sort_unique_strict.
  - rewrite features_airlines_keys. apply keys_NoDup.
Qed.

End Air1Extras3.

Section Air1Extras4.

Import Frame Text Num Unicode Classifier Statements Examples.
Open Scope string_scope.

Lemma upper_char_ascii (c : ascii) :
  is_ascii c = true ->
  is_ascii (upper_char c) = true /\ is_lower (upper_char c) = false.
Proof.
  destruct c as [[] [] [] [] [] [] [] []]; intro H;
    try discriminate H; split; reflexivity.
Qed.

Lemma sfilter_every (p : ascii -> bool) (s : string) :
  every p (sfilter p s) = true.
Proof.
  induction s as [|c s IH]; simpl; [reflexivity|].
  destruct (p c) eqn:E; simpl; [rewrite E|]; exact IH.
Qed.

Lemma every_all_ascii (s : string) : all_ascii s = every is_ascii s.
Proof. induction s as [|c s IH]; simpl; [|rewrite IH]; reflexivity. Qed.

Lemma upper_ascii (s : string) :
  every is_ascii s = true ->
  every is_ascii (upper s) = true
  /\ every (fun c => negb (is_lower c)) (upper s) = true.
Proof.
  induction s as [|c s IH]; simpl; [auto|].
  intro H. apply andb_true_iff in H. destruct H as [Hc Hs].
  destruct (upper_char_ascii _ Hc) as [Ha Hl].
  destruct (IH Hs) as [IH1 IH2].
  unfold upper in *. rewrite Ha, Hl, IH1, IH2. auto.
Qed.

(** X4.  Whatever the input and the Unicode tables, the text that
    normalize_text_series returns is ASCII and has no lower-case
    letter; it returns a missing value for a missing cell only. *)
Theorem X4_normalised_text_is_upper_case_ascii :
  forall (U : unicodedata) (v : option string),
    match Air1.normalize_text v with
    | Some t =>
        all_ascii t = true
        /\ every (fun c => negb (is_lower c)) t = true
    | None => v = None
    end.
Proof.
  intros U [s|]; [|reflexivity].
  unfold Air1.normalize_text, encode_ascii_ignore.
  rewrite every_all_ascii. apply upper_ascii, sfilter_every.
Qed.

End Air1Extras4.

Section Air1Columns.

Import Frame Text Num Unicode Classifier Statements Examples.
Open Scope string_scope.

Lemma choose_first_present_some (cols candidates : list string)
  (c : string) :
  Air1.choose_first_present cols candidates = Some c
  <-> exists l1 l2, candidates = (l1 ++ c :: l2)%list /\ In c cols
                    /\ forall x, In x l1 -> ~ In x cols.
Proof.
  induction candidates as [|x t IH]; simpl.
  - split; [discriminate|]. intros ([|] & l2 & E & _); discriminate E.
  - destruct (mem x cols) eqn:E.
    + apply mem_In in E. split.
      * intro H. injection H as <-. exists [], t. simpl. tauto.
      * intros ([|y l1] & l2 & El & Hc & Hn); simpl in El.
        -- injection El as -> _. reflexivity.
        -- injection El as -> _. exfalso.
           apply (Hn y); [left; reflexivity | exact E].
    + assert (Hx : ~ In x cols).
      { intro H. apply mem_In in H. congruence. }
      rewrite IH. split.
      * intros (l1 & l2 & -> & Hc & Hn). exists (x :: l1), l2.
        split; [reflexivity|]. split; [exact Hc|].
        intros y [<- | Hy]; [exact Hx | apply Hn, Hy].
      * intros ([|y l1] & l2 & El & Hc & Hn); simpl in El.
        -- injection El as -> _. contradiction.
        -- injection El as -> ->. exists l1, l2.
           split; [reflexivity|]. split; [exact Hc|].
           intros z Hz. apply Hn. right. exact Hz.
Qed.

Lemma choose_first_present_none (cols candidates : list string) :
  Air1.choose_first_present cols candidates = None
  <-> forall x, In x candidates -> ~ In x cols.
Proof.
  induction candidates as [|x t IH]; simpl.
  - split; [intros _ y [] | reflexivity].
  - destruct (mem x cols) eqn:E.
    + apply mem_In in E. split; [discriminate|].
      intro H. exfalso. apply (H x); [left; reflexivity | exact E].
    + rewrite IH. split.
      * intros H y [<- | Hy]; [|apply H, Hy].
        intro Hin. apply mem_In in Hin. congruence.
      * intros H y Hy. apply H. right. exact Hy.
Qed.

(** X5.  choose_first_present returns the first candidate, in the order of
    the candidate list, that is a column of the sheet, and nothing when
    no candidate is a column.  Hence main stops exactly when the sheet has
    none of the airline candidates or none of the model candidates, and
    reads detailed_aircraft_type whenever the sheet has it. *)
Theorem X5_columns_are_chosen_by_priority :
  forall cols : list string,
    (forall candidates c,
       Air1.choose_first_present cols candidates = Some c
       <-> exists l1 l2, candidates = (l1 ++ c :: l2)%list /\ In c cols
                         /\ forall x, In x l1 -> ~ In x cols)
    /\ (forall candidates,
          Air1.choose_first_present cols candidates = None
          <-> forall x, In x candidates -> ~ In x cols)
    /\ (Air1.choose_columns cols = None
        <-> (forall x, In x Air1.AIRLINE_COL_CANDIDATES -> ~ In x cols)
            \/ (forall x, In x Air1.MODEL_COL_CANDIDATES -> ~ In x cols))
    /\ (In "detailed_aircraft_type" cols ->
        forall p, Air1.choose_columns cols = Some p ->
                  snd p = "detailed_aircraft_type").
Proof.
  intro cols. split; [intros; apply choose_first_present_some|].
  split; [intros; apply choose_first_present_none|].
  unfold Air1.choose_columns. split.
  - rewrite <- !choose_first_present_none.
    destruct (Air1.choose_first_present cols Air1.AIRLINE_COL_CANDIDATES);
      destruct (Air1.choose_first_present cols Air1.MODEL_COL_CANDIDATES);
      split; auto; try discriminate; intros [H | H]; discriminate H.
  - intros Hd p.
    destruct (Air1.choose_first_present cols Air1.AIRLINE_COL_CANDIDATES);
      [|discriminate].
    unfold Air1.MODEL_COL_CANDIDATES. simpl.
    apply mem_In in Hd. rewrite Hd. intro H. injection H as <-. reflexivity.
Qed.

End Air1Columns.

Section Ranking.

Import Frame Text Num Unicode Classifier Statements Examples.
Open Scope Q_scope.

Lemma ranks_before_total (x y : Air1.agg_row) :
  Air1.ranks_before x y = true \/ Air1.ranks_before y x = true.
Proof.
  unfold Air1.ranks_before.
  destruct (Air1.indice_public x) as [| | |p],
           (Air1.indice_public y) as [| | |q]; simpl; auto;
    qcases; auto; lra.
Qed.

Lemma ranks_before_trans (x y z : Air1.agg_row) :
  Air1.ranks_before x y = true -> Air1.ranks_before y z = true ->
  Air1.ranks_before x z = true.
Proof.
  unfold Air1.ranks_before.
  destruct (Air1.indice_public x) as [| | |p],
           (Air1.indice_public y) as [| | |q],
           (Air1.indice_public z) as [| | |r]; simpl;
    try discriminate; try reflexivity; qcases;
    try discriminate; try reflexivity; intros; try lra.
Qed.

End Ranking.

Section Ranking2.

Import Frame Text Num Unicode Classifier Statements Examples.
Open Scope Q_scope.

Lemma sorted_precedes (A : Type) (R : A -> A -> Prop) (l : list A)
  (x y : A) :
  StronglySorted R l -> precedes x y l -> R x y.
Proof.
  intros Hs (l1 & l2 & l3 & ->).
  induction l1 as [|z l1 IH]; simpl in Hs.
  - apply StronglySorted_inv in Hs. destruct Hs as [_ Hx].
    rewrite Forall_forall in Hx. apply Hx.
    apply in_or_app. right. left. reflexivity.
  - apply StronglySorted_inv in Hs. apply IH, Hs.
Qed.

Lemma precedes_In (A : Type) (l : list A) (x y : A) :
  precedes x y l -> In x l /\ In y l.
Proof.
  intros (l1 & l2 & l3 & ->). split.
  - apply in_or_app. right. left. reflexivity.
  - apply in_or_app. right. right. apply in_or_app. right. left. reflexivity.
Qed.

(** X6.  The ranking written to indice_modernite_v0.xlsx is a permutation
    of the aggregated rows in which no fleet below 5 comes before a fleet
    of 5 or more, and in which, among the fleets of 5 or more and among
    the fleets below 5, indice_modernite_v0 never increases. *)
Theorem X6_reliable_fleets_are_ranked_first :
  forall (U : unicodedata) (raw : list Air1.raw_row),
    let ranked := Air1.agg_sorted (Air1.features raw) in
    Permutation ranked (Air1.features raw)
    /\ forall x y,
         precedes x y ranked ->
         ((Air1.fleet_size x < 5)%nat -> (Air1.fleet_size y < 5)%nat)
         /\ (((5 <= Air1.fleet_size x)%nat <-> (5 <= Air1.fleet_size y)%nat)
             -> Air1.indice_modernite_v0 y <= Air1.indice_modernite_v0 x).
Proof.
  intros U raw ranked.
  assert (Hp : Permutation ranked (Air1.features raw))
    by apply sort_by_Permutation.
  split; [exact Hp|]. intros x y Hxy.
  assert (Hr : Air1.ranks_before x y = true).
  { apply (sorted_precedes (R := fun a b => Air1.ranks_before a b = true)
             (l := ranked)); [|exact Hxy].
    apply sort_by_sorted;
      [apply ranks_before_total | apply ranks_before_trans]. }
  destruct (precedes_In Hxy) as [Hx Hy].
  apply (Permutation_in _ Hp) in Hx. apply (Permutation_in _ Hp) in Hy.
  apply features_rows in Hx. apply features_rows in Hy.
  destruct Hx as (a & ->), Hy as (b & ->).
  revert Hr. unfold Air1.ranks_before.
  rewrite !agg_public, !agg_fleet_size.
  set (g := Air1.group a (map Air1.work_of raw)).
  set (h := Air1.group b (map Air1.work_of raw)).
  set (vx := Air1.indice_modernite_v0 (Air1.agg_of_group a g)).
  set (vy := Air1.indice_modernite_v0 (Air1.agg_of_group b h)).
  destruct (Nat.leb_spec 5 (List.length g)) as [Lg | Lg];
    destruct (Nat.leb_spec 5 (List.length h)) as [Lh | Lh];
    simpl; intro Hr; split; try lia; intro Hiff;
    try (exfalso; lia); try discriminate Hr.
  - destruct (Qle_bool vy vx) eqn:E; [|discriminate Hr].
    apply Qle_bool_iff, E.
  - apply Qle_bool_iff, Hr.
Qed.

End Ranking2.

(* ------------------------------------------------------------------ *)
(** ** The two classifiers *)

Section IgnoreCase.

Import Frame Text Regex Classifier Statements.
Local Open Scope string_scope.

Lemma lower_char_fixed (x : ascii) : not_upper x = true -> lower_char x = x.
Proof.
  unfold not_upper, lower_char. destruct (is_upper x); [discriminate|].
  reflexivity.
Qed.

Lemma same_icase (x c : ascii) :
  not_upper x = true -> not_upper c = true -> same true x c = same false x c.
Proof.
  intros Hx Hc. unfold same.
  rewrite (lower_char_fixed _ Hx), (lower_char_fixed _ Hc). reflexivity.
Qed.

Lemma lit_icase (l : string) (prev : option ascii) (s : string)
  (k k' : cont) :
  every not_upper l = true -> every not_upper s = true -> agree k k' ->
  lit true l prev s k = lit false l prev s k'.
Proof.
  intros Hl Hs Hk. revert prev s Hs.
  induction l as [|c l IH]; intros prev s Hs; cbn [lit].
  - apply Hk, Hs.
  - destruct s as [|x t]; [reflexivity|].
    cbn [every] in Hl, Hs. apply andb_true_iff in Hl, Hs.
    destruct Hl as [Hc Hl], Hs as [Hx Ht].
    rewrite (same_icase _ _ Hx Hc), (IH Hl (Some x) t Ht). reflexivity.
Qed.

Lemma one_of_icase (cs : string) (x : ascii) :
  every not_upper cs = true -> not_upper x = true ->
  one_of true cs x = one_of false cs x.
Proof.
  intros Hcs Hx. induction cs as [|c cs IH]; cbn [one_of]; [reflexivity|].
  cbn [every] in Hcs. apply andb_true_iff in Hcs. destruct Hcs as [Hc Hcs].
  rewrite (same_icase _ _ Hx Hc), (IH Hcs). reflexivity.
Qed.

Lemma one_agree (p p' : ascii -> bool) (s : string) (k k' : cont) :
  (forall x, not_upper x = true -> p x = p' x) ->
  every not_upper s = true -> agree k k' ->
  one p s k = one p' s k'.
Proof.
  intros Hp Hs Hk. destruct s as [|x t]; [reflexivity|]. simpl.
  simpl in Hs. apply andb_true_iff in Hs. destruct Hs as [Hx Ht].
  rewrite (Hp x Hx), (Hk (Some x) t Ht). reflexivity.
Qed.

Lemma m_icase (r : re) :
  lowercase_re r = true ->
  forall (prev : option ascii) (s : string) (k k' : cont),
    every not_upper s = true -> agree k k' ->
    m true r prev s k = m false r prev s k'.
Proof.
  induction r as [l| | | | |cs| | |a IHa b IHb|a IHa b IHb|a IHa|a IHa
                 |a IHa|lo hi a IHa];
    simpl; intros Hr prev s k k' Hs Hk.
  - apply lit_icase; assumption.
  - apply one_agree; auto.
  - apply one_agree; auto.
  - apply one_agree; auto.
  - apply one_agree; auto.
  - apply one_agree; auto. intros x Hx. apply one_of_icase; assumption.
  - rewrite (Hk prev s Hs). reflexivity.
  - destruct prev; [reflexivity | apply Hk, Hs].
  - apply andb_true_iff in Hr. destruct Hr as [Ha Hb].
    apply (IHa Ha); [exact Hs|]. intros p' s' Hs'. apply (IHb Hb); assumption.
  - apply andb_true_iff in Hr. destruct Hr as [Ha Hb].
    rewrite (IHa Ha prev s k k' Hs Hk), (IHb Hb prev s k k' Hs Hk).
    reflexivity.
  - apply (IHa Hr); assumption.
  - rewrite (IHa Hr prev s k k' Hs Hk), (Hk prev s Hs). reflexivity.
  - generalize (String.length s). intro fuel.
    revert prev s Hs. induction fuel as [|fuel IHf]; intros prev s Hs.
    + rewrite (Hk prev s Hs). reflexivity.
    + rewrite (Hk prev s Hs). f_equal. apply (IHa Hr); [exact Hs|].
      intros p' s' Hs'. rewrite (IHf p' s' Hs'). reflexivity.
  - assert (Hmore : forall may prev s, every not_upper s = true ->
              (fix more (may : nat) (prev : option ascii) (s : string)
                 {struct may} : bool :=
                 k prev s ||
                 match may with
                 | O => false
                 | S may' => m true a prev s (fun p' s' => more may' p' s')
                 end) may prev s
              = (fix more (may : nat) (prev : option ascii) (s : string)
                 {struct may} : bool :=
                 k' prev s ||
                 match may with
                 | O => false
                 | S may' => m false a prev s (fun p' s' => more may' p' s')
                 end) may prev s).
    { induction may as [|may IHm]; intros p0 s0 Hs0.
      - rewrite (Hk p0 s0 Hs0). reflexivity.
      - rewrite (Hk p0 s0 Hs0). f_equal. apply (IHa Hr); [exact Hs0|].
        intros p' s' Hs'. apply IHm, Hs'. }
    set (n := (hi - lo)%nat). clearbody n.
    revert prev s Hs. induction lo as [|lo IHlo]; intros prev s Hs.
    + apply Hmore, Hs.
    + apply (IHa Hr); [exact Hs|]. intros p' s' Hs'. apply IHlo, Hs'.
Qed.

Lemma search_icase (r : re) (s : string) :
  lowercase_re r = true -> every not_upper s = true ->
  search true r s = search false r s.
Proof.
  intros Hr. unfold search. generalize (@None ascii).
  induction s as [|x t IH]; intros prev Hs; simpl.
  - rewrite (@m_icase r Hr prev "" (fun _ _ => true) (fun _ _ => true) Hs);
      [reflexivity | intros p s _; reflexivity].
  - rewrite (@m_icase r Hr prev (String x t)
               (fun _ _ => true) (fun _ _ => true) Hs);
      [|intros p s _; reflexivity].
    f_equal. apply IH. simpl in Hs. apply andb_true_iff in Hs. apply Hs.
Qed.

Lemma lower_not_upper (s : string) : every not_upper (lower s) = true.
Proof.
  induction s as [|c s IH]; simpl; [reflexivity|].
  unfold lower in IH. rewrite IH, andb_true_r.
  destruct c as [[] [] [] [] [] [] [] []]; reflexivity.
Qed.

Lemma lower_upper (s : string) : lower (upper s) = lower s.
Proof.
  unfold lower, upper. induction s as [|c s IH]; simpl; [reflexivity|].
  rewrite IH. f_equal.
  destruct c as [[] [] [] [] [] [] [] []]; reflexivity.
Qed.

Lemma patterns_lowercase :
  forallb lowercase_re
    (PAT_a220 :: PAT_b787 :: PAT_a350 :: PAT_a330neo :: PAT_neo :: PAT_max
     :: NEWGEN_PATTERNS) = true.
Proof. vm_compute. reflexivity. Qed.

(** X7.  Both classifiers lower the designation before they search.  On
    the lowered text (of an ASCII designation) a pattern without capital
    letters matches with re.I exactly when it matches without: the flag
    of the PAT table is redundant.  Hence a designation that
    build_features.py tags 787 or A350 is flagged new_gen by
    air1_generate_features.py, and neither classifier depends on the
    case of an ASCII designation. *)
Theorem X7_ignore_case_is_redundant_on_lowered_text :
  forall model : string,
    (forall r, lowercase_re r = true -> Unicode.all_ascii model = true ->
               search true r (lower model) = search false r (lower model))
    /\ (is_787 (tag_family model) = true ->
        detect_new_gen (Some model) = 1%nat)
    /\ (is_a350 (tag_family model) = true ->
        detect_new_gen (Some model) = 1%nat)
    /\ (Unicode.all_ascii model = true ->
        tag_family (upper model) = tag_family model)
    /\ (Unicode.all_ascii model = true ->
        detect_new_gen (Some (upper model)) = detect_new_gen (Some model)).
Proof.
  intro model.
  assert (Hi : forall r, lowercase_re r = true ->
             search true r (lower model) = search false r (lower model)).
  { intros r Hr. apply search_icase; [exact Hr | apply lower_not_upper]. }
  split; [intros r Hr _; apply Hi, Hr|].
  assert (Hin : forall r, In r NEWGEN_PATTERNS ->
                  search true r (lower model) = true ->
                  detect_new_gen (Some model) = 1%nat).
  { intros r Hr Hs. unfold detect_new_gen.
    assert (E : existsb (fun pat => search false pat (lower model))
                        NEWGEN_PATTERNS = true).
    { apply existsb_exists. exists r. split; [exact Hr|].
      rewrite <- Hi; [exact Hs|].
      pose proof (proj1 (forallb_forall _ _) patterns_lowercase r) as H.
      apply H. do 6 right. exact Hr. }
    rewrite E. reflexivity. }
  split; [|split; [|split]].
  - unfold tag_family. simpl. apply Hin.
    unfold NEWGEN_PATTERNS. do 6 right. left. reflexivity.
  - unfold tag_family. simpl. apply Hin.
    unfold NEWGEN_PATTERNS. do 7 right. left. reflexivity.
  - intros _. unfold tag_family. rewrite lower_upper. reflexivity.
  - intros _. unfold detect_new_gen. rewrite lower_upper. reflexivity.
Qed.

End IgnoreCase.

(* ------------------------------------------------------------------ *)
(** ** build_features.py *)

Ltac ratios H :=
  unfold BuildFeatures.feature_of, Frame.bind in H;
  repeat match type of H with
         | context [match BuildFeatures.ratio ?a ?b with _ => _ end] =>
             let E := fresh "R" in
             destruct (BuildFeatures.ratio a b) eqn:E; [|discriminate H]
         end;
  injection H as <-;
  cbn [BuildFeatures.airline BuildFeatures.fleet_size BuildFeatures.n_models
       BuildFeatures.diversity BuildFeatures.new_gen_share
       BuildFeatures.indice_modernite_v0 BuildFeatures.indice_public
       BuildFeatures.indice_penalise BuildFeatures.n_a220
       BuildFeatures.n_787 BuildFeatures.n_a350 BuildFeatures.n_a330neo
       BuildFeatures.n_neo BuildFeatures.n_max BuildFeatures.pct_a220
       BuildFeatures.pct_787 BuildFeatures.pct_a350
       BuildFeatures.pct_a330neo BuildFeatures.pct_neo
       BuildFeatures.pct_max BuildFeatures.pct_newgen_narrow
       BuildFeatures.pct_newgen_wide].

Section FeatureExtras.

Import Frame Text Num Classifier BuildFeatures Statements Examples.
Open Scope Q_scope.

Lemma ratio_in01 (num den r : cell) : ratio num den = Some r -> in01 r.
Proof.
  unfold ratio, bind.
  destruct (astype_float _) as [x|]; [|discriminate].
  intro H. injection H as <-. apply clip_in01, fillna_notna.
Qed.

Lemma fillna_in01 (c : cell) : in01 c -> fillna 0 c = c.
Proof. destruct c; simpl; try contradiction; reflexivity. Qed.

Lemma feature_proportions_in01 :
  forall (raw : list raw_row) (r : agg_row) (f : feature_row),
    feature_of raw r = Some f ->
    in01 (diversity f)
    /\ in01 (pct_a220 f) /\ in01 (pct_787 f) /\ in01 (pct_a350 f)
    /\ in01 (pct_a330neo f) /\ in01 (pct_neo f) /\ in01 (pct_max f)
    /\ in01 (pct_newgen_narrow f) /\ in01 (pct_newgen_wide f).
Proof.
  intros raw r f H. ratios H.
  repeat match goal with
         | R : ratio _ _ = Some _ |- _ => apply ratio_in01 in R
         end.
  rewrite !fillna_in01 by (try assumption; apply clip_sum_in01; assumption).
  repeat split; try assumption; apply clip_sum_in01; assumption.
Qed.

End FeatureExtras.

Section KeyedDedup.

Import Frame Text.

Variable A : Type.
Variable key : A -> string.

Lemma existsb_keq (x : A) (seen : list A) :
  existsb (fun y => String.eqb (key x) (key y)) seen = existsb (String.eqb (key x)) (map key seen).
Proof.
  induction seen as [|y seen IH]; simpl; [reflexivity|].
  rewrite IH. reflexivity.
Qed.

Lemma dedup_by_key (seen l : list A) :
  map key (dedup_by (fun x y => String.eqb (key x) (key y)) seen l)
  = dedup_by String.eqb (map key seen) (map key l).
Proof.
  revert seen. induction l as [|x l IH]; intro seen; simpl; [reflexivity|].
  rewrite existsb_keq.
  destruct (existsb (String.eqb (key x)) (map key seen)).
  - apply IH.
  - simpl. f_equal. apply (IH (x :: seen)).
Qed.

Lemma dedup_by_key_sub (seen l : list A) (x : A) :
  In x (dedup_by (fun x y => String.eqb (key x) (key y)) seen l) -> In x l.
Proof.
  revert seen. induction l as [|y l IH]; intro seen; simpl; [tauto|].
  destruct (existsb (fun z => String.eqb (key y) (key z)) seen).
  - intro H. right. apply (IH _ H).
  - intros [-> | H]; [left; reflexivity | right; apply (IH _ H)].
Qed.

Lemma dedup_by_key_first (seen l1 l2 : list A) (x : A) :
  ~ In (key x) (map key seen) -> ~ In (key x) (map key l1) ->
  In x (dedup_by (fun x y => String.eqb (key x) (key y)) seen (l1 ++ x :: l2)).
Proof.
  revert seen. induction l1 as [|y l1 IH]; intros seen Hs Hl; simpl.
  - rewrite existsb_keq.
    destruct (existsb (String.eqb (key x)) (map key seen)) eqn:E.
    + apply (existsb_eqb _ string_eqb_eq) in E. contradiction.
    + left. reflexivity.
  - assert (Hy : key y <> key x).
    { intro E. apply Hl. left. exact E. }
    assert (Hl' : ~ In (key x) (map key l1)).
    { intro H. apply Hl. right. exact H. }
    destruct (existsb (fun z => String.eqb (key y) (key z)) seen).
    + apply IH; assumption.
    + right. apply IH; [|exact Hl'].
      simpl. intros [E | H]; [apply Hy; exact E | apply Hs; exact H].
Qed.

End KeyedDedup.

Section FeatureTable.

Import Frame Text Num Classifier BuildFeatures Statements Examples.
Open Scope Q_scope.

Lemma duplicated_length (seen seen' l : list string) :
  (forall y, existsb (String.eqb y) seen = existsb (String.eqb y) seen') ->
  (List.length (dedup_by String.eqb seen l) + count_true (duplicated seen' l)
   = List.length l)%nat.
Proof.
  revert seen seen'.
  induction l as [|x l IH]; intros seen seen' Hs; simpl; [reflexivity|].
  unfold count_true, mem in *. simpl. rewrite <- (Hs x).
  destruct (existsb (String.eqb x) seen) eqn:E; simpl.
  - assert (H : forall y, existsb (String.eqb y) seen
                          = existsb (String.eqb y) (x :: seen')).
    { intro y. simpl. rewrite <- Hs.
      destruct (String.eqb_spec y x) as [-> | _]; [exact E | reflexivity]. }
    specialize (IH seen (x :: seen') H). lia.
  - assert (H : forall y, existsb (String.eqb y) (x :: seen)
                          = existsb (String.eqb y) (x :: seen')).
    { intro y. simpl. rewrite Hs. reflexivity. }
    specialize (IH (x :: seen) (x :: seen') H). lia.
Qed.

Lemma sequence_map (A B : Type) (f : A -> option B) (l : list A)
  (out : list B) :
  sequence (map f l) = Some out -> Forall2 (fun x y => f x = Some y) l out.
Proof.
  revert out. induction l as [|x l IH]; simpl; intros out H.
  - injection H as <-. constructor.
  - destruct (f x) as [y|] eqn:E; [|discriminate].
    destruct (sequence (map f l)) as [t|]; [|discriminate].
    injection H as <-. constructor; [exact E | apply IH; reflexivity].
Qed.

Lemma feature_of_airline (raw : list raw_row) (r : agg_row)
  (f : feature_row) :
  feature_of raw r = Some f -> airline f = a_airline r.
Proof. intro H. ratios H. reflexivity. Qed.

Lemma features_airlines (raw : list raw_row) (agg : list agg_row)
  (rows : list feature_row) :
  Forall2 (fun r f => feature_of raw r = Some f) agg rows ->
  map airline rows = map a_airline agg.
Proof.
  induction 1 as [|r f agg rows H _ IH]; simpl; [reflexivity|].
  rewrite IH, (@feature_of_airline raw _ _ H). reflexivity.
Qed.

Lemma build_features_rows (agg : list agg_row) (raw : list raw_row)
  (out : list feature_row) (f : feature_row) :
  build_features agg raw = Some out -> In f out ->
  exists r, In r agg /\ feature_of raw r = Some f.
Proof.
  unfold build_features, bind.
  destruct (sequence (map (feature_of raw) agg)) as [rows|] eqn:E;
    [|discriminate].
  intros H Hin. injection H as <-.
  apply dedup_by_key_sub in Hin.
  pose proof (@sequence_In _ _ _ _ E Hin) as Hs.
  apply in_map_iff in Hs. destruct Hs as (r & Hr & Hin').
  exists r. split; assumption.
Qed.

(** X8.  In the table that build_features.py exports the airline names are
    distinct and are those of the aggregated sheet; the number of
    exported rows plus the duplicates that the validator counts is the
    number of rows of the aggregated sheet; and the row that is kept for
    a name is the one of its first occurrence. *)
Theorem X8_one_row_per_airline :
  forall (agg : list agg_row) (raw : list raw_row) (out : list feature_row),
    build_features agg raw = Some out ->
    NoDup (map airline out)
    /\ (forall a, In a (map airline out) <-> In a (map a_airline agg))
    /\ (List.length out + dup_agg agg = List.length agg)%nat
    /\ (forall l1 r l2,
          agg = (l1 ++ r :: l2)%list ->
          ~ In (a_airline r) (map a_airline l1) ->
          exists f, feature_of raw r = Some f /\ In f out).
Proof.
  intros agg raw out. unfold build_features, bind.
  destruct (sequence (map (feature_of raw) agg)) as [rows|] eqn:E;
    [|discriminate].
  intro H. injection H as <-.
  pose proof (@sequence_map _ _ _ _ _ E) as HF.
  pose proof (@features_airlines raw _ _ HF) as Hmap.
  pose proof (dedup_by_key airline [] rows) as Hk. simpl in Hk.
  split; [|split; [|split]].
  - rewrite Hk. apply (dedup_by_NoDup _ string_eqb_eq).
  - intro a. rewrite Hk, (dedup_by_In _ string_eqb_eq), Hmap. simpl. tauto.
  - rewrite <- (length_map airline), Hk, Hmap. unfold dup_agg.
    rewrite (duplicated_length [] [] (map a_airline agg));
      [apply length_map | reflexivity].
  - intros l1 r l2 -> Hfirst.
    apply Forall2_app_inv_l in HF.
    destruct HF as (rows1 & rows2 & H1 & H2 & ->).
    inversion H2 as [|? f ? rows3 Hf H3]; subst.
    exists f. split; [exact Hf|].
    apply dedup_by_key_first; [simpl; tauto|].
    rewrite (@features_airlines raw _ _ H1), (@feature_of_airline raw _ _ Hf).
    exact Hfirst.
Qed.

End FeatureTable.

Section FeatureTable2.

Import Frame Text Num Classifier BuildFeatures Statements Examples.
Open Scope Q_scope.

Lemma feq_fillna_refl (c : cell) : feq (fillna 0 c) (fillna 0 c) = true.
Proof.
  destruct c as [| | |q]; simpl; try reflexivity.
  apply Qeq_bool_iff. reflexivity.
Qed.

Lemma feature_v0_is_share (raw : list raw_row) (r : agg_row)
  (f : feature_row) :
  feature_of raw r = Some f ->
  feq (indice_modernite_v0 f) (new_gen_share f) = true.
Proof.
  intro H. ratios H. unfold final.
  destruct (a_new_gen_share r) as [s|];
    [|destruct (a_indice_modernite_v0 r) as [v|]];
    apply feq_fillna_refl.
Qed.

(** X9.  The third figure of the validator of build_features.py, the
    number of exported rows whose indice_modernite_v0 differs from
    new_gen_share, is always 0. *)
Theorem X9_v0_never_differs_from_new_gen_share :
  forall (agg : list agg_row) (raw : list raw_row) (out : list feature_row),
    build_features agg raw = Some out -> neq_v0_ngs out = 0%nat.
Proof.
  intros agg raw out H. unfold neq_v0_ngs.
  assert (Hall : forall f, In f out ->
                   feq (indice_modernite_v0 f) (new_gen_share f) = true).
  { intros f Hf. destruct (@build_features_rows _ _ _ _ H Hf) as (r & _ & Hr).
    apply (@feature_v0_is_share raw r f Hr). }
  clear H. induction out as [|f out IH]; [reflexivity|].
  simpl. rewrite (Hall f (or_introl eq_refl)). simpl.
  apply IH. intros x Hx. apply Hall. right. exact Hx.
Qed.

Lemma ratio_zero_num (den r : cell) :
  ratio (Fin 0) den = Some r -> r = Fin 0.
Proof.
  unfold ratio, bind. simpl fillna.
  destruct den as [| | |y]; simpl.
  - intro H. injection H as <-. reflexivity.
  - intro H. injection H as <-. reflexivity.
  - intro H. injection H as <-. reflexivity.
  - destruct (Qeq_bool y 0) eqn:E; simpl; [discriminate|].
    assert (C : (y ?= 0) <> Eq).
    { intro C. apply Qeq_alt in C. apply Qeq_bool_iff in C. congruence. }
    assert (Hz : 0 / y == 0) by (unfold Qdiv; apply Qmult_0_l).
    assert (E0 : Qle_bool (0 / y) 0 = true).
    { apply Qle_bool_iff. rewrite Hz. apply Qle_refl. }
    unfold div. destruct (y ?= 0); [contradiction C; reflexivity | |];
      intro H; injection H as <-; simpl; unfold qmin, qmax;
      rewrite E0; reflexivity.
Qed.

Lemma n_models_row_absent (raw : list raw_row) (a : string) :
  (forall x, In x raw -> airline_norm x <> a) ->
  n_models_row raw a = None.
Proof.
  intro H. unfold n_models_row.
  destruct (mem a (n_models_keys raw)) eqn:E; [|reflexivity].
  exfalso. unfold mem in E. apply (existsb_eqb _ string_eqb_eq) in E.
  unfold n_models_keys, sort in E.
  rewrite sort_by_In, unique_In, in_map_iff in E.
  destruct E as (x & Ex & Hx). apply (H x Hx Ex).
Qed.

(** X10.  An airline of the aggregated sheet that has no row in the raw
    sheet, under the normalised name, is exported with n_models 0,
    diversity 0, all six family counts 0 and both new-generation
    proportions 0, and the validator counts it among the rows without
    models. *)
Theorem X10_airline_absent_from_the_raw_sheet :
  forall (raw : list raw_row) (r : agg_row) (f : feature_row),
    (forall x, In x raw -> airline_norm x <> norm_name (Some (a_airline r))) ->
    feature_of raw r = Some f ->
    n_models f = Fin 0 /\ diversity f = Fin 0
    /\ n_a220 f = Fin 0 /\ n_787 f = Fin 0 /\ n_a350 f = Fin 0
    /\ n_a330neo f = Fin 0 /\ n_neo f = Fin 0 /\ n_max f = Fin 0
    /\ pct_newgen_narrow f = Fin 0 /\ pct_newgen_wide f = Fin 0
    /\ zero_models [f] = 1%nat.
Proof.
  intros raw r f Habs H.
  unfold feature_of in H. rewrite (@n_models_row_absent raw _ Habs) in H.
  simpl fillna in H. unfold bind in H.
  repeat match type of H with
         | context [match ratio ?a ?b with _ => _ end] =>
             let E := fresh "R" in
             destruct (ratio a b) eqn:E; [|discriminate H];
             apply ratio_zero_num in E; subst
         end.
  injection H as <-. simpl. repeat split; reflexivity.
Qed.

End FeatureTable2.

Section FeatureTable3.

Import Frame Text Num Classifier BuildFeatures Statements Examples.
Open Scope Q_scope.

(** X11.  In every row of the table that build_features.py exports, the
    diversity, the six family proportions and the two new-generation
    proportions are finite numbers of [0,1]. *)
Theorem X11_exported_proportions_are_in_range :
  forall (agg : list agg_row) (raw : list raw_row) (out : list feature_row)
         (f : feature_row),
    build_features agg raw = Some out -> In f out ->
    in01 (diversity f)
    /\ in01 (pct_a220 f) /\ in01 (pct_787 f) /\ in01 (pct_a350 f)
    /\ in01 (pct_a330neo f) /\ in01 (pct_neo f) /\ in01 (pct_max f)
    /\ in01 (pct_newgen_narrow f) /\ in01 (pct_newgen_wide f).
Proof.
  intros agg raw out f H Hf.
  destruct (@build_features_rows _ _ _ _ H Hf) as (r & _ & Hr).
  apply (@feature_proportions_in01 raw r f Hr).
Qed.

Lemma X11_witness :
  exists f,
    build_features [small_agg] empty_fleet_raw = Some [f]
    /\ in01 (diversity f) /\ in01 (pct_787 f) /\ in01 (pct_newgen_wide f).
Proof.
  assert (E : exists f, build_features [small_agg] empty_fleet_raw = Some [f])
    by (vm_compute; eexists; reflexivity).
  destruct E as (f & E). exists f. split; [exact E|].
  destruct (@X11_exported_proportions_are_in_range
              [small_agg] empty_fleet_raw [f] f E (or_introl eq_refl))
    as (Hd & _ & H7 & _ & _ & _ & _ & _ & Hw).
  repeat split; assumption.
Defined.

Lemma X8_witness :
  exists f g,
    build_features twice_agg empty_fleet_raw = Some [f; g]
    /\ NoDup (map airline [f; g])
    /\ dup_agg twice_agg = 1%nat
    /\ (List.length [f; g] + dup_agg twice_agg = List.length twice_agg)%nat.
Proof.
  assert (E : exists f g,
             build_features twice_agg empty_fleet_raw = Some [f; g])
    by (vm_compute; eexists; eexists; reflexivity).
  destruct E as (f & g & E). exists f, g. split; [exact E|].
  destruct (@X8_one_row_per_airline twice_agg empty_fleet_raw [f; g] E)
    as (Hnd & _ & Hlen & _).
  split; [exact Hnd|]. split; [reflexivity | exact Hlen].
Defined.

Lemma X9_witness :
  exists out,
    build_features twice_agg empty_fleet_raw = Some out
    /\ neq_v0_ngs out = 0%nat.
Proof.
  assert (E : exists out, build_features twice_agg empty_fleet_raw = Some out)
    by (vm_compute; eexists; reflexivity).
  destruct E as (out & E). exists out. split; [exact E|].
  apply (@X9_v0_never_differs_from_new_gen_share
           twice_agg empty_fleet_raw out E).
Defined.

Lemma X10_witness :
  exists f,
    feature_of empty_fleet_raw absent_agg = Some f
    /\ n_models f = Fin 0 /\ diversity f = Fin 0
    /\ pct_newgen_wide f = Fin 0.
Proof.
  assert (E : exists f, feature_of empty_fleet_raw absent_agg = Some f)
    by (vm_compute; eexists; reflexivity).
  destruct E as (f & E). exists f. split; [exact E|].
  assert (Habs : forall x, In x empty_fleet_raw ->
                   airline_norm x <> norm_name (Some (a_airline absent_agg))).
  { intros x [<- | []]. vm_compute. discriminate. }
  destruct (@X10_airline_absent_from_the_raw_sheet
              empty_fleet_raw absent_agg f Habs E)
    as (Hn & Hd & _ & _ & _ & _ & _ & _ & _ & Hw & _).
  repeat split; assumption.
Defined.

Lemma count_le_nunique (flag : tags -> bool) (a : string)
  (raw : list raw_row) :
  (count_tag flag a (models_tagged raw) <= nunique_models a raw)%nat.
Proof.
  destruct (family_count_distinct flag a raw) as (ms & Hnd & Hms & ->).
  destruct (n_models_distinct a raw) as (ns & _ & Hns & ->).
  apply NoDup_incl_length; [exact Hnd|].
  intros m Hm. apply Hns. apply Hms in Hm. apply Hm.
Qed.

Lemma Qnat_nonneg (n : nat) : 0 <= Qnat n.
Proof. unfold Qnat. change 0 with (inject_Z 0). rewrite <- Zle_Qle. lia. Qed.

Lemma Qnat_mono (n m : nat) : (n <= m)%nat -> Qnat n <= Qnat m.
Proof. intro H. unfold Qnat. rewrite <- Zle_Qle. lia. Qed.

(** X12.  In a row of build_features.py none of the six family counts
    exceeds n_models: a family count is a number of distinct models of
    the airline. *)
Theorem X12_family_counts_are_bounded_by_n_models :
  forall (raw : list raw_row) (r : agg_row) (f : feature_row)
         (family : feature_row -> cell),
    feature_of raw r = Some f ->
    In family [n_a220; n_787; n_a350; n_a330neo; n_neo; n_max] ->
    exists k n, family f = Fin k /\ n_models f = Fin n /\ 0 <= k /\ k <= n.
Proof.
  intros raw r f family H Hfam. ratios H.
  unfold n_models_row.
  destruct (mem _ (n_models_keys raw)); simpl.
  - simpl in Hfam.
    repeat (destruct Hfam as [<- | Hfam];
            [eexists; eexists; split; [reflexivity|]; split; [reflexivity|];
             split; [apply Qnat_nonneg | apply Qnat_mono, count_le_nunique]|]).
    contradiction.
  - simpl in Hfam.
    repeat (destruct Hfam as [<- | Hfam];
            [exists 0, 0; repeat split; apply Qle_refl|]).
    contradiction.
Qed.

Lemma X12_witness :
  exists f k n,
    feature_of empty_fleet_raw small_agg = Some f
    /\ n_787 f = Fin k /\ n_models f = Fin n /\ 0 <= k /\ k <= n.
Proof.
  assert (E : exists f, feature_of empty_fleet_raw small_agg = Some f)
    by (vm_compute; eexists; reflexivity).
  destruct E as (f & E). exists f.
  destruct (@X12_family_counts_are_bounded_by_n_models
              empty_fleet_raw small_agg f n_787 E)
    as (k & n & H).
  - right. left. reflexivity.
  - exists k, n. split; [exact E | exact H].
Defined.

End FeatureTable3.

(* ------------------------------------------------------------------ *)
(** ** air9_compute_scores.py *)

Section ScorerExtras.

Import Frame Text Num Scorer Statements Examples.
Open Scope Q_scope.

Lemma unit_clip_idem (y : Q) : unit_clip (unit_clip y) = unit_clip y.
Proof.
  unfold unit_clip, qmin, qmax.
  destruct (Qle_bool y 0) eqn:E0; [reflexivity|].
  destruct (Qle_bool y 1) eqn:E1.
  - rewrite E0, E1. reflexivity.
  - reflexivity.
Qed.

Lemma to_prop_shape (c : cell) : exists y, to_prop c = Fin (unit_clip y).
Proof.
  unfold to_prop. destruct c as [| | |q]; simpl.
  - exists 0. reflexivity.
  - exists 2. reflexivity.
  - exists 0. reflexivity.
  - destruct (Qltb 1 q); simpl; eexists; reflexivity.
Qed.

Lemma to_prop_unit_clip (y : Q) :
  to_prop (Fin (unit_clip y)) = Fin (unit_clip y).
Proof.
  destruct (unit_clip_bounds y) as [_ H1].
  rewrite (to_prop_unit H1), unit_clip_idem. reflexivity.
Qed.

(** X13.  to_prop is idempotent.  The second pass that
    air9_compute_scores.py makes over pct_a220 when it rebuilds the
    new-generation proportions therefore changes nothing: in both
    branches the a220 component is to_prop of the pct_a220 column. *)
Theorem X13_to_prop_is_idempotent :
  (forall c, to_prop (to_prop c) = to_prop c)
  /\ (forall r, pct_a220 (components_of r) = to_prop (or_zero (f_pct_a220 r))).
Proof.
  assert (H : forall c, to_prop (to_prop c) = to_prop c).
  { intro c. destruct (to_prop_shape c) as (y & ->). apply to_prop_unit_clip. }
  split; [exact H|].
  intro r. unfold components_of.
  destruct (f_pct_newgen_narrow r), (f_pct_newgen_wide r); simpl;
    try reflexivity; apply H.
Qed.

End ScorerExtras.

Section ScorerExtras2.

Import Frame Text Num Scorer Statements Examples.
Open Scope Q_scope.

Lemma lt_fillna_false (fs : cell) : isna (fillna 0 fs) = false.
Proof. destruct fs; reflexivity. Qed.

(** X14.  Whatever the features file holds, every row of airline_scores.csv
    has a non-null fleet_size, a diversity and a modernity_index in
    [0,1] and the version "v1"; its notes are "fleet_too_small" when
    the fleet is below 5 and empty otherwise, and never mention a
    missing component. *)
Theorem X14_score_rows_are_in_range :
  forall (air3 : option (list (string * cell))) (feat : list feat_row)
         (outs : list score_row) (out : score_row),
    compute_scores air3 feat = Some outs -> In out outs ->
    isna (fleet_size out) = false
    /\ in01 (diversity out)
    /\ in01 (modernity_index out)
    /\ version_v1 out = "v1"%string
    /\ (lt (fleet_size out) 5 = true -> qa_notes out = "fleet_too_small"%string)
    /\ (lt (fleet_size out) 5 = false -> qa_notes out = ""%string)
    /\ ~ In "missing_component"%string (notes (qa_notes out)).
Proof.
  intros air3 feat outs out H Hin.
  destruct (@compute_scores_rows _ _ _ _ H Hin) as (r & fs & _ & Hr).
  destruct (score_row_of_some _ _ Hr) as (Hm & Hq & Hf & Hd).
  assert (Hv : version_v1 out = "v1"%string).
  { unfold score_row_of in Hr.
    destruct (diversity_of (fillna 0 fs) r); [|discriminate].
    injection Hr as <-. reflexivity. }
  rewrite Hm, Hq, Hf, qa_of_row. unfold MIN_FLEET.
  repeat split.
  - apply fillna_notna.
  - apply (diversity_of_in01 _ _ Hd).
  - apply modernity_of_row_in01.
  - exact Hv.
  - intros ->. reflexivity.
  - intros ->. reflexivity.
  - destruct (lt (fillna 0 fs) 5); vm_compute; intros [E | []]; discriminate E.
Qed.

Lemma X14_witness :
  exists outs out,
    compute_scores None [full_row] = Some outs /\ In out outs
    /\ in01 (diversity out) /\ in01 (modernity_index out)
    /\ qa_notes out = ""%string.
Proof.
  assert (E : exists out, compute_scores None [full_row] = Some [out])
    by (vm_compute; eexists; reflexivity).
  destruct E as (out & E). exists [out], out.
  assert (Hin : In out [out]) by (left; reflexivity).
  destruct (@X14_score_rows_are_in_range None [full_row] [out] out E Hin)
    as (_ & Hd & Hm & _ & _ & Hq & _).
  repeat split; try assumption.
  apply Hq. revert E. vm_compute. intro E. injection E as <-. reflexivity.
Defined.

End ScorerExtras2.

Section ScorerExtras3.

Import Frame Text Num Scorer Statements Examples.
Open Scope Q_scope.

Lemma merge_air3_keeps (air3 : list (string * cell)) (r : feat_row)
  (c : cell) (x : feat_row) (fs : cell) :
  f_fleet_size r = Some c ->
  In (x, fs) (merge_air3 air3 r) -> x = r /\ fs = c.
Proof.
  intros Hc. unfold merge_air3. rewrite Hc.
  destruct (filter _ air3) as [|h hits].
  - intros [E | []]. injection E as <- <-. auto.
  - intro H. apply in_map_iff in H. destruct H as (y & E & _).
    injection E as <- <-. auto.
Qed.

Lemma filter_key_NoDup (A : Type) (key : A -> string) (k : string)
  (l : list A) :
  NoDup (map key l) ->
  (List.length (filter (fun a => String.eqb (key a) k) l) <= 1)%nat.
Proof.
  induction l as [|a l IH]; simpl; [lia|].
  intro H. inversion H as [|? ? Hn Hnd]; subst.
  destruct (String.eqb_spec (key a) k) as [E | E]; [|apply IH; exact Hnd].
  simpl. assert (filter (fun a0 => String.eqb (key a0) k) l = []) as ->.
  { clear IH H Hnd. induction l as [|b l IH]; simpl; [reflexivity|].
    destruct (String.eqb_spec (key b) k) as [E' | E'].
    - exfalso. apply Hn. left. congruence.
    - apply IH. intro Hin. apply Hn. right. exact Hin. }
  simpl. lia.
Qed.

Lemma merge_air3_single (air3 : list (string * cell)) (r : feat_row)
  (c : cell) :
  NoDup (map (fun a => norm_name (fst a)) air3) ->
  f_fleet_size r = Some c ->
  merge_air3 air3 r = [(r, c)].
Proof.
  intros Hnd Hc. unfold merge_air3. rewrite Hc.
  pose proof (filter_key_NoDup (fun a : string * cell => norm_name (fst a))
                (norm_name (f_airline r)) air3 Hnd) as Hl.
  destruct (filter _ air3) as [|h [|h' hits]]; simpl in *;
    [reflexivity | reflexivity | lia].
Qed.

(** X15.  When the features file has a fleet_size column, the AIR3 sheet
    never supplies a fleet size: every scored row has the fleet_size of
    its features row, a null one having become 0.  When moreover the
    normalised names of the AIR3 sheet are distinct, the scores are
    those of a run without the sheet. *)
Theorem X15_air3_never_fills_a_fleet_size :
  forall (air3 : list (string * cell)) (feat : list feat_row),
    (forall r, In r feat -> f_fleet_size r <> None) ->
    (forall outs out,
       compute_scores (Some air3) feat = Some outs -> In out outs ->
       exists r c, In r feat /\ f_fleet_size r = Some c
                   /\ airline out = f_airline r
                   /\ fleet_size out = fillna 0 c)
    /\ (NoDup (map (fun a => norm_name (fst a)) air3) ->
        compute_scores (Some air3) feat = compute_scores None feat).
Proof.
  intros air3 feat Hcol. split.
  - intros outs out H Hin. unfold compute_scores in H.
    pose proof (@sequence_In _ _ _ _ H Hin) as Hs.
    apply in_map_iff in Hs. destruct Hs as ([r fs] & E & Hp). simpl in E.
    assert (Hr : In r feat) by (apply (complete_fleet_size_rows _ _ _ _ Hp)).
    destruct (f_fleet_size r) as [c|] eqn:Hc; [|contradiction (Hcol r Hr)].
    exists r, c. split; [exact Hr|]. split; [exact Hc|].
    assert (Hfs : fs = c).
    { unfold complete_fleet_size in Hp.
      assert (Hkeep : In (r, fs)
                (map (fun r0 => (r0, match f_fleet_size r0 with
                                     | Some c0 => c0
                                     | None => Fin 0
                                     end)) feat) -> fs = c).
      { intro Hk. apply in_map_iff in Hk. destruct Hk as (x & Ex & _).
        injection Ex as -> <-. rewrite Hc. reflexivity. }
      destruct (fleet_size_incomplete feat); [|exact (Hkeep Hp)].
      apply in_flat_map in Hp. destruct Hp as (x & Hx & Hp).
      destruct (f_fleet_size x) as [cx|] eqn:Hcx;
        [|contradiction (Hcol x Hx)].
      destruct (@merge_air3_keeps air3 x cx r fs Hcx Hp) as [-> ->].
      congruence. }
    subst fs. destruct (score_row_of_some _ _ E) as (_ & _ & Hf & _).
    split; [|exact Hf].
    unfold score_row_of in E.
    destruct (diversity_of (fillna 0 c) r); [|discriminate].
    injection E as <-. reflexivity.
  - intro Hnd. unfold compute_scores. f_equal. unfold complete_fleet_size.
    destruct (fleet_size_incomplete feat); [|reflexivity].
    clear - Hcol Hnd. induction feat as [|r feat IH]; [reflexivity|].
    simpl. destruct (f_fleet_size r) as [c|] eqn:Hc.
    + rewrite (@merge_air3_single air3 r c Hnd Hc). simpl. f_equal.
      apply IH. intros x Hx. apply Hcol. right. exact Hx.
    + exfalso. apply (Hcol r); [left; reflexivity | exact Hc].
Qed.

End ScorerExtras3.

Section ScorerExtras4.

Import Frame Text Num Scorer Statements Examples.
Open Scope Q_scope.

Lemma X15_witness :
  (forall r, In r [nan_fleet_row] -> f_fleet_size r <> None)
  /\ NoDup (map (fun a => norm_name (fst a)) air3_sheet)
  /\ compute_scores (Some air3_sheet) [nan_fleet_row]
     = compute_scores None [nan_fleet_row]
  /\ exists out,
       compute_scores (Some air3_sheet) [nan_fleet_row] = Some [out]
       /\ fleet_size out = Fin 0.
Proof.
  assert (Hcol : forall r, In r [nan_fleet_row] -> f_fleet_size r <> None).
  { intros r [<- | []]. discriminate. }
  assert (Hnd : NoDup (map (fun a => norm_name (fst a)) air3_sheet)).
  { repeat constructor. intros []. }
  destruct (@X15_air3_never_fills_a_fleet_size air3_sheet [nan_fleet_row] Hcol)
    as [Hrows Heq].
  split; [exact Hcol|]. split; [exact Hnd|]. split; [exact (Heq Hnd)|].
  assert (E : exists out,
             compute_scores (Some air3_sheet) [nan_fleet_row] = Some [out])
    by (vm_compute; eexists; reflexivity).
  destruct E as (out & E). exists out. split; [exact E|].
  destruct (Hrows [out] out E (or_introl eq_refl))
    as (r & c & [<- | []] & Hc & _ & Hf).
  rewrite Hf. injection Hc as <-. reflexivity.
Defined.

Lemma clip_fin (q : Q) : clip 0 1 (Fin q) = Fin (unit_clip q).
Proof. reflexivity. Qed.

Lemma unit_clip_mono (x y : Q) : x <= y -> unit_clip x <= unit_clip y.
Proof. intro H. unfold unit_clip. qsolve. Qed.

(** X16.  The modernity index is monotone: raising one of the three
    components never lowers it. *)
Theorem X16_modernity_index_is_monotone :
  forall (c c' : components) (n w a n' w' a' : Q),
    pct_newgen_narrow c = Fin n -> pct_newgen_wide c = Fin w ->
    pct_a220 c = Fin a ->
    pct_newgen_narrow c' = Fin n' -> pct_newgen_wide c' = Fin w' ->
    pct_a220 c' = Fin a' ->
    n <= n' -> w <= w' -> a <= a' ->
    exists x y,
      modernity_of c = Fin x /\ modernity_of c' = Fin y /\ x <= y.
Proof.
  intros c c' n w a n' w' a' Hn Hw Ha Hn' Hw' Ha' Ln Lw La.
  unfold modernity_of, weighted_sum.
  rewrite Hn, Hw, Ha, Hn', Hw', Ha'. simpl.
  eexists. eexists. split; [reflexivity|]. split; [reflexivity|].
  apply unit_clip_mono. lra.
Qed.

Lemma X16_witness :
  exists x y,
    modernity_of (components_of full_row) = Fin x
    /\ modernity_of (mk_components (Fin 0.75) (Fin 0.25) (Fin 0.5)) = Fin y
    /\ x <= y.
Proof.
  apply (@X16_modernity_index_is_monotone
           (components_of full_row)
           (mk_components (Fin 0.75) (Fin 0.25) (Fin 0.5))
           0.5 0.25 0.25 0.75 0.25 0.5).
  all: try reflexivity.
  all: vm_compute; discriminate.
Defined.

End ScorerExtras4.

(* ------------------------------------------------------------------ *)
(** ** From the export to the scores *)

Section Pipeline.

Import Frame Text Num Statements Examples.
Open Scope Q_scope.

Lemma to_prop_in01_eqc (c : cell) : in01 c -> Scorer.to_prop c =c= c.
Proof.
  destruct c as [| | |q]; simpl; try contradiction.
  intros [H0 H1]. rewrite (to_prop_unit H1). simpl.
  apply unit_clip_id; assumption.
Qed.

Lemma feature_fleet_size_notna (raw : list BuildFeatures.raw_row)
  (r : BuildFeatures.agg_row) (f : BuildFeatures.feature_row) :
  BuildFeatures.feature_of raw r = Some f ->
  isna (BuildFeatures.fleet_size f) = false.
Proof. intro H. ratios H. apply fillna_notna. Qed.

Lemma fillna_id (c : cell) : isna c = false -> fillna 0 c = c.
Proof. destruct c; simpl; [discriminate | | |]; reflexivity. Qed.

Lemma score_of_feature (raw : list BuildFeatures.raw_row)
  (r : BuildFeatures.agg_row) (f : BuildFeatures.feature_row) :
  BuildFeatures.feature_of raw r = Some f ->
  exists out,
    Scorer.score_row_of (Scorer.of_feature f) (BuildFeatures.fleet_size f)
    = Some out
    /\ scored f out.
Proof.
  intro H.
  pose proof (@feature_fleet_size_notna raw r f H) as Hfs.
  destruct (@feature_proportions_in01 raw r f H)
    as (Hd & Ha & _ & _ & _ & _ & _ & Hn & Hw).
  unfold Scorer.score_row_of. simpl.
  eexists. split; [reflexivity|]. unfold scored. simpl.
  split; [apply fillna_id, Hfs|].
  split; [apply to_prop_in01_eqc, Hd|].
  unfold Scorer.modernity_of, Scorer.components_of. simpl.
  destruct (BuildFeatures.pct_newgen_narrow f) as [| | |n];
    simpl in Hn; try contradiction.
  destruct (BuildFeatures.pct_newgen_wide f) as [| | |w];
    simpl in Hw; try contradiction.
  destruct (BuildFeatures.pct_a220 f) as [| | |a];
    simpl in Ha; try contradiction.
  destruct Hn as [Hn0 Hn1], Hw as [Hw0 Hw1], Ha as [Ha0 Ha1].
  rewrite (to_prop_unit Hn1), (to_prop_unit Hw1), (to_prop_unit Ha1).
  simpl. apply unit_clip_compat.
  rewrite (unit_clip_id Hn0 Hn1), (unit_clip_id Hw0 Hw1),
    (unit_clip_id Ha0 Ha1).
  reflexivity.
Qed.

(** X17.  On the table that build_features.py exports,
    air9_compute_scores.py does not stop, with or without an AIR3 sheet,
    and gives one score row per exported row, in the same order: the
    fleet size and the diversity of the exported row, and the clamped
    weighted sum of its proportions, none of which to_prop rescales. *)
Theorem X17_scoring_the_exported_features :
  forall (agg : list BuildFeatures.agg_row)
         (raw : list BuildFeatures.raw_row)
         (feats : list BuildFeatures.feature_row)
         (air3 : option (list (string * cell))),
    BuildFeatures.build_features agg raw = Some feats ->
    exists outs,
      Scorer.compute_scores air3 (map Scorer.of_feature feats) = Some outs
      /\ Forall2 scored feats outs.
Proof.
  intros agg raw feats air3 H.
  assert (Hrow : forall f, In f feats ->
            exists r, BuildFeatures.feature_of raw r = Some f).
  { intros f Hf. destruct (@build_features_rows _ _ _ _ H Hf) as (r & _ & Hr).
    exists r. exact Hr. }
  clear H. unfold Scorer.compute_scores, Scorer.complete_fleet_size.
  assert (Hc : Scorer.fleet_size_incomplete (map Scorer.of_feature feats)
               = false).
  { unfold Scorer.fleet_size_incomplete.
    apply not_true_is_false. intro E. apply existsb_exists in E.
    destruct E as (x & Hx & E). apply in_map_iff in Hx.
    destruct Hx as (f & <- & Hf). simpl in E.
    destruct (Hrow f Hf) as (r & Hr).
    rewrite (@feature_fleet_size_notna raw r f Hr) in E. discriminate. }
  rewrite Hc. clear Hc.
  induction feats as [|f feats IH];
    cbn [map fst snd Scorer.of_feature Scorer.f_fleet_size sequence].
  - exists []. split; [reflexivity | constructor].
  - destruct (Hrow f (or_introl eq_refl)) as (r & Hr).
    destruct (@score_of_feature raw r f Hr) as (out & E & Hs).
    destruct IH as (outs & Eo & HF).
    { intros x Hx. apply Hrow. right. exact Hx. }
    cbn [map fst snd Scorer.of_feature Scorer.f_fleet_size sequence] in E.
    rewrite E, Eo. exists (out :: outs).
    split; [reflexivity | constructor; assumption].
Qed.

End Pipeline.

(* ------------------------------------------------------------------ *)
(** ** air13_build_country_mapping.py *)

Section CountryMapExtras.

Import Frame Text CountryMap Statements Examples.
Local Open Scope string_scope.

Variable pycountry : option (string -> option string).
Variable translator : option (string -> option string).

(** X18.  The country column of the file that air13_build_country_mapping.py
    writes is strictly increasing, hence without duplicates; its values
    are the stripped non-null countries of the raw sheet, and stripping
    them again changes nothing. *)
Theorem X18_mapping_rows_are_sorted_and_distinct :
  forall (raw : list (option string)) (file : option (list map_row)),
    let written := map country (main pycountry translator raw file) in
    StronglySorted (fun a b => String.ltb a b = true) written
    /\ NoDup written
    /\ (forall c, In c written <-> exists x, In (Some x) raw /\ strip x = c)
    /\ (forall c, In c written -> strip c = c).
Proof.
  intros raw file written. unfold written. rewrite main_countries.
  split; [apply countries_sorted|]. split; [apply unique_NoDup|]. split.
  - intro c. apply countries_of_In.
  - intros c Hc. apply (countries_stripped _ _ Hc).
Qed.

(** X19.  A country of the raw sheet that is in MANUAL_ALPHA2 and that the
    previous file does not have (or there is no previous file) gets a
    row with the code and the region of the manual tables, whatever
    pycountry and googletrans answer or whether they are installed: the
    code has two characters and the region is one of the eight listed
    regions. *)
Theorem X19_manual_tables_fill_a_new_country :
  forall (raw : list (option string)) (file : option (list map_row))
         (c : string),
    In (Some c) raw ->
    In (strip c) (map fst MANUAL_ALPHA2) ->
    (forall rows, file = Some rows ->
                  ~ In (strip c) (map country (load_old rows))) ->
    exists row,
      In row (main pycountry translator raw file)
      /\ country row = strip c
      /\ lookup (strip c) MANUAL_ALPHA2 = Some (country_code row)
      /\ lookup (strip c) MANUAL_REGION = Some (region row)
      /\ String.length (country_code row) = 2%nat
      /\ In (region row) world_regions.
Proof.
  intros raw file c Hraw Hkey Hnew.
  apply in_map_iff in Hkey. destruct Hkey as (kv & Ek & Hkv).
  pose proof (proj1 (forallb_forall _ _) manual_entries kv Hkv) as Hm.
  simpl in Hm. rewrite Ek in Hm. unfold manual_entry in Hm.
  destruct (lookup (strip c) MANUAL_ALPHA2) as [code|] eqn:Ec;
    [|discriminate].
  destruct (lookup (strip c) MANUAL_REGION) as [reg|] eqn:Er;
    [|discriminate].
  apply andb_true_iff in Hm. destruct Hm as [Hm Hs].
  apply andb_true_iff in Hm. destruct Hm as [Hm Hne].
  apply andb_true_iff in Hm. destruct Hm as [Hlen Hreg].
  apply Nat.eqb_eq in Hlen. apply mem_In in Hreg.
  exists (auto_fill pycountry translator (carry_over (option_map load_old file) (strip c))).
  split.
  - unfold main. apply in_map, in_map.
    apply countries_of_In. exists c. auto.
  - assert (Hrow : carry_over (option_map load_old file) (strip c)
                   = {| country := strip c; country_code := "";
                        region := "" |}).
    { unfold carry_over. rewrite strip_idem.
      destruct file as [rows|]; simpl; [|reflexivity].
      rewrite (@find_row_absent _ _ (Hnew rows eq_refl)). reflexivity. }
    assert (Hcode : nonempty code = true).
    { destruct code; [discriminate Hlen | reflexivity]. }
    rewrite Hrow. unfold auto_fill. cbn [country country_code region].
    change (strip "") with "". change (nonempty "") with false. cbn [negb].
    rewrite Er. unfold guess_iso_code. rewrite strip_idem, Hne. cbn [negb].
    rewrite Ec, Hcode. cbn [country country_code region]. auto.
Qed.

End CountryMapExtras.

Section IsoCode.

Import Frame Text CountryMap Statements Examples.
Local Open Scope string_scope.

(** X20.  guess_iso_code answers "" for a blank name; for a name of
    MANUAL_ALPHA2 it answers the code of the table, whatever the
    libraries; without pycountry it never consults the translator and
    answers from the table or ""; and when the direct search of
    pycountry succeeds the translator is not consulted either. *)
Theorem X20_iso_code_priorities :
  forall (pycountry translator : option (string -> option string))
         (c : string),
    (strip c = "" -> guess_iso_code pycountry translator c = "")
    /\ (forall code,
          strip c <> "" -> lookup (strip c) MANUAL_ALPHA2 = Some code ->
          guess_iso_code pycountry translator c = code)
    /\ guess_iso_code None translator c = guess_iso_code None None c
    /\ (forall search code,
          pycountry = Some search -> search (strip c) = Some code ->
          guess_iso_code pycountry translator c
          = guess_iso_code pycountry None c)
    /\ (guess_iso_code None translator c = ""
        \/ lookup (strip c) MANUAL_ALPHA2
           = Some (guess_iso_code None translator c)).
Proof.
  intros pycountry translator c. unfold guess_iso_code.
  split; [intros ->; reflexivity|].
  split.
  { intros code Hne Hl.
    destruct (strip c) eqn:E; [contradiction Hne; reflexivity|].
    cbn [nonempty negb]. rewrite Hl. reflexivity. }
  split.
  { destruct (nonempty (strip c)); cbn [negb]; [|reflexivity].
    destruct (lookup (strip c) MANUAL_ALPHA2); [reflexivity|].
    destruct translator; reflexivity. }
  split.
  { intros search code -> Hs.
    destruct (nonempty (strip c)); cbn [negb]; [|reflexivity].
    destruct (lookup (strip c) MANUAL_ALPHA2); [reflexivity|].
    rewrite Hs. reflexivity. }
  destruct (nonempty (strip c)); cbn [negb]; [|left; reflexivity].
  destruct (lookup (strip c) MANUAL_ALPHA2) as [code|];
    [right; reflexivity|].
  left. destruct translator; reflexivity.
Qed.

End IsoCode.

(* ------------------------------------------------------------------ *)
(** ** air14_region_summary.py *)

Section RegionText.

Import Frame Text Num Unicode Region Statements Examples.
Local Open Scope string_scope.

Context {U : unicodedata}.

Lemma collapse_letters (b : bool) (s : string) :
  every letter_or_space s = true ->
  every letter_or_space (collapse b s) = true.
Proof.
  revert b. induction s as [|c s IH]; intro b; simpl; [reflexivity|].
  intro H. apply andb_true_iff in H. destruct H as [Hc Hs].
  destruct (is_space c).
  - destruct b; simpl; [apply IH, Hs|]. apply IH, Hs.
  - simpl. rewrite Hc. apply IH, Hs.
Qed.

Lemma collapse_head (s : string) :
  match collapse true s with
  | String d _ => is_space d
  | EmptyString => false
  end = false.
Proof.
  induction s as [|c s IH]; simpl; [reflexivity|].
  destruct (is_space c) eqn:E; [exact IH|]. simpl. exact E.
Qed.

Lemma collapse_single_spaced (b : bool) (s : string) :
  single_spaced (collapse b s) = true.
Proof.
  revert b. induction s as [|c s IH]; intro b; simpl; [reflexivity|].
  destruct (is_space c) eqn:E.
  - destruct b; [apply IH|].
    simpl. rewrite collapse_head, IH. reflexivity.
  - simpl. rewrite E, IH. reflexivity.
Qed.

Lemma smap_letters (s : string) :
  every letter_or_space
    (smap (fun c => if is_upper c then c else " "%char) s) = true.
Proof.
  induction s as [|c s IH]; simpl; [reflexivity|].
  rewrite IH. unfold letter_or_space.
  destruct (is_upper c) eqn:E; [rewrite E|]; reflexivity.
Qed.

(** X21.  Whatever the input and the Unicode tables, normalize_str returns
    capital letters A-Z and spaces only, with no two spaces in a row. *)
Theorem X21_normalised_names_are_letters_and_single_spaces :
  forall v : option string,
    every letter_or_space (normalize_str v) = true
    /\ single_spaced (normalize_str v) = true.
Proof.
  intro v. unfold normalize_str. split.
  - apply collapse_letters, smap_letters.
  - apply collapse_single_spaced.
Qed.

End RegionText.

Section Keys.

Import Frame Text Num Unicode Region Statements Examples.
Local Open Scope string_scope.

Lemma is_space_upper (c : ascii) : is_space (upper_char c) = is_space c.
Proof. destruct c as [[] [] [] [] [] [] [] []]; reflexivity. Qed.

Lemma upper_char_idem (c : ascii) : upper_char (upper_char c) = upper_char c.
Proof. destruct c as [[] [] [] [] [] [] [] []]; reflexivity. Qed.

Lemma lstrip_upper (s : string) :
  lstrip_by is_space (upper s) = upper (lstrip_by is_space s).
Proof.
  unfold upper. induction s as [|c s IH]; simpl; [reflexivity|].
  rewrite is_space_upper. destruct (is_space c); [exact IH | reflexivity].
Qed.

Lemma rstrip_upper (s : string) :
  rstrip_by is_space (upper s) = upper (rstrip_by is_space s).
Proof.
  unfold upper. induction s as [|c s IH]; simpl; [reflexivity|].
  rewrite IH, is_space_upper.
  destruct (rstrip_by is_space s); simpl; [|reflexivity].
  destruct (is_space c); reflexivity.
Qed.

Lemma strip_upper (s : string) : strip (upper s) = upper (strip s).
Proof.
  unfold strip, strip_by. rewrite lstrip_upper, rstrip_upper. reflexivity.
Qed.

Lemma upper_idem (s : string) : upper (upper s) = upper s.
Proof.
  unfold upper. induction s as [|c s IH]; simpl; [reflexivity|].
  rewrite IH, upper_char_idem. reflexivity.
Qed.

(** X22.  The airline key of air14_region_summary.py (upper, then strip) is
    the norm_name of build_features.py and of air9_compute_scores.py
    (strip, then upper); the key is idempotent and ignores the case and
    the surrounding blanks of the name. *)
Theorem X22_the_three_scripts_share_one_airline_key :
  forall s : string,
    Region.airline_key (Some s) = Some (Scorer.norm_name s)
    /\ BuildFeatures.norm_name (Some s) = Scorer.norm_name s
    /\ Scorer.norm_name (Scorer.norm_name s) = Scorer.norm_name s
    /\ Scorer.norm_name (upper s) = Scorer.norm_name s
    /\ Scorer.norm_name (strip s) = Scorer.norm_name s.
Proof.
  intro s. unfold Region.airline_key, Scorer.norm_name,
    BuildFeatures.norm_name.
  split; [f_equal; apply strip_upper|]. split; [reflexivity|].
  split; [|split].
  - rewrite <- strip_upper, upper_idem, strip_upper, strip_idem. reflexivity.
  - rewrite strip_upper. apply upper_idem.
  - rewrite strip_idem. reflexivity.
Qed.

End Keys.

Section ManualCountry.

Import Frame Text Num Unicode Region Statements Examples.
Local Open Scope string_scope.

Lemma normalize_str_ascii (U : unicodedata) (s : string) :
  all_ascii s = true ->
  normalize_str (U := U) (Some s) = normalize_str (U := ascii_only) (Some s).
Proof.
  intro H. unfold normalize_str.
  rewrite (nfkd_ascii _ H), (strip_marks_ascii _ H). reflexivity.
Qed.

Lemma manual_keys_ascii :
  forallb (fun kv => all_ascii (fst kv)) MANUAL_COUNTRY_RAW = true.
Proof. vm_compute. reflexivity. Qed.

Lemma manual_country_any_tables (U : unicodedata) :
  MANUAL_COUNTRY (U := U) = MANUAL_COUNTRY (U := ascii_only).
Proof.
  unfold MANUAL_COUNTRY. apply map_ext_in. intros kv Hkv.
  rewrite normalize_str_ascii; [reflexivity|].
  apply (proj1 (forallb_forall _ _) manual_keys_ascii kv Hkv).
Qed.

Lemma manual_keys_found :
  forallb (fun kv =>
             opt_eqb (dict_get (normalize_str (U := ascii_only)
                                  (Some (fst kv)))
                               (MANUAL_COUNTRY (U := ascii_only)))
                     (Some (snd kv)))
          MANUAL_COUNTRY_RAW = true.
Proof. vm_compute. reflexivity. Qed.

(** X23.  Every entry of MANUAL_COUNTRY_RAW is found again through the
    normalised dictionary, whatever the Unicode tables: no two keys
    collide once normalised.  The same country is returned for any name
    with the same normalised form. *)
Theorem X23_every_manual_airline_is_found :
  forall (U : unicodedata) (k v name : string),
    In (k, v) MANUAL_COUNTRY_RAW ->
    normalize_str (Some name) = normalize_str (Some k) ->
    get_manual_country (Some k) = Some v
    /\ get_manual_country (Some name) = Some v.
Proof.
  intros U k v name Hin Hname.
  assert (Hk : get_manual_country (Some k) = Some v).
  { unfold get_manual_country.
    rewrite manual_country_any_tables, normalize_str_ascii.
    - pose proof
        (proj1 (forallb_forall _ _) manual_keys_found (k, v) Hin) as H.
      simpl fst in H. simpl snd in H.
      apply opt_eqb_eq in H. exact H.
    - apply (proj1 (forallb_forall _ _) manual_keys_ascii (k, v) Hin). }
  split; [exact Hk|].
  unfold get_manual_country in *. rewrite Hname. exact Hk.
Qed.

End ManualCountry.

Section Tokens.

Import Frame Text Num Unicode Region Statements Examples.
Local Open Scope string_scope.
Local Open Scope nat_scope.

Context {U : unicodedata}.

(** X24.  The tokens that extract_country_tokens returns are words of the
    cleaned country name, and there is at least one when the name has a
    word; when some word has four letters or more and is not a stop
    word, the tokens are exactly such words, and otherwise they are all
    the words. *)
Theorem X24_country_tokens :
  forall country_clean : string,
    let tokens := words country_clean in
    let kept := extract_country_tokens country_clean in
    (forall t, In t kept -> In t tokens)
    /\ (tokens <> [] -> kept <> [])
    /\ ((exists t, In t tokens /\ 4 <= String.length t
                   /\ ~ In t STOP_WORDS_FR) ->
        forall t, In t kept <->
                  In t tokens /\ 4 <= String.length t
                  /\ ~ In t STOP_WORDS_FR)
    /\ ((forall t, In t tokens ->
                   String.length t < 4 \/ In t STOP_WORDS_FR) ->
        kept = tokens).
Proof.
  intros s tokens kept. unfold kept, extract_country_tokens.
  fold tokens.
  set (good := fun t => negb (String.length t <? 4)
                        && negb (mem t STOP_WORDS_FR)).
  assert (Hgood : forall t, good t = true
                            <-> 4 <= String.length t /\ ~ In t STOP_WORDS_FR).
  { intro t. unfold good. rewrite andb_true_iff, !negb_true_iff.
    rewrite Nat.ltb_ge. split; intros [H1 H2]; split; try exact H1.
    - intro H. apply mem_In in H. congruence.
    - apply not_true_is_false. intro H. apply mem_In in H. contradiction. }
  repeat split.
  - intros t Ht. destruct (filter good tokens) eqn:E; [exact Ht|].
    rewrite <- E in Ht. apply filter_In in Ht. apply Ht.
  - intros Hne. destruct (filter good tokens); [exact Hne | discriminate].
  - destruct H as (w & Hw & Hlen & Hstop).
    assert (Hin : In w (filter good tokens)).
    { apply filter_In. split; [exact Hw | apply Hgood; auto]. }
    destruct (filter good tokens) eqn:E; [contradiction|].
    rewrite <- E in H0. apply filter_In in H0. apply H0.
  - destruct H as (w & Hw & Hlen & Hstop).
    assert (Hin : In w (filter good tokens)).
    { apply filter_In. split; [exact Hw | apply Hgood; auto]. }
    destruct (filter good tokens) eqn:E; [contradiction|].
    rewrite <- E in H0. apply filter_In in H0. apply Hgood, H0.
  - destruct H as (w & Hw & Hlen & Hstop).
    assert (Hin : In w (filter good tokens)).
    { apply filter_In. split; [exact Hw | apply Hgood; auto]. }
    destruct (filter good tokens) eqn:E; [contradiction|].
    rewrite <- E in H0. apply filter_In in H0. apply Hgood, H0.
  - intros (Ht & Hlen & Hstop).
    destruct H as (w & Hw & Hwl & Hws).
    assert (Hin : In w (filter good tokens)).
    { apply filter_In. split; [exact Hw | apply Hgood; auto]. }
    destruct (filter good tokens) eqn:E; [contradiction|].
    rewrite <- E. apply filter_In. split; [exact Ht | apply Hgood; auto].
  - intro Hall.
    assert (E : filter good tokens = []).
    { clear - Hall Hgood. induction tokens as [|t ts IH]; [reflexivity|].
      simpl. destruct (good t) eqn:G.
      - exfalso. apply Hgood in G. destruct G as [G1 G2].
        destruct (Hall t (or_introl eq_refl)) as [H | H];
          [lia | contradiction].
      - apply IH. intros x Hx. apply Hall. right. exact Hx. }
    rewrite E. reflexivity.
Qed.

End Tokens.

Section Guess.

Import Frame Text Num Unicode Region Statements Examples.
Local Open Scope string_scope.

Context {U : unicodedata}.

Lemma token_eqb_eq (x y : token_row) : token_eqb x y = true <-> x = y.
Proof.
  destruct x as [a s], y as [b t]. unfold token_eqb. simpl.
  rewrite andb_true_iff, opt_eqb_eq, String.eqb_eq.
  split; [intros [-> ->]; reflexivity | intro H; injection H; auto].
Qed.

Lemma token_table_In (mapping : list map_row) (c : option string)
  (tok : string) :
  In (c, tok) (build_country_token_table mapping)
  <-> exists row, In row mapping /\ m_country row = c
                  /\ In tok (extract_country_tokens (country_clean row)).
Proof.
  unfold build_country_token_table.
  rewrite (dedup_by_In _ token_eqb_eq), in_flat_map. simpl. split.
  - intros [(row & Hrow & Hin) _]. apply in_map_iff in Hin.
    destruct Hin as (t & E & Ht). injection E as <- <-.
    exists row. auto.
  - intros (row & Hrow & <- & Ht). split; [|tauto].
    exists row. split; [exact Hrow|]. apply in_map_iff.
    exists tok. auto.
Qed.

Lemma guess_sound (name : option string) (table : list token_row)
  (c : string) :
  guess_country_from_name name table = Some c ->
  exists n tok,
    name = Some n /\ In (Some c, tok) table /\ tok <> ""
    /\ contains tok (normalize_str (Some n)) = true.
Proof.
  unfold guess_country_from_name. destruct name as [n|]; [|discriminate].
  destruct (nonempty (normalize_str (Some n))); cbn [negb]; [|discriminate].
  match goal with
  | |- context [filter ?f table] => set (sel := f)
  end.
  destruct (filter sel table) as [|row rest] eqn:E; [discriminate|].
  intro H.
  assert (Hin : In row (filter sel table)) by (rewrite E; left; reflexivity).
  apply filter_In in Hin. destruct Hin as [Hrow Hm].
  unfold sel in Hm.
  apply andb_true_iff in Hm. destruct Hm as [Hne Hc].
  destruct row as [rc tok]. simpl in *. subst rc.
  exists n, tok. repeat split; try assumption.
  intros ->. discriminate Hne.
Qed.

(** X25.  A country that guess_country_from_name returns is the country of
    a row of the mapping, one of whose tokens occurs in the normalised
    airline name.  Hence the join of step 6 always finds a mapping row
    for it: each row it gives has the region of a mapping row of that
    normalised country. *)
Theorem X25_a_guessed_country_is_in_the_mapping :
  forall (mapping : list map_row) (name : option string) (c : string)
         (r : merged_row),
    guess_country_from_name name (build_country_token_table mapping)
    = Some c ->
    country r = Some c ->
    (exists n row tok,
       name = Some n /\ In row mapping /\ m_country row = Some c
       /\ In tok (extract_country_tokens (country_clean row))
       /\ contains tok (normalize_str (Some n)) = true)
    /\ forall x, In x (merge_region mapping r) ->
         exists row, In row mapping
                     /\ country_clean row = normalize_str (Some c)
                     /\ r_region x = m_region row.
Proof.
  intros mapping name c r Hg Hc.
  destruct (@guess_sound _ _ _ Hg) as (n & tok & -> & Htab & _ & Hcont).
  apply token_table_In in Htab. destruct Htab as (row & Hrow & Hm & Htok).
  split; [exists n, row, tok; auto|].
  intros x Hx. unfold merge_region in Hx. rewrite Hc in Hx.
  set (hits := filter (fun m => String.eqb (country_clean m)
                                  (normalize_str (Some c))) mapping) in *.
  assert (Hhit : In row hits).
  { unfold hits. apply filter_In. split; [exact Hrow|].
    unfold country_clean. rewrite Hm. apply String.eqb_refl. }
  destruct hits as [|h hits'] eqn:E; [contradiction|].
  apply in_map_iff in Hx. destruct Hx as (m & <- & Hin).
  assert (Hm' : In m (filter (fun m => String.eqb (country_clean m)
                                         (normalize_str (Some c))) mapping)).
  { fold hits. rewrite E. exact Hin. }
  apply filter_In in Hm'. destruct Hm' as [Hmap Heq].
  exists m. split; [exact Hmap|]. split; [apply String.eqb_eq, Heq|].
  reflexivity.
Qed.

End Guess.

Section Join.

Import Frame Text Num Unicode Region Statements Examples.
Local Open Scope string_scope.

Context {U : unicodedata}.

Lemma merge_region_single (mapping : list map_row) (r : merged_row) :
  NoDup (map country_clean mapping) ->
  map (fun x => (r_airline x, r_modernity_index x, r_country x))
      (merge_region mapping r)
  = [(airline r, modernity_index r, country r)].
Proof.
  intro Hnd. unfold merge_region.
  destruct (country r) as [c|]; [|reflexivity].
  pose proof (filter_key_NoDup country_clean (normalize_str (Some c))
                mapping Hnd) as Hl.
  destruct (filter _ mapping) as [|h [|h' hits]]; simpl in *;
    [reflexivity | reflexivity | lia].
Qed.

(** X26.  When the normalised countries of the mapping (the file followed
    by EXTRA_REGION) are distinct, the join of step 6 gives exactly one
    row per merged row, in the same order, with the same airline,
    modernity_index and country. *)
Theorem X26_region_join_keeps_one_row_per_score :
  forall (mapping : list map_row) (merged : list merged_row),
    NoDup (map country_clean mapping) ->
    map (fun x => (r_airline x, r_modernity_index x, r_country x))
        (join_region mapping merged)
    = map (fun r => (airline r, modernity_index r, country r)) merged
    /\ List.length (join_region mapping merged) = List.length merged.
Proof.
  intros mapping merged Hnd.
  assert (H : map (fun x => (r_airline x, r_modernity_index x, r_country x))
                  (join_region mapping merged)
              = map (fun r => (airline r, modernity_index r, country r))
                    merged).
  { unfold join_region. induction merged as [|r merged IH]; [reflexivity|].
    simpl. rewrite map_app, IH, (@merge_region_single mapping r Hnd). reflexivity. }
  split; [exact H|].
  rewrite <- (length_map (fun x => (r_airline x, r_modernity_index x,
                                    r_country x))), H.
  apply length_map.
Qed.

End Join.

Section Summary.

Import Frame Text Num Unicode Region Statements Examples.
Open Scope Q_scope.

Lemma sum_in01 (l : list cell) (acc : Q) :
  (forall c, In c l -> in01 c) ->
  exists s, fold_left add l (Fin acc) = Fin s
            /\ acc <= s /\ s <= acc + Region.Qnat (List.length l).
Proof.
  revert acc. induction l as [|c l IH]; intros acc H.
  - exists acc. simpl. split; [reflexivity|].
    change (Region.Qnat 0) with 0. lra.
  - pose proof (H c (or_introl eq_refl)) as Hq.
    destruct c as [| | |q]; simpl in Hq; try contradiction.
    destruct (IH (acc + q)) as (s & E & L1 & L2).
    { intros x Hx. apply H. right. exact Hx. }
    exists s. split; [exact E|].
    assert (Hn : Region.Qnat (List.length (Fin q :: l))
                 == Region.Qnat (List.length l) + 1).
    { unfold Region.Qnat. simpl List.length.
      rewrite Nat2Z.inj_succ, <- Z.add_1_r, inject_Z_plus. reflexivity. }
    rewrite Hn. lra.
Qed.

Lemma mean_in01 (l : list cell) :
  l <> [] -> (forall c, In c l -> in01 c) -> in01 (Region.mean l).
Proof.
  intros Hne H. unfold Region.mean.
  destruct (sum_in01 l 0 H) as (s & -> & L1 & L2).
  assert (Hpos : 0 < Region.Qnat (List.length l)).
  { unfold Region.Qnat. change 0 with (inject_Z 0). rewrite <- Zlt_Qlt.
    destruct l; [congruence | simpl; lia]. }
  unfold div.
  destruct (Region.Qnat (List.length l) ?= 0) eqn:C.
  - apply Qeq_alt in C. lra.
  - simpl. split.
    + apply Qle_shift_div_l; [exact Hpos | lra].
    + apply Qle_shift_div_r; [exact Hpos | lra].
  - simpl. split.
    + apply Qle_shift_div_l; [exact Hpos | lra].
    + apply Qle_shift_div_r; [exact Hpos | lra].
Qed.

(** X27.  When the modernity_index of every kept row is in [0,1], so is the
    mean of every region of the summary; every region of the summary is
    the region of a kept row, and its n_airlines is at most the number
    of its rows. *)
Theorem X27_regional_means_are_in_range :
  forall (kept : list region_row) (s : summary_row),
    (forall x, In x kept -> in01 (r_modernity_index x)) ->
    In s (summary_basic kept) ->
    in01 (mean_modernity_index s)
    /\ (exists x, In x kept /\ r_region x = Some (region s))
    /\ (n_airlines s
        <= List.length
             (filter (fun r => opt_eqb (r_region r) (Some (region s))) kept))%nat.
Proof.
  intros kept s Hall Hs.
  destruct (@summary_regions _ _ Hs) as (x & Hx & Hr).
  unfold summary_basic in Hs. apply in_map_iff in Hs.
  destruct Hs as (reg & <- & _). simpl in *.
  set (g := filter (fun r => opt_eqb (r_region r) (Some reg)) kept).
  assert (Hg : In x g).
  { apply filter_In. split; [exact Hx|]. apply opt_eqb_eq, Hr. }
  split; [|split].
  - apply mean_in01.
    + intro E. apply map_eq_nil in E. rewrite E in Hg. contradiction.
    + intros c Hc. apply in_map_iff in Hc. destruct Hc as (y & <- & Hy).
      apply Hall. apply filter_In in Hy. apply Hy.
  - exists x. auto.
  - etransitivity; [apply unique_length_le|].
    rewrite <- (length_map r_airline g).
    generalize (map r_airline g). clear.
    induction l as [|[a|] l IH]; simpl; lia.
Qed.

End Summary.

(* ------------------------------------------------------------------ *)
(** ** air19_create_fleet_bucket.py *)

Section Buckets.

Import Frame Text Num FleetBucket Statements.
Open Scope Q_scope.

Lemma fle_trans (a b c : cell) :
  fle a b = true -> fle b c = true -> fle a c = true.
Proof.
  destruct a as [| | |x], b as [| | |y], c as [| | |z]; simpl;
    try discriminate; try reflexivity.
  rewrite !Qle_bool_iff. apply Qle_trans.
Qed.

(** X28.  bucket_fleet_size gives no label exactly to a null fleet size,
    and is monotone whatever the two thresholds are: a fleet at least
    as large never gets a smaller bucket. *)
Theorem X28_a_larger_fleet_never_gets_a_smaller_bucket :
  forall (q1 q2 x y : cell),
    (bucket_fleet_size q1 q2 x = None <-> isna x = true)
    /\ (fle x y = true ->
        exists bx by',
          bucket_fleet_size q1 q2 x = Some bx
          /\ bucket_fleet_size q1 q2 y = Some by'
          /\ (bucket_rank bx <= bucket_rank by')%nat).
Proof.
  intros q1 q2 x y. unfold bucket_fleet_size. split.
  - destruct (isna x); [tauto|].
    destruct (fle x q1); [split; discriminate|].
    destruct (fle x q2); split; discriminate.
  - intro Hxy.
    assert (Hx : isna x = false) by (destruct x, y; try discriminate; reflexivity).
    assert (Hy : isna y = false) by (destruct x, y; try discriminate; reflexivity).
    rewrite Hx, Hy.
    destruct (fle y q1) eqn:Y1.
    + rewrite (fle_trans _ _ _ Hxy Y1). exists Small, Small. auto.
    + destruct (fle y q2) eqn:Y2.
      * destruct (fle x q1).
        -- exists Small, Medium. simpl. auto.
        -- rewrite (fle_trans _ _ _ Hxy Y2). exists Medium, Medium. auto.
      * destruct (fle x q1); [exists Small, Large; simpl; auto|].
        destruct (fle x q2);
          [exists Medium, Large | exists Large, Large]; simpl; auto.
Qed.

End Buckets.

(* ------------------------------------------------------------------ *)
(** ** Instances on the example inputs *)

Section FurtherExamples.

Import Frame Text Num Unicode Classifier Statements Examples.
Local Open Scope string_scope.

Lemma X17_witness :
  exists feats outs,
    BuildFeatures.build_features [small_agg] empty_fleet_raw = Some feats
    /\ Scorer.compute_scores None (map Scorer.of_feature feats) = Some outs
    /\ Forall2 scored feats outs.
Proof.
  assert (E : exists feats,
             BuildFeatures.build_features [small_agg] empty_fleet_raw
             = Some feats)
    by (vm_compute; eexists; reflexivity).
  destruct E as (feats & E). exists feats.
  destruct (@X17_scoring_the_exported_features
              [small_agg] empty_fleet_raw feats None E) as (outs & Ho & HF).
  exists outs. auto.
Defined.

Lemma X6_witness :
  exists big tiny,
    precedes big tiny (Air1.agg_sorted (Air1.features rank_raw))
    /\ Air1.airline big = "BIG AIR" /\ Air1.airline tiny = "TINY AIR"
    /\ (Air1.fleet_size tiny < 5)%nat
    /\ (Air1.indice_modernite_v0 big < Air1.indice_modernite_v0 tiny)%Q
    /\ ((Air1.fleet_size big < 5)%nat -> (Air1.fleet_size tiny < 5)%nat).
Proof.
  assert (E : exists big tiny,
             Air1.agg_sorted (Air1.features rank_raw) = [big; tiny])
    by (vm_compute; eexists; eexists; reflexivity).
  destruct E as (big & tiny & E). exists big, tiny.
  assert (Hp : precedes big tiny (Air1.agg_sorted (Air1.features rank_raw))).
  { exists [], [], []. exact E. }
  destruct (X6_reliable_fleets_are_ranked_first ascii_only rank_raw)
    as [_ H].
  destruct (H big tiny Hp) as [Hsmall _].
  revert E. vm_compute. intro E. injection E as <- <-.
  repeat split; try assumption; try reflexivity. vm_compute. lia.
Defined.

Lemma X19_witness :
  exists row,
    In row (CountryMap.main None None observed_countries (Some old_file))
    /\ CountryMap.country row = "Belgique"
    /\ CountryMap.country_code row = "BE"
    /\ CountryMap.region row = "Europe".
Proof.
  destruct (@X19_manual_tables_fill_a_new_country None None
              observed_countries (Some old_file) "Belgique")
    as (row & Hin & Hc & Hcode & Hreg & _).
  - right. right. right. left. reflexivity.
  - apply mem_In. vm_compute. reflexivity.
  - intros rows E. injection E as <-. intro H. apply mem_In in H.
    vm_compute in H. discriminate H.
  - exists row. split; [exact Hin|]. split; [exact Hc|].
    revert Hcode Hreg. vm_compute. intros Hcode Hreg.
    injection Hcode as <-. injection Hreg as <-. auto.
Defined.

End FurtherExamples.

Section FurtherExamples2.

Import Frame Text Num Unicode Classifier Statements Examples.
Local Open Scope string_scope.

Lemma X23_witness :
  In ("CEBU PACIFIC", "Philippines") Region.MANUAL_COUNTRY_RAW
  /\ Region.normalize_str (U := ascii_only) (Some "Cebu Pacific")
     = Region.normalize_str (U := ascii_only) (Some "CEBU PACIFIC")
  /\ Region.get_manual_country (U := ascii_only) (Some "Cebu Pacific")
     = Some "Philippines".
Proof.
  assert (Hin : In ("CEBU PACIFIC", "Philippines") Region.MANUAL_COUNTRY_RAW)
    by (right; left; reflexivity).
  assert (Hn : Region.normalize_str (U := ascii_only) (Some "Cebu Pacific")
               = Region.normalize_str (U := ascii_only)
                   (Some "CEBU PACIFIC")) by reflexivity.
  split; [exact Hin|]. split; [exact Hn|].
  apply (@X23_every_manual_airline_is_found ascii_only
           "CEBU PACIFIC" "Philippines" "Cebu Pacific" Hin Hn).
Defined.

Lemma X25_witness :
  Region.guess_country_from_name (U := ascii_only) (Some "AIR CHINE CARGO")
    (Region.build_country_token_table (Region.with_extra res_file))
  = Some "Chine"
  /\ forall x,
       In x (Region.merge_region (U := ascii_only)
               (Region.with_extra res_file) guessed_row) ->
       exists row, In row (Region.with_extra res_file)
                   /\ Region.r_region x = Region.m_region row.
Proof.
  assert (Hg : Region.guess_country_from_name (U := ascii_only)
                 (Some "AIR CHINE CARGO")
                 (Region.build_country_token_table
                    (Region.with_extra res_file))
               = Some "Chine") by (vm_compute; reflexivity).
  split; [exact Hg|].
  destruct (@X25_a_guessed_country_is_in_the_mapping ascii_only
              (Region.with_extra res_file) (Some "AIR CHINE CARGO") "Chine"
              guessed_row Hg eq_refl) as [_ H].
  intros x Hx. destruct (H x Hx) as (row & Hrow & _ & Hr).
  exists row. split; assumption.
Defined.

Lemma X26_witness :
  NoDup (map (Region.country_clean (U := ascii_only))
             (Region.with_extra res_file))
  /\ List.length
       (Region.join_region (U := ascii_only) (Region.with_extra res_file)
          (Region.resolve_countries res_raw (Region.with_extra res_file)
             res_scores))
     = 5%nat.
Proof.
  assert (Hnd : NoDup (map (Region.country_clean (U := ascii_only))
                           (Region.with_extra res_file))).
  { vm_compute. repeat constructor; simpl; intuition discriminate. }
  split; [exact Hnd|].
  destruct (@X26_region_join_keeps_one_row_per_score ascii_only
              (Region.with_extra res_file)
              (Region.resolve_countries res_raw (Region.with_extra res_file)
                 res_scores) Hnd) as [_ Hl].
  rewrite Hl. vm_compute. reflexivity.
Defined.

Lemma X27_witness :
  let kept :=
    Region.final_filter
      (Region.join_region (U := ascii_only) (Region.with_extra res_file)
         (Region.resolve_countries res_raw (Region.with_extra res_file)
            res_scores)) in
  (forall x, In x kept -> in01 (Region.r_modernity_index x))
  /\ (exists s, In s (Region.summary_basic kept))
  /\ forall s, In s (Region.summary_basic kept) ->
               in01 (Region.mean_modernity_index s).
Proof.
  intro kept.
  assert (Hall : forallb (fun x => match Region.r_modernity_index x with
                                   | Fin q => Qle_bool 0 q && Qle_bool q 1
                                   | _ => false
                                   end) kept = true)
    by (vm_compute; reflexivity).
  assert (Hk : forall x, In x kept -> in01 (Region.r_modernity_index x)).
  { intros x Hx.
    pose proof (proj1 (forallb_forall _ _) Hall x Hx) as H. cbv beta in H.
    destruct (Region.r_modernity_index x) as [| | |q]; try discriminate H.
    apply andb_true_iff in H. destruct H as [H0 H1].
    split; apply Qle_bool_iff; assumption. }
  split; [exact Hk|]. split.
  - assert (E : exists s t, Region.summary_basic kept = s :: t)
      by (vm_compute; eexists; eexists; reflexivity).
    destruct E as (s & t & E). exists s. rewrite E. left. reflexivity.
  - intros s Hs.
    apply (@X27_regional_means_are_in_range kept s Hk Hs).
Defined.

Lemma X7_witness :
  is_787 (tag_family "Boeing 787-9") = true
  /\ detect_new_gen (Some "Boeing 787-9") = 1%nat.
Proof.
  assert (H : is_787 (tag_family "Boeing 787-9") = true)
    by (vm_compute; reflexivity).
  split; [exact H|].
  destruct (X7_ignore_case_is_redundant_on_lowered_text "Boeing 787-9")
    as (_ & H787 & _).
  apply H787, H.
Defined.

Lemma X28_witness :
  exists bx by',
    FleetBucket.bucket_fleet_size (Fin 4) (Fin 20) (Fin 3) = Some bx
    /\ FleetBucket.bucket_fleet_size (Fin 4) (Fin 20) (Fin 12) = Some by'
    /\ (bucket_rank bx <= bucket_rank by')%nat.
Proof.
  destruct (X28_a_larger_fleet_never_gets_a_smaller_bucket
              (Fin 4) (Fin 20) (Fin 3) (Fin 12)) as [_ H].
  apply H. reflexivity.
Defined.

End FurtherExamples2.
